(** * Kleros API: dispute synchronisation between the arbitrator ledger and the store

    A shallow embedding of
    - [src/utils/StoreProviderWrapper.js] (modules [StoreProviderWrapper] and
      [StoreProviderOps]),
    - [src/resources/Disputes.js] (module [Disputes]),
    - [src/abstractWrappers/Disputes.js] (modules [AbstractDisputes] and
      [AbstractDisputesStore]),
    - the token-shift handler of the older resource, [src/unnamed/part_001]
      (module [OlderDisputes]),
    together with a model of the promise queue the store wrapper sends its
    writes through (module [PromiseQueue]).

    JavaScript values are the inductive [JVal]; objects are finite maps from
    field names to values.  Asynchronous functions become functions in a
    state-and-error monad over the connection to the store: an [await] is a
    bind, a rejected promise is [Err]. *)

From stdpp Require Import base option list gmap strings.
From Stdlib Require Import ZArith Lia Sorted.

#[local] Open Scope Z_scope.

(* ================================================================== *)
(** ** JavaScript values *)
(* ================================================================== *)

Module JS.

#[warnings="-register-all"]
Inductive JVal : Type :=
  | JUndef
  | JNull
  | JBool (b : bool)
  | JNum (z : Z)
  | JInf (negative : bool)
  | JStr (s : string)
  | JArr (l : list JVal)
  | JObj (m : gmap string JVal).

(** [if (v)], [!v], [v || d]. *)
Definition truthy (v : JVal) : bool :=
  match v with
  | JUndef | JNull => false
  | JBool b => b
  | JNum z => negb (z =? 0)
  | JStr s => negb (String.eqb s "")
  | JInf _ | JArr _ | JObj _ => true
  end.

(** [a === b] on primitives.  Objects and arrays compare by identity, which
    the embedding does not track; the source only compares addresses and
    numbers. *)
Definition strict_eq (a b : JVal) : bool :=
  match a, b with
  | JUndef, JUndef | JNull, JNull => true
  | JBool x, JBool y => Bool.eqb x y
  | JNum x, JNum y => x =? y
  | JInf x, JInf y => Bool.eqb x y
  | JStr x, JStr y => String.eqb x y
  | _, _ => false
  end.

(** [o.k] on an object: a missing field reads as [undefined]. *)
Definition get (o : gmap string JVal) (k : string) : JVal :=
  default JUndef (o !! k).

(** [v.k] on any value: reading a property of [null] or [undefined] throws
    a TypeError ([None]); a primitive has no own fields. *)
Definition prop (v : JVal) (k : string) : option JVal :=
  match v with
  | JUndef | JNull => None
  | JObj o => Some (get o k)
  | _ => Some JUndef
  end.

(** [v.k] where [v] is an element of a stored collection (an object). *)
Definition field (v : JVal) (k : string) : JVal :=
  match v with
  | JObj o => get o k
  | _ => JUndef
  end.

(** The fields spread by [{...v}]: those of an object, none for [null],
    [undefined], a number or a boolean.  A stored record is an object or
    [null]. *)
Definition spread (v : JVal) : gmap string JVal :=
  match v with
  | JObj o => o
  | _ => ∅
  end.

(** The elements lodash iterates over: those of an array, none for
    [undefined] or [null]. *)
Definition elems (v : JVal) : list JVal :=
  match v with
  | JArr l => l
  | _ => []
  end.

(** [_.filter(v, p)[0]]. *)
Definition first_match (p : JVal -> bool) (l : list JVal) : JVal :=
  default JUndef (List.find p l).

(** [_.findIndex(l, p)]: the index of the first match, or -1. *)
Fixpoint findIndex (p : JVal -> bool) (l : list JVal) : Z :=
  match l with
  | [] => -1
  | x :: l' => if p x then 0 else
      let i := findIndex p l' in if i <? 0 then -1 else i + 1
  end.

(** [a[i]] on an array: [undefined] outside it. *)
Definition index (l : list JVal) (i : Z) : JVal :=
  if i <? 0 then JUndef else default JUndef (l !! Z.to_nat i).

(** [a[i] = v] on an array: inside the array the slot is overwritten; past
    its end the array is extended, the slots in between being holes (which
    read as [undefined]).  A negative [i] names no slot. *)
Definition assign (l : list JVal) (i : Z) (v : JVal) : list JVal :=
  if i <? 0 then l
  else
    let n := Z.to_nat i in
    if (n <? length l)%nat then <[n := v]> l
    else l ++ replicate (n - length l)%nat JUndef ++ [v].

(** A slot that holds a value. *)
Definition is_set (v : JVal) : bool :=
  match v with
  | JUndef | JNull => false
  | _ => true
  end.

(** [JSON.stringify(v)], given as the document it writes (what
    [JSON.parse] reads back from it).  A field whose value is [undefined] is
    left out, an [undefined] element of an array (a hole included) is
    written as [null], and so is an infinity; [JSON.stringify(undefined)] is
    [undefined]. *)
Fixpoint stringify (v : JVal) : JVal :=
  match v with
  | JUndef => JUndef
  | JInf _ => JNull
  | JArr l => JArr (map (fun x => match x with JUndef => JNull | _ => stringify x end) l)
  | JObj m => JObj (omap (fun x => match x with JUndef => None | _ => Some (stringify x) end) m)
  | _ => v
  end.

(** The fields of the document written for the object with the fields
    [m]: [JSON.stringify(m)] is [JObj (written m)]. *)
Definition written (m : gmap string JVal) : gmap string JVal :=
  omap (fun x => match x with JUndef => None | _ => Some (stringify x) end) m.


End JS.
Export JS.

(* ================================================================== *)
(** ** Numbers *)
(* ================================================================== *)

(** A JavaScript number is an IEEE-754 double.  The numbers the source
    computes with are integers (ledger quantities after [toNumber], numbers
    read from the store): [JNum z] is the double nearest to the integer [z],
    and a sum or product of such doubles is the exact integer result rounded
    to the nearest double, ties to even, an infinity beyond the range of
    doubles.  Fractions and NaN do not arise.  Token amounts, fees and
    timestamps go through [add] and [mul]; the counters of the ledger
    (sessions, appeals, indices of disputes and of draws) stay far below
    [2^53], where the sum of two doubles is the sum of the integers, and
    are added in [Z]. *)
Module Double.

(** The integer-valued double nearest to [x]: [x] itself up to [2^53];
    beyond, [x] keeps its 53 leading bits, rounded to nearest, ties to
    even. *)
Definition round (x : Z) : Z :=
  let a := Z.abs x in
  if a <=? 2 ^ 53 then x
  else
    let e := Z.log2 a - 52 in
    let q := Z.shiftr a e in
    let r := a - Z.shiftl q e in
    let half := Z.shiftl 1 (e - 1) in
    let q' := if (half <? r) || ((r =? half) && Z.odd q) then q + 1 else q in
    Z.sgn x * Z.shiftl q' e.

(** The number a computation yields whose exact result is [x]. *)
Definition number (x : Z) : JVal :=
  let r := round x in
  if Z.abs r <? 2 ^ 1024 then JNum r else JInf (x <? 0).

(** [x + y] and [x * y] on numbers. *)
Definition add (x y : Z) : JVal := number (round x + round y).

Definition mul (x y : Z) : JVal := number (round x * round y).

Arguments round : simpl never.
Arguments number : simpl never.
Arguments add : simpl never.
Arguments mul : simpl never.

End Double.

(* ================================================================== *)
(** ** Errors and the monad of asynchronous functions *)
(* ================================================================== *)

(** [constants/error.js] is not part of the sources at hand: each error
    constant is a constructor carrying the argument it is called with. *)
Inductive Error : Type :=
  | NO_AUTH_TOKEN                      (* 'No auth token set. Cannot make writes to store...' *)
  | INVALID_AUTH_TOKEN (msg : JVal)
  | REQUEST_FAILED (err : JVal)
  | PROFILE_NOT_FOUND (user : string)
  | DISPUTE_NOT_FOUND
  | TYPE_ERROR                         (* property read on null or undefined *)
  | CHAIN_READ_FAILED                  (* a call of the ledger client threw *)
  | UNABLE (msg : string)              (* new Error(msg) *)
  | NEVER_SETTLES.                     (* the awaited promise is neither resolved nor rejected *)

Inductive Result (A : Type) : Type :=
  | Ok (a : A)
  | Err (e : Error).
Arguments Ok {A} a.
Arguments Err {A} e.

Definition is_ok {A} (r : Result A) : bool :=
  match r with Ok _ => true | Err _ => false end.

Definition Async (St A : Type) : Type := St -> Result A * St.

Definition ret {St A} (a : A) : Async St A := fun s => (Ok a, s).

Definition throw {St A} (e : Error) : Async St A := fun s => (Err e, s).

Definition bind {St A B} (m : Async St A) (k : A -> Async St B) : Async St B :=
  fun s => match m s with
           | (Ok a, s') => k a s'
           | (Err e, s') => (Err e, s')
           end.

(** [try { m } catch (err) { h }]. *)
Definition try_catch {St A} (m : Async St A) (h : Error -> Async St A) : Async St A :=
  fun s => match m s with
           | (Ok a, s') => (Ok a, s')
           | (Err e, s') => h e s'
           end.

(** A call whose promise is not awaited: its effects happen, its outcome is
    dropped (a rejection stays unhandled). *)
Definition detached {St A} (m : Async St A) : Async St unit :=
  fun s => (Ok tt, snd (m s)).

(** A call that reads without changing the state. *)
Definition lift {St A} (r : Result A) : Async St A := fun s => (r, s).

Notation "'let*' x ':=' e 'in' k" := (bind e (fun x => k))
  (at level 10, x name, e at level 200, k at level 200, only parsing).

(* ================================================================== *)
(** ** src/utils/StoreProviderWrapper.js *)
(* ================================================================== *)

Module StoreProviderWrapper.

(** The resource a request addresses; the source builds it as the string
    [`${storeUri}/...`]. *)
Inductive Uri : Type :=
  | UriProfile (user : string)
  | UriAuthToken (user : string)
  | UriAuthVerify (user : string)
  | UriContract (user contract : string)
  | UriEvidence (user contract : string)
  | UriDisputeProfile (user arbitrator : string) (disputeId : Z)
  | UriNotification (user txHash : string)
  | UriDispute (arbitrator : string) (disputeId : Z).

#[global] Instance Uri_eq_dec : EqDecision Uri.
Proof. solve_decision. Defined.

(** What reaches the XMLHttpRequest: [open(verb, uri)], the headers set and
    [send(body)].  A body is the JSON document that [JSON.stringify] wrote;
    [None] is [null]. *)
Record Request : Type := mkRequest {
  rq_verb : string;
  rq_uri : Uri;
  rq_headers : list (string * JVal);
  rq_body : option JVal
}.

(** How the XMLHttpRequest ends: [open] or [send] throws, or the request
    reaches [readyState] 4 with a status and a response text, [None] when
    [JSON.parse] throws on it. *)
Inductive XhrResult : Type :=
  | XhrThrows (err : JVal)
  | XhrDone (status : Z) (responseText : option JVal).

Record Response : Type := mkResponse {
  body : JVal;
  status : Z
}.

(** The wrapper instance ([this]) and the world behind it: the auth token,
    the state of the store service and the requests made so far. *)
Record Conn (S : Type) : Type := mkConn {
  _token : JVal;
  server : S;
  requests : list Request
}.
Arguments mkConn {S} _ _ _.
Arguments _token {S} _.
Arguments server {S} _.
Arguments requests {S} _.

Section Wrapper.

Context {S : Type}.
(** The store service and the network in front of it. *)
Context (net : Request -> S -> XhrResult * S).

(** [_makeRequest]: lines 29-69.  The throw of line 31 happens before the
    XMLHttpRequest is created; every caller awaits the call or makes it
    inside a [then], so it reaches them as a rejection. *)
Definition _makeRequest (verb : string) (uri : Uri) (body : option JVal)
  : Async (Conn S) Response :=
  fun c =>
    if negb (String.eqb verb "GET") && negb (truthy (_token c)) then
      (Err NO_AUTH_TOKEN, c)
    else
      let headers :=
        match body with
        | Some _ => [("Content-Type", JStr "application/json;charset=UTF-8");
                     ("Authorization", _token c)]
        | None => []
        end in
      let rq := mkRequest verb uri headers body in
      let '(x, s') := net rq (server c) in
      let c' := mkConn (_token c) s' (requests c ++ [rq]) in
      match x with
      | XhrThrows err => (Err (REQUEST_FAILED err), c')
      | XhrDone status responseText =>
          let body := default JNull responseText in
          if status =? 401 then
            match prop body "error" with
            | Some msg => (Err (INVALID_AUTH_TOKEN msg), c')
            | None => (Err NEVER_SETTLES, c')   (* body.error throws inside the callback *)
            end
          else (Ok (mkResponse body status), c')
      end.

(** [queueWriteRequest] and [queueReadRequest]: lines 78-89.  The queued
    task is the read phase followed by the request; on its own on the queue
    it runs at once (module [PromiseQueue] has the queue itself). *)
Definition queueWriteRequest (getBodyFn : Async (Conn S) JVal) (verb : string) (uri : Uri)
  : Async (Conn S) Response :=
  let* result := getBodyFn in _makeRequest verb uri (Some result).

Definition queueReadRequest (uri : Uri) : Async (Conn S) Response :=
  _makeRequest "GET" uri None.

Definition setAuthToken (token : JVal) : Async (Conn S) unit :=
  fun c => (Ok tt, mkConn token (server c) (requests c)).

(** [getUserProfile]: lines 149-156. *)
Definition getUserProfile (userAddress : string) : Async (Conn S) JVal :=
  let* httpResponse := _makeRequest "GET" (UriProfile userAddress) None in
  ret (body httpResponse).

(** [getContractByAddress]: lines 164-175. *)
Definition getContractByAddress (userAddress addressContract : string)
  : Async (Conn S) JVal :=
  let* userProfile := getUserProfile userAddress in
  if negb (truthy userProfile) then throw (PROFILE_NOT_FOUND userAddress)
  else
    ret (first_match
           (fun contract => strict_eq (field contract "address") (JStr addressContract))
           (elems (field userProfile "contracts"))).

(** The predicate [o.arbitratorAddress === arbitratorAddress && o.disputeId === disputeId]. *)
Definition is_dispute (arbitratorAddress : string) (disputeId : Z) (o : JVal) : bool :=
  strict_eq (field o "arbitratorAddress") (JStr arbitratorAddress)
  && strict_eq (field o "disputeId") (JNum disputeId).

(** [getDisputeDataForUser]: lines 184-194. *)
Definition getDisputeDataForUser (userAddress arbitratorAddress : string) (disputeId : Z)
  : Async (Conn S) JVal :=
  let* userProfile := getUserProfile userAddress in
  if negb (truthy userProfile) then throw (PROFILE_NOT_FOUND userAddress)
  else
    ret (first_match (is_dispute arbitratorAddress disputeId)
           (elems (field userProfile "disputes"))).

(** [getDisputes]: lines 201-206. *)
Definition getDisputes (userAddress : string) : Async (Conn S) JVal :=
  let* userProfile := getUserProfile userAddress in
  if negb (truthy userProfile) then ret (JArr [])
  else ret (field userProfile "disputes").

(** The fields of the body built by [updateUserProfile]'s [getBodyFn] from
    the profile it fetched: lines 232-238.  The body is
    [JSON.stringify({ ...currentProfile, ...params })]. *)
Definition userProfileBody (userAddress : string) (params : gmap string JVal)
    (fetched : JVal) : gmap string JVal :=
  let currentProfile := spread fetched in                 (* (await ...) || {} *)
  let currentProfile := delete "_id" currentProfile in
  let currentProfile := delete "created_at" currentProfile in
  let params := <["address" := JStr userAddress]> params in
  written (params ∪ currentProfile).

(** [updateUserProfile]: lines 230-246. *)
Definition updateUserProfile (userAddress : string) (params : gmap string JVal)
  : Async (Conn S) Response :=
  let getBodyFn :=
    let* fetched := getUserProfile userAddress in
    ret (JObj (userProfileBody userAddress params fetched)) in
  queueWriteRequest getBodyFn "POST" (UriProfile userAddress).

(** [setUpUserProfile]: lines 253-263.  The update is queued and not
    awaited; the read is queued behind it, and its whole response (not the
    response's body) becomes the result. *)
Definition setUpUserProfile (userAddress : string) : Async (Conn S) JVal :=
  let* userProfile := getUserProfile userAddress in
  match userProfile with
  | JNull =>
      let* _ := detached (updateUserProfile userAddress ∅) in
      let* r := queueReadRequest (UriProfile userAddress) in
      ret (JObj (<["body" := body r]> (<["status" := JNum (status r)]> ∅)))
  | _ => ret userProfile
  end.

(** The fields of the body built by [updateDisputeProfile]'s [getBodyFn]
    from the dispute profile it found: lines 358-371.  The body is
    [JSON.stringify({ ...currentDisputeProfile, ...params })]. *)
Definition disputeProfileBody (arbitratorAddress : string) (disputeId : Z)
    (params : gmap string JVal) (found : JVal) : gmap string JVal :=
  let currentDisputeProfile := spread found in            (* _.filter(...)[0] || {} *)
  let currentDisputeProfile := delete "_id" currentDisputeProfile in
  let params := <["disputeId" := JNum disputeId]> params in
  let params := <["arbitratorAddress" := JStr arbitratorAddress]> params in
  written (params ∪ currentDisputeProfile).

(** [updateDisputeProfile]: lines 349-381.  [userProfile.disputes] is read
    without a check of [userProfile]. *)
Definition updateDisputeProfile (userAddress arbitratorAddress : string) (disputeId : Z)
    (params : gmap string JVal) : Async (Conn S) Response :=
  let getBodyFn :=
    let* userProfile := getUserProfile userAddress in
    match prop userProfile "disputes" with
    | None => throw TYPE_ERROR
    | Some disputes =>
        let found := first_match (is_dispute arbitratorAddress disputeId) (elems disputes) in
        ret (JObj (disputeProfileBody arbitratorAddress disputeId params found))
    end in
  queueWriteRequest getBodyFn "POST"
    (UriDisputeProfile userAddress arbitratorAddress disputeId).

(** [updateContract]: lines 272-300, up to the check of the response. *)
Definition updateContract (userAddress contractAddress : string)
    (params : gmap string JVal) : Async (Conn S) JVal :=
  let getBodyFn :=
    let* currentContractData := getContractByAddress userAddress contractAddress in
    let current := delete "_id" (spread currentContractData) in
    ret (JObj (written (<["address" := JStr contractAddress]> params ∪ current))) in
  let* httpResponse :=
    queueWriteRequest getBodyFn "POST" (UriContract userAddress contractAddress) in
  if negb (status httpResponse =? 201) then throw (REQUEST_FAILED JUndef)
  else
    match prop (index (elems (body httpResponse)) 0) "contracts" with
    | Some contracts =>
        ret (first_match
               (fun contract => strict_eq (field contract "address") (JStr contractAddress))
               (elems contracts))
    | None => throw TYPE_ERROR
    end.

End Wrapper.

End StoreProviderWrapper.
Export StoreProviderWrapper.

(* ================================================================== *)
(** ** The store service *)
(* ================================================================== *)

Module KlerosStore.

(** Modelled from the spec: the store service itself is an external
    collaborator (spec 1, 6).  It keeps one profile per user address, whose
    [disputes] field is the ordered collection of dispute profiles keyed by
    [(arbitratorAddress, disputeId)] (spec 3), and one dispute record per
    [(arbitratorAddress, disputeId)].  A [GET] answers 200 with the record
    or [null]; a [POST] stores the body it is sent and answers 201. *)
Record Store : Type := mkStore {
  profiles : gmap string JVal;
  disputes : gmap (string * Z) JVal
}.

(** Modelled from the spec: a dispute profile is unique per user and key, so
    a posted profile replaces the entry with its key, or is added at the end
    (spec 3, "idempotent upsert"). *)
Fixpoint upsert (arbitratorAddress : string) (disputeId : Z) (b : JVal) (l : list JVal)
  : list JVal :=
  match l with
  | [] => [b]
  | x :: l' =>
      if is_dispute arbitratorAddress disputeId x then b :: l'
      else x :: upsert arbitratorAddress disputeId b l'
  end.

(** Modelled from the spec: the resource paths of spec 6. *)
Definition serve (rq : Request) (s : Store) : XhrResult * Store :=
  if String.eqb (rq_verb rq) "GET" then
    match rq_uri rq with
    | UriProfile u => (XhrDone 200 (Some (default JNull (profiles s !! u))), s)
    | UriDispute a i => (XhrDone 200 (Some (default JNull (disputes s !! (a, i)))), s)
    | _ => (XhrDone 404 None, s)
    end
  else
    match rq_uri rq, rq_body rq with
    | UriProfile u, Some b =>
        (XhrDone 201 (Some b), mkStore (<[u := b]> (profiles s)) (disputes s))
    | UriDisputeProfile u a i, Some b =>
        match profiles s !! u with
        | Some (JObj p) =>
            let p' := JObj (<["disputes" := JArr (upsert a i b (elems (get p "disputes")))]> p) in
            (XhrDone 201 (Some p'), mkStore (<[u := p']> (profiles s)) (disputes s))
        | _ => (XhrDone 404 None, s)
        end
    | UriDispute a i, Some b =>
        (XhrDone 201 (Some b), mkStore (profiles s) (<[(a, i) := b]> (disputes s)))
    | _, _ => (XhrDone 404 None, s)
    end.

End KlerosStore.

(* ================================================================== *)
(** ** src/resources/Disputes.js *)
(* ================================================================== *)

(** The arbitrator instance ([this._ArbitratorInstance]): the ledger client,
    an external collaborator whose calls read the chain and may throw. *)
Module Arbitrator.

Record DisputeRecord : Type := mkDispute {
  arbitrableContractAddress : string;
  firstSession : Z;
  numberOfAppeals : Z;
  state : Z;
  status : JVal;
  arbitrationFeePerJuror : Z;
  voteCounters : list JVal
}.

Record t : Type := mk {
  getContractAddress : string;
  getDispute : Z -> Result DisputeRecord;
  getPeriod : Result Z;
  getSession : Result Z;
  currentRulingForDispute : Z -> Z -> Result JVal;
  canRuleDispute : Z -> list JVal -> string -> Result bool;
  getOpenDisputesForSession : Result (list Z);
  getDeadlineForOpenDispute : Result Z;
  getBlock : Z -> Result Z                   (* the block's timestamp *)
}.

End Arbitrator.

(** The arbitrable instance ([this._ArbitrableInstance]).  The source loads
    a contract with [setContractInstance(address)] and then reads it with
    [getData()]; here [getData] takes the address that was loaded. *)
Module Arbitrable.

Record ContractData : Type := mkData {
  partyA : string;
  partyB : string;
  status : JVal
}.

Record t : Type := mk {
  getData : string -> Result ContractData;
  getEvidenceForArbitrableContract : string -> Result JVal
}.

End Arbitrable.

Module Disputes.

(** [constants/arbitrator.js] and [constants/dispute.js] are not part of the
    sources at hand; the values the code compares with are parameters. *)
Record Constants : Type := mkConstants {
  PERIOD_VOTE : Z;
  PERIOD_APPEAL : Z;
  PERIOD_EXECUTE : Z;
  STATE_OPEN : Z;
  STATE_EXECUTABLE : Z
}.

(** The values of the Kleros contract: periods Activation, Draw, Vote,
    Appeal, Execute and states Open, Resolving, Executable, Executed, each
    numbered from 0. *)
Definition kleros_constants : Constants := mkConstants 2 3 4 0 2.

Record Env : Type := mkEnv {
  constants : Constants;
  _ArbitratorInstance : Arbitrator.t;
  _ArbitrableInstance : Arbitrable.t
}.

(** The log of an event with its arguments ([event.args._disputeID] and the
    like, already [toNumber]ed). *)
Record Event : Type := mkEvent {
  _disputeID : Z;
  _account : string;
  _amount : Z;
  blockNumber : Z
}.

Record AppealJuror : Type := mkAppealJuror {
  createdAt : JVal;
  fee : JVal;
  draws : list JVal;
  canRule : JVal
}.

Record AppealRuling : Type := mkAppealRuling {
  voteCounter : JVal;
  deadline : JVal;
  ruledAt : JVal;
  ruling : JVal;
  canRepartition : bool;
  canExecute : bool
}.

(** The object [getDataForDispute] returns. *)
Record DisputeData : Type := mkDisputeData {
  arbitrableContractAddress : string;
  arbitrableContractStatus : JVal;
  arbitratorAddress : string;
  partyA : string;
  partyB : string;
  disputeId : Z;
  firstSession : Z;
  lastSession : Z;
  numberOfAppeals : Z;
  disputeState : Z;
  disputeStatus : JVal;
  appealJuror : list AppealJuror;
  appealRulings : list AppealRuling;
  description : JVal;
  email : JVal;
  evidence : JVal;
  netPNK : JVal;
  appealCreatedAt : list JVal;
  appealDeadlines : list JVal;
  appealRuledAt : list JVal
}.

(** The five variables lines 295-299 declare and lines 306-310 may set. *)
Record StoreData : Type := mkStoreData {
  sd_appealDraws : list JVal;
  sd_appealCreatedAt : list JVal;
  sd_appealDeadlines : list JVal;
  sd_appealRuledAt : list JVal;
  sd_netPNK : JVal
}.

Definition noStoreData : StoreData := mkStoreData [] [] [] [] (JNum 0).

(** Lines 306-310: a field of [userData] replaces the default when it is
    truthy.  The appeal fields are arrays in the store (spec 3) and are read
    as such.  Reading a field of a [userData] that is [null] or [undefined]
    throws inside the [try], which leaves the defaults. *)
Definition readStoreData (userData : JVal) : StoreData :=
  match userData with
  | JUndef | JNull => noStoreData
  | _ =>
      let arr k := elems (field userData k) in
      let n := field userData "netPNK" in
      mkStoreData (arr "appealDraws") (arr "appealCreatedAt") (arr "appealDeadlines")
        (arr "appealRuledAt") (if truthy n then n else JNum 0)
  end.

Fixpoint mapM {A B} (f : A -> Result B) (l : list A) : Result (list B) :=
  match l with
  | [] => Ok []
  | x :: l' =>
      match f x with
      | Err e => Err e
      | Ok y => match mapM f l' with
                | Err e => Err e
                | Ok ys => Ok (y :: ys)
                end
      end
  end.

(** The values [appeal] takes in [for (let appeal = 0; appeal <= n; appeal++)]. *)
Definition appeals (n : Z) : list Z :=
  map Z.of_nat (seq 0 (Z.to_nat (n + 1))).

(** [Promise.all(openDisputes.map(async disputeId => ...))]: every body is
    started and runs to its end; the first rejection is the outcome. *)
Fixpoint forEach {St A} (f : A -> Async St unit) (l : list A) : Async St unit :=
  match l with
  | [] => ret tt
  | x :: l' => fun s =>
      let '(r, s') := f x s in
      let '(r', s'') := forEach f l' s' in
      (match r with Err e => Err e | Ok _ => r' end, s'')
  end.

Section Resource.

Context {S : Type}.
Context (net : Request -> S -> XhrResult * S).
Context (env : Env).

Let arbitrator := _ArbitratorInstance env.
Let arbitrable := _ArbitrableInstance env.
Let K := constants env.

(** Modelled from the spec: [getDispute], [updateDispute], [getDisputeData]
    and [getDisputesForUser] are methods of the store wrapper that
    [src/utils/StoreProviderWrapper.js] does not define.  The dispute record
    keyed by [(arbitratorAddress, disputeId)] is read as it is stored,
    [null] when there is none (spec 4.4, dispute-created handler). *)
Definition getDispute (arbitratorAddress : string) (disputeId : Z) : Async (Conn S) JVal :=
  let* httpResponse := _makeRequest net "GET" (UriDispute arbitratorAddress disputeId) None in
  ret (body httpResponse).

(** Modelled from the spec: "fetch current record (or treat absence as empty
    object), shallow-merge supplied partial fields over current record,
    write merged record" (spec 4.2), through the write queue.  The record is
    written as the wrapper writes every body, with [JSON.stringify]. *)
Definition updateDispute (arbitratorAddress : string) (disputeId : Z)
    (params : gmap string JVal) : Async (Conn S) Response :=
  let getBodyFn :=
    let* current := getDispute arbitratorAddress disputeId in
    ret (JObj (written (params ∪ spread current))) in
  queueWriteRequest net getBodyFn "POST" (UriDispute arbitratorAddress disputeId).

(** Modelled from the spec: the store's data on a dispute for an account is
    the dispute record with the account's own dispute profile laid over it;
    the read fails with not-found when the store holds neither (spec 4.4
    step 4, spec 7). *)
Definition getDisputeData (arbitratorAddress : string) (disputeId : Z) (account : string)
  : Async (Conn S) JVal :=
  let* record := getDispute arbitratorAddress disputeId in
  let* userProfile := getUserProfile net account in
  let own := first_match (is_dispute arbitratorAddress disputeId)
               (elems (field userProfile "disputes")) in
  if truthy record || truthy own then ret (JObj (spread own ∪ spread record))
  else throw DISPUTE_NOT_FOUND.

(** Modelled from the spec: [listDisputesForUser(address)] (spec 4.2), the
    wrapper's [getDisputes]. *)
Definition getDisputesForUser (account : string) : Async (Conn S) JVal :=
  getDisputes net account.

(** One turn of the loop of lines 320-365. *)
Definition appealRound (dispute : Arbitrator.DisputeRecord) (period session : Z)
    (sd : StoreData) (disputeId : Z) (account : string) (appeal : Z)
  : Result (AppealJuror * AppealRuling) :=
  let lastSession := Arbitrator.firstSession dispute + Arbitrator.numberOfAppeals dispute in
  let isLastAppeal := Arbitrator.firstSession dispute + appeal =? lastSession in
  let draws :=
    let d := index (sd_appealDraws sd) appeal in
    if truthy d then elems d else [] in
  let canRepartition :=
    if isLastAppeal && (negb (session =? 0) && negb (period =? 0)) then
      (lastSession <=? session)
      && (period =? PERIOD_EXECUTE K)
      && (Arbitrator.state dispute =? STATE_OPEN K)
    else false in
  let canExecute :=
    if isLastAppeal then Arbitrator.state dispute =? STATE_EXECUTABLE K else false in
  match Arbitrator.currentRulingForDispute arbitrator disputeId appeal with
  | Err e => Err e
  | Ok ruling =>
      (* [ruling, canRule] = await Promise.all(rulingPromises): when the array
         holds the ruling's promise alone, the destructuring sets canRule to
         undefined *)
      let canRule :=
        if isLastAppeal && (0 <? Z.of_nat (length draws)) then
          match Arbitrator.canRuleDispute arbitrator disputeId draws account with
          | Err e => Err e
          | Ok b => Ok (JBool b)
          end
        else Ok JUndef in
      match canRule with
      | Err e => Err e
      | Ok canRule =>
          Ok (mkAppealJuror
                (index (sd_appealCreatedAt sd) appeal)
                (Double.mul (Arbitrator.arbitrationFeePerJuror dispute)
                   (Z.of_nat (length draws)))
                draws
                canRule,
              mkAppealRuling
                (index (Arbitrator.voteCounters dispute) appeal)
                (index (sd_appealDeadlines sd) appeal)
                (index (sd_appealRuledAt sd) appeal)
                ruling
                canRepartition
                canExecute)
      end
  end.

(** Lines 294-314: the store's data on the dispute, or the defaults when
    the read throws. *)
Definition storeDataFor (arbitratorAddress : string) (disputeId : Z) (account : string)
  : Async (Conn S) StoreData :=
  try_catch
    (let* userData := getDisputeData arbitratorAddress disputeId account in
     ret (readStoreData userData))
    (fun _ => ret noStoreData).

(** Lines 367-397: the object returned. *)
Definition mergedView (disputeId : Z) (dispute : Arbitrator.DisputeRecord)
    (arbitrableContractData : Arbitrable.ContractData) (evidence contractStoreData : JVal)
    (sd : StoreData) (rounds : list (AppealJuror * AppealRuling)) : DisputeData :=
  mkDisputeData
    (Arbitrator.arbitrableContractAddress dispute)
    (Arbitrable.status arbitrableContractData)
    (Arbitrator.getContractAddress arbitrator)
    (Arbitrable.partyA arbitrableContractData)
    (Arbitrable.partyB arbitrableContractData)
    disputeId
    (Arbitrator.firstSession dispute)
    (Arbitrator.firstSession dispute + Arbitrator.numberOfAppeals dispute)
    (Arbitrator.numberOfAppeals dispute)
    (Arbitrator.state dispute)
    (Arbitrator.status dispute)
    (map fst rounds)
    (map snd rounds)
    (if truthy contractStoreData then field contractStoreData "description" else JUndef)
    (if truthy contractStoreData then field contractStoreData "email" else JUndef)
    evidence
    (sd_netPNK sd)
    (sd_appealCreatedAt sd)
    (sd_appealDeadlines sd)
    (sd_appealRuledAt sd).

(** [getDataForDispute]: lines 269-398. *)
Definition getDataForDispute (disputeId : Z) (account : string)
  : Async (Conn S) DisputeData :=
  let arbitratorAddress := Arbitrator.getContractAddress arbitrator in
  let* dispute := lift (Arbitrator.getDispute arbitrator disputeId) in
  let* period := lift (Arbitrator.getPeriod arbitrator) in
  let* session := lift (Arbitrator.getSession arbitrator) in
  let arbitrableContractAddress := Arbitrator.arbitrableContractAddress dispute in
  let* arbitrableContractData := lift (Arbitrable.getData arbitrable arbitrableContractAddress) in
  let* evidence :=
    lift (Arbitrable.getEvidenceForArbitrableContract arbitrable arbitrableContractAddress) in
  let* contractStoreData :=
    getContractByAddress net (Arbitrable.partyA arbitrableContractData)
      arbitrableContractAddress in
  let* sd := storeDataFor arbitratorAddress disputeId account in
  let* rounds :=
    lift (mapM (appealRound dispute period session sd disputeId account)
            (appeals (Arbitrator.numberOfAppeals dispute))) in
  ret (mergedView disputeId dispute arbitrableContractData evidence contractStoreData
         sd rounds).

(** [_storeNewDisputeHandler]: lines 78-117.  [disputeData.status] is not a
    field of the object [getDataForDispute] returns: it reads as
    [undefined], and [JSON.stringify] leaves such a field out. *)
Definition _storeNewDisputeHandler (event : Event) (account : string)
  : Async (Conn S) unit :=
  let disputeId := _disputeID event in
  let contractAddress := Arbitrator.getContractAddress arbitrator in
  let* existingDispute := getDispute contractAddress disputeId in
  match existingDispute with
  | JNull =>
      let* disputeData := getDataForDispute disputeId account in
      let* arbitrableContractData :=
        lift (Arbitrable.getData arbitrable (arbitrableContractAddress disputeData)) in
      let* blockTimestamp := lift (Arbitrator.getBlock arbitrator (blockNumber event)) in
      let appealCreatedAt :=
        assign (appealCreatedAt disputeData) (numberOfAppeals disputeData)
          (Double.mul blockTimestamp 1000) in
      let* _ :=
        updateDispute contractAddress disputeId
          (<["contractAddress" := JStr (arbitrableContractAddress disputeData)]>
           (<["partyA" := JStr (Arbitrable.partyA arbitrableContractData)]>
            (<["partyB" := JStr (Arbitrable.partyB arbitrableContractData)]>
             (<["appealCreatedAt" := JArr appealCreatedAt]> ∅)))) in
      ret tt
  | _ => ret tt
  end.

(** [(dispute.netPNK || 0) + amountShift], a sum of doubles.  [netPNK] is a
    number in the store (spec 3); [true] counts as 1 and an infinity stays
    what it is.  With a string, an array or an object the [+] is a string
    concatenation, which is not modelled and reads as [undefined]. *)
Definition shifted (netPNK : JVal) (amountShift : Z) : JVal :=
  match (if truthy netPNK then netPNK else JNum 0) with
  | JNum z => Double.add z amountShift
  | JBool b => Double.add (if b then 1 else 0) amountShift
  | JInf negative => JInf negative
  | _ => JUndef
  end.

(** [_storeTokensMovedForJuror]: lines 124-153. *)
Definition _storeTokensMovedForJuror (event : Event) (account : string)
  : Async (Conn S) unit :=
  let disputeId := _disputeID event in
  let address := _account event in
  let amountShift := _amount event in
  if String.eqb address account then
    let* userProfile := setUpUserProfile net account in
    let contractAddress := Arbitrator.getContractAddress arbitrator in
    let disputes := elems (field userProfile "disputes") in
    let disputeIndex :=
      findIndex
        (fun dispute =>
           strict_eq (field dispute "disputeId") (JNum disputeId)
           && strict_eq (field dispute "arbitratorAddress") (JStr contractAddress))
        disputes in
    if disputeIndex <? 0 then ret tt
    else
      let dispute := index disputes disputeIndex in
      match field dispute "arbitratorAddress", field dispute "disputeId" with
      | JStr a, JNum i =>
          let* _ :=
            updateDisputeProfile net account a i
              (<["netPNK" := shifted (field dispute "netPNK") amountShift]> ∅) in
          ret tt
      | _, _ => throw TYPE_ERROR
      end
  else ret tt.

(** The test both period handlers make on a dispute of the session:
    [_.findIndex(disputes, ...) >= 0]. *)
Definition tracked (disputes : JVal) (contractAddress : string) (disputeId : Z) : bool :=
  0 <=? findIndex
          (fun dispute =>
             strict_eq (field dispute "disputeId") (JNum disputeId)
             && strict_eq (field dispute "arbitratorAddress") (JStr contractAddress))
          (elems disputes).

(** The body of the [map] of lines 172-199, for one dispute of the
    session.  [updateDispute] is called without [await]. *)
Definition storeRuledAt (event : Event) (account : string) (disputes : JVal)
    (disputeId : Z) : Async (Conn S) unit :=
  let contractAddress := Arbitrator.getContractAddress arbitrator in
  if tracked disputes contractAddress disputeId then
    let* blockTimestamp := lift (Arbitrator.getBlock arbitrator (blockNumber event)) in
    let* disputeData := getDataForDispute disputeId account in
    let appealRuledAt :=
      assign (appealRuledAt disputeData) (numberOfAppeals disputeData)
        (Double.mul blockTimestamp 1000) in
    detached
      (updateDispute contractAddress disputeId
         (<["appealRuledAt" := JArr appealRuledAt]> ∅))
  else ret tt.

(** [_storeDisputeRuledAtTimestamp]: lines 160-202. *)
Definition _storeDisputeRuledAtTimestamp (event : Event) (account : string)
  : Async (Conn S) unit :=
  let* newPeriod := lift (Arbitrator.getPeriod arbitrator) in
  if newPeriod =? PERIOD_APPEAL K then
    let* disputes := getDisputesForUser account in
    let* openDisputes := lift (Arbitrator.getOpenDisputesForSession arbitrator) in
    forEach (storeRuledAt event account disputes) openDisputes
  else ret tt.

(** The body of the [map] of lines 221-243.  The handler names its first
    parameter [_] (line 209), which hides lodash in its body: [_.findIndex]
    of line 223 is a read of the field [findIndex] of the event log, which
    has none, and the call of [undefined] throws a TypeError.  Nothing
    below line 223 is reached, for any dispute of the session. *)
Definition storeDeadline (account : string) (disputes : JVal) (disputeId : Z)
  : Async (Conn S) unit :=
  throw TYPE_ERROR.

(** [_storeAppealDeadline]: lines 209-246.  In the Vote period the
    [Promise.all] of line 220 is rejected as soon as the session has an open
    dispute. *)
Definition _storeAppealDeadline (event : Event) (account : string)
  : Async (Conn S) unit :=
  let* newPeriod := lift (Arbitrator.getPeriod arbitrator) in
  if newPeriod =? PERIOD_VOTE K then
    let* disputes := getDisputesForUser account in
    let* openDisputes := lift (Arbitrator.getOpenDisputesForSession arbitrator) in
    forEach (storeDeadline account disputes) openDisputes
  else ret tt.

End Resource.

End Disputes.

(* ================================================================== *)
(** ** src/abstractWrappers/Disputes.js *)
(* ================================================================== *)

Module AbstractDisputes.

Record ArbitratorData : Type := mkArbitratorData {
  session : Z;
  period : Z
}.

Record DisputeRecord : Type := mkDispute {
  arbitratedContract : string;
  firstSession : Z;
  numberOfAppeals : Z
}.

(** The arbitrator contract wrapper ([this._Arbitrator]). *)
Record ArbitratorWrapper : Type := mkArbitrator {
  getData : string -> string -> Result ArbitratorData;
  getDispute : string -> Z -> Result DisputeRecord;
  getAmountOfJurorsForDispute : string -> Z -> Result Z;
  isJurorDrawnForDispute : Z -> Z -> string -> string -> Result bool
}.

(** [this]: the wrapper is unset until [setArbitrator] is called.
    [NULL_ADDRESS] comes from [constants], which is not part of the sources
    at hand. *)
Record Wrapper : Type := mkWrapper {
  _Arbitrator : option ArbitratorWrapper;
  NULL_ADDRESS : string
}.

(** [getVotesForJuror]: lines 214-230, the loop over [draws]. *)
Fixpoint votesLoop (A : ArbitratorWrapper) (disputeId : Z) (arbitratorAddress account : string)
    (draws : list Z) (votes : list Z) : Result (list Z) :=
  match draws with
  | [] => Ok votes
  | draw :: draws' =>
      match isJurorDrawnForDispute A disputeId draw arbitratorAddress account with
      | Err e => Err e
      | Ok isJuror =>
          votesLoop A disputeId arbitratorAddress account draws'
            (if isJuror then votes ++ [draw] else votes)
      end
  end.

Definition getVotesForJuror (A : ArbitratorWrapper) (disputeId : Z)
    (arbitratorAddress account : string) : Result (list Z) :=
  match getAmountOfJurorsForDispute A arbitratorAddress disputeId with
  | Err e => Err e
  | Ok numberOfJurors =>
      votesLoop A disputeId arbitratorAddress account
        (map Z.of_nat (seq 1 (Z.to_nat numberOfJurors))) []
  end.

(** The [while (1)] loop of lines 176-202.  Each turn of the loop uses one
    unit of [fuel]; [None] is a loop still running when the fuel is spent.
    Any exception inside the [try] leaves the loop. *)
Fixpoint scanLoop (fuel : nat) (A : ArbitratorWrapper) (null : string)
    (arbitratorAddress account : string) (currentSession : Z)
    (disputeId : Z) (myDisputes : list string) : option (list string) :=
  match fuel with
  | O => None
  | Datatypes.S fuel' =>
      match getDispute A arbitratorAddress disputeId with
      | Err _ => Some myDisputes
      | Ok dispute =>
          if String.eqb (arbitratedContract dispute) null then Some myDisputes
          else
            let disputeSession := firstSession dispute + numberOfAppeals dispute in
            if negb (disputeSession =? currentSession) then
              (* disputeId++; dispute = await getDispute(...); continue *)
              match getDispute A arbitratorAddress (disputeId + 1) with
              | Err _ => Some myDisputes
              | Ok _ =>
                  scanLoop fuel' A null arbitratorAddress account currentSession
                    (disputeId + 1) myDisputes
              end
            else
              match getVotesForJuror A disputeId arbitratorAddress account with
              | Err _ => Some myDisputes
              | Ok votes =>
                  scanLoop fuel' A null arbitratorAddress account currentSession
                    (disputeId + 1)
                    (if (0 <? length votes)%nat
                     then myDisputes ++ [arbitratedContract dispute]
                     else myDisputes)
              end
      end
  end.

(** [getDisputeContractsForJuror]: lines 163-205. *)
Definition getDisputeContractsForJuror (fuel : nat) (this : Wrapper)
    (arbitratorAddress account : string) : option (Result (list string)) :=
  match _Arbitrator this with
  | None => Some (Err (UNABLE "No Arbitrator Contract Wrapper specified. Please call setArbitrator"))
  | Some A =>
      match getData A arbitratorAddress account with
      | Err e => Some (Err e)
      | Ok arbitratorData =>
          match scanLoop fuel A (NULL_ADDRESS this) arbitratorAddress account
                  (session arbitratorData) 0 [] with
          | None => None
          | Some myDisputes => Some (Ok myDisputes)
          end
      end
  end.

(** The notions below are read off the ledger alone: none of them goes
    through [getVotesForJuror] or the loop of the scan. *)

(** The draws of a dispute of [n] jurors: 1, ..., n. *)
Definition drawsUpTo (n : Z) : list Z := map Z.of_nat (seq 1 (Z.to_nat n)).

(** The draws on which [isJurorDrawnForDispute] answers [true]. *)
Definition drawn (A : ArbitratorWrapper) (disputeId : Z)
    (arbitratorAddress account : string) (draw : Z) : bool :=
  match isJurorDrawnForDispute A disputeId draw arbitratorAddress account with
  | Ok true => true
  | _ => false
  end.

(** The account holds a draw in the dispute: the ledger gives the dispute
    [n] jurors and says of one of the draws 1..n that it is the account's. *)
Definition holdsDraw (A : ArbitratorWrapper) (arbitratorAddress account : string)
    (disputeId : Z) : bool :=
  match getAmountOfJurorsForDispute A arbitratorAddress disputeId with
  | Ok n => existsb (drawn A disputeId arbitratorAddress account) (drawsUpTo n)
  | Err _ => false
  end.

(** The ledger answers every question about the account's draws in the
    dispute: the number [n] of jurors, and each of the draws 1..n. *)
Definition drawsReadable (A : ArbitratorWrapper) (arbitratorAddress account : string)
    (disputeId : Z) : bool :=
  match getAmountOfJurorsForDispute A arbitratorAddress disputeId with
  | Ok n =>
      forallb (fun draw =>
                 is_ok (isJurorDrawnForDispute A disputeId draw arbitratorAddress account))
        (drawsUpTo n)
  | Err _ => false
  end.

(** What one index contributes to the result: the arbitrated contract of a
    dispute of the current session in which the account holds a draw. *)
Definition contribution (A : ArbitratorWrapper) (arbitratorAddress account : string)
    (currentSession : Z) (disputeId : Z) : list string :=
  match getDispute A arbitratorAddress disputeId with
  | Err _ => []
  | Ok dispute =>
      if (firstSession dispute + numberOfAppeals dispute =? currentSession)
         && holdsDraw A arbitratorAddress account disputeId
      then [arbitratedContract dispute]
      else []
  end.

(** The indices at which the scan ends: the read of the dispute throws, the
    record holds the null address, or the dispute is of the current session
    and a read of the ledger about the account's draws throws. *)
Definition stops (A : ArbitratorWrapper) (null : string) (arbitratorAddress account : string)
    (currentSession : Z) (disputeId : Z) : bool :=
  match getDispute A arbitratorAddress disputeId with
  | Err _ => true
  | Ok dispute =>
      String.eqb (arbitratedContract dispute) null
      || ((firstSession dispute + numberOfAppeals dispute =? currentSession)
          && negb (drawsReadable A arbitratorAddress account disputeId))
  end.

(** The matches of the indices [0 .. n-1], in order. *)
Definition matchesBelow (A : ArbitratorWrapper) (arbitratorAddress account : string)
    (currentSession : Z) (n : nat) : list string :=
  concat (map (fun i => contribution A arbitratorAddress account currentSession (Z.of_nat i))
            (seq 0 n)).

End AbstractDisputes.

(* ================================================================== *)
(** ** The promise queue of the store wrapper *)
(* ================================================================== *)

Module PromiseQueue.

(** A task given to [queueWriteRequest]: the thunk
    [() => getBodyFn().then(result => this._makeRequest(verb, uri, result))]. *)
Record Task (S : Type) : Type := mkTask {
  getBodyFn : Async (Conn S) JVal;
  verb : string;
  uri : Uri
}.
Arguments mkTask {S} _ _ _.
Arguments getBodyFn {S} _.
Arguments verb {S} _.
Arguments uri {S} _.

(** Where a task stands: waiting on the queue, in its read phase (the
    promise of [getBodyFn()] is pending), between its read and its request
    (the body is built), or settled with the outcome of the request. *)
Inductive Phase : Type :=
  | Queued
  | Reading
  | Writing (body : JVal)
  | Settled (r : Result Response).

Definition settled (p : Phase) : bool :=
  match p with Settled _ => true | _ => false end.

Definition executing (p : Phase) : bool :=
  match p with Reading | Writing _ => true | _ => false end.

Definition queued (p : Phase) : bool :=
  match p with Queued => true | _ => false end.

(** The wrapper with its queue: the tasks in the order of their submission. *)
Record QState (S : Type) : Type := mkQ {
  conn : Conn S;
  tasks : list (Task S * Phase)
}.
Arguments mkQ {S} _ _.
Arguments conn {S} _.
Arguments tasks {S} _.

(** What can happen next: a caller submits a task, the queue starts task
    [k], the read phase of task [k] completes, the request of task [k]
    completes, or code outside the queue acts on the store. *)
Inductive Event (S : Type) : Type :=
  | Enqueue (t : Task S)
  | Start (k : nat)
  | ReadDone (k : nat)
  | WriteDone (k : nat)
  | Outside (f : Conn S -> Conn S).
Arguments Enqueue {S} _.
Arguments Start {S} _.
Arguments ReadDone {S} _.
Arguments WriteDone {S} _.
Arguments Outside {S} _.

Section Queue.

Context {S : Type}.
Context (net : Request -> S -> XhrResult * S).

Definition phases (q : QState S) : list Phase := map snd (tasks q).

Definition setPhase (q : QState S) (c : Conn S) (k : nat) (p : Phase) : QState S :=
  mkQ c (alter (fun tp => (fst tp, p)) k (tasks q)).

(** Modelled from the spec: [utils/PromiseQueue.js] is not part of the
    sources at hand.  [fetch] chains the task behind the tasks submitted
    before it: the task is started once each of them has settled, whether it
    succeeded or failed (spec 4.1).  Everything else is the thunk of
    [queueWriteRequest]: the read phase runs [getBodyFn], the request is
    made with the body it returned, and a failed read settles the task
    without a request. *)
Definition step (q : QState S) (e : Event S) : option (QState S) :=
  match e with
  | Enqueue t => Some (mkQ (conn q) (tasks q ++ [(t, Queued)]))
  | Outside f => Some (mkQ (f (conn q)) (tasks q))
  | Start k =>
      match tasks q !! k with
      | Some (t, Queued) =>
          if forallb settled (take k (phases q))
          then Some (setPhase q (conn q) k Reading)
          else None
      | _ => None
      end
  | ReadDone k =>
      match tasks q !! k with
      | Some (t, Reading) =>
          match getBodyFn t (conn q) with
          | (Ok result, c) => Some (setPhase q c k (Writing result))
          | (Err e, c) => Some (setPhase q c k (Settled (Err e)))
          end
      | _ => None
      end
  | WriteDone k =>
      match tasks q !! k with
      | Some (t, Writing result) =>
          let '(r, c) := _makeRequest net (verb t) (uri t) (Some result) (conn q) in
          Some (setPhase q c k (Settled r))
      | _ => None
      end
  end.

Fixpoint exec (q : QState S) (tr : list (Event S)) : option (QState S) :=
  match tr with
  | [] => Some q
  | e :: tr' =>
      match step q e with
      | Some q' => exec q' tr'
      | None => None
      end
  end.

Definition init (c : Conn S) : QState S := mkQ c [].

(** The tasks whose request was made, in the order the requests were made. *)
Fixpoint commits (tr : list (Event S)) : list nat :=
  match tr with
  | [] => []
  | WriteDone k :: tr' => k :: commits tr'
  | _ :: tr' => commits tr'
  end.

End Queue.

End PromiseQueue.

(* ================================================================== *)
(** ** Notions the statements use *)
(* ================================================================== *)

(** The request that [_makeRequest] hands to the XMLHttpRequest. *)
Definition requestOf {S} (c : Conn S) (verb : string) (uri : Uri) (body : option JVal)
  : Request :=
  mkRequest verb uri
    (match body with
     | Some _ => [("Content-Type", JStr "application/json;charset=UTF-8");
                  ("Authorization", _token c)]
     | None => []
     end)
    body.

(** The credential test of line 30. *)
Definition permitted {S} (c : Conn S) (verb : string) : bool :=
  String.eqb verb "GET" || truthy (_token c).

(** The body of the request that was made last. *)
Definition writtenBody {S} (c : Conn S) : option JVal :=
  match last (requests c) with
  | Some rq => rq_body rq
  | None => None
  end.

(** The connection after some more requests. *)
Definition logged {S} (c : Conn S) (rqs : list Request) : Conn S :=
  mkConn (_token c) (server c) (requests c ++ rqs).

(** The connection with another state of the store. *)
Definition stored {S} (c : Conn S) (s : S) (rqs : list Request) : Conn S :=
  mkConn (_token c) s (requests c ++ rqs).

(** The requests that are not reads. *)
Definition posts {S} (c : Conn S) : list Request :=
  filter (fun rq => String.eqb (rq_verb rq) "GET" = false) (requests c).

(** An operation that leaves the store and the token as they are. *)
Definition readonly {S A} (m : Async (Conn S) A) : Prop :=
  forall c, server (snd (m c)) = server c
            /\ _token (snd (m c)) = _token c
            /\ posts (snd (m c)) = posts c.

(** The profile the store holds for a user, [null] when it holds none. *)
Definition profileOf (user : string) (c : Conn KlerosStore.Store) : JVal :=
  default JNull (KlerosStore.profiles (server c) !! user).


(** The dispute record of the store for a key, [null] when it holds none. *)
Definition disputeRecord (arbitrator : string) (disputeId : Z) (c : Conn KlerosStore.Store)
  : JVal :=
  default JNull (KlerosStore.disputes (server c) !! (arbitrator, disputeId)).

(** The record the store holds for the dispute of an event. *)
Definition recordOf (env : Disputes.Env) (event : Disputes.Event)
    (c : Conn KlerosStore.Store) : JVal :=
  disputeRecord (Arbitrator.getContractAddress (Disputes._ArbitratorInstance env))
    (Disputes._disputeID event) c.

(** The draws the store holds for a round (line 324). *)
Definition storedDraws (sd : Disputes.StoreData) (appeal : Z) : list JVal :=
  let d := index (Disputes.sd_appealDraws sd) appeal in
  if truthy d then elems d else [].

(** Every task that has left the queue has all the tasks submitted before
    it settled. *)
Definition ordered (ps : list PromiseQueue.Phase) : Prop :=
  forall j k p, (j < k)%nat -> ps !! k = Some p -> PromiseQueue.queued p = false ->
    exists r, ps !! j = Some (PromiseQueue.Settled r).

(** Every task whose request was made is settled. *)
Definition committed {S} (tr : list (PromiseQueue.Event S)) (ps : list PromiseQueue.Phase)
  : Prop :=
  forall k, In k (PromiseQueue.commits tr) -> exists r, ps !! k = Some (PromiseQueue.Settled r).

(** The invariant of the queue along a run. *)
Definition queueInv {S} (tr : list (PromiseQueue.Event S)) (q : PromiseQueue.QState S)
  : Prop :=
  ordered (PromiseQueue.phases q)
  /\ committed tr (PromiseQueue.phases q)
  /\ StronglySorted lt (PromiseQueue.commits tr).

(* ================================================================== *)
(** ** Stores and ledgers of the examples *)
(* ================================================================== *)

(** A store that holds nothing, reached without a token and with one. *)
Definition emptyStore : KlerosStore.Store := KlerosStore.mkStore ∅ ∅.

Definition anonymous (s : KlerosStore.Store) : Conn KlerosStore.Store :=
  mkConn JUndef s [].

Definition signedIn (s : KlerosStore.Store) : Conn KlerosStore.Store :=
  mkConn (JStr "0xsigned") s [].

(** A store that answers every request with 401 and an [error] field. *)
Definition expired (rq : Request) (s : unit) : XhrResult * unit :=
  (XhrDone 401 (Some (JObj (<["error" := JStr "expired"]> ∅))), s).

(** A store in which user 0xA has a profile that tracks dispute 5 of
    arbitrator 0xK. *)
Definition trackedDispute : gmap string JVal :=
  <["_id" := JStr "d1"]>
  (<["disputeId" := JNum 5]>
   (<["arbitratorAddress" := JStr "0xK"]>
    (<["netPNK" := JNum 0]> ∅))).

Definition jurorProfile : gmap string JVal :=
  <["_id" := JStr "p1"]>
  (<["address" := JStr "0xA"]>
   (<["session" := JNum 3]>
    (<["disputes" := JArr [JObj trackedDispute]]> ∅))).

Definition jurorStore : KlerosStore.Store :=
  KlerosStore.mkStore (<["0xA" := JObj jurorProfile]> ∅) ∅.

(** The store of [jurorStore] once the draws of 0xA in dispute 5 are known:
    slot 1 in round 0, slots 2 and 3 in round 1. *)
Definition drawnStore : KlerosStore.Store :=
  KlerosStore.mkStore (KlerosStore.profiles jurorStore)
    (<[("0xK", 5) :=
         JObj (<["appealDraws" := JArr [JArr [JNum 1]; JArr [JNum 2; JNum 3]]]> ∅)]> ∅).

(** Dispute 5 of arbitrator 0xK, over the contract 0xC between 0xA and 0xB;
    every other index is out of range.  The deadline of the open dispute
    depends on the round, and block [b] has timestamp [10 * b]. *)
Definition ledger (firstSession n state period session : Z) : Arbitrator.t :=
  Arbitrator.mk "0xK"
    (fun disputeId =>
       if disputeId =? 5
       then Ok (Arbitrator.mkDispute "0xC" firstSession n state (JNum 0) 2 [])
       else Err CHAIN_READ_FAILED)
    (Ok period)
    (Ok session)
    (fun _ _ => Ok (JNum 1))
    (fun _ _ _ => Ok true)
    (Ok [5])
    (Ok (1000 + n))
    (fun b => Ok (10 * b)).

Definition contracts : Arbitrable.t :=
  Arbitrable.mk
    (fun _ => Ok (Arbitrable.mkData "0xA" "0xB" (JNum 0)))
    (fun _ => Ok (JArr [])).

Definition world (firstSession n state period session : Z) : Disputes.Env :=
  Disputes.mkEnv Disputes.kleros_constants (ledger firstSession n state period session)
    contracts.

(** A ledger with dispute 0 (of session 3, in which 0xJ holds draw 2),
    dispute 1 (of session 2, in which 0xJ holds draw 1), dispute 2 (of
    session 3, in which 0xJ holds no draw) and the null address at index 3;
    the scan is made in session 3.  Each dispute has three jurors. *)
Definition scannedLedger : AbstractDisputes.ArbitratorWrapper :=
  AbstractDisputes.mkArbitrator
    (fun _ _ => Ok (AbstractDisputes.mkArbitratorData 3 2))
    (fun _ disputeId =>
       if disputeId =? 0 then Ok (AbstractDisputes.mkDispute "0xC0" 3 0)
       else if disputeId =? 1 then Ok (AbstractDisputes.mkDispute "0xC1" 1 1)
       else if disputeId =? 2 then Ok (AbstractDisputes.mkDispute "0xC2" 2 1)
       else if disputeId =? 3 then Ok (AbstractDisputes.mkDispute "0x" 0 0)
       else Err CHAIN_READ_FAILED)
    (fun _ _ => Ok 3)
    (fun disputeId draw _ _ =>
       Ok ((disputeId =? 0) && (draw =? 2) || (disputeId =? 1) && (draw =? 1))).

(** The task that [updateUserProfile] gives to the queue. *)
Definition profileTask (user : string) (params : gmap string JVal)
  : PromiseQueue.Task KlerosStore.Store :=
  PromiseQueue.mkTask
    (let* fetched := getUserProfile KlerosStore.serve user in
     ret (JObj (userProfileBody user params fetched)))
    "POST" (UriProfile user).

(** Two updates of the profile of 0xA, submitted one after the other and
    run by the queue. *)
Definition twoUpdates : list (PromiseQueue.Event KlerosStore.Store) :=
  [PromiseQueue.Enqueue (profileTask "0xA" (<["session" := JNum 4]> ∅));
   PromiseQueue.Enqueue (profileTask "0xA" (<["lastBlock" := JNum 9]> ∅));
   PromiseQueue.Start 0; PromiseQueue.ReadDone 0; PromiseQueue.WriteDone 0;
   PromiseQueue.Start 1; PromiseQueue.ReadDone 1; PromiseQueue.WriteDone 1].

(* ================================================================== *)
(** ** src/utils/StoreProviderWrapper.js: tokens, evidence, notifications *)
(* ================================================================== *)

Module StoreProviderOps.

(** [try { ... await m ... } catch (err) { h }] around an awaited promise: a
    rejection reaches the [catch]; a promise that never settles reaches
    nothing. *)
Definition try_await {St A} (m : Async St A) (h : Error -> Async St A) : Async St A :=
  fun s => match m s with
           | (Ok a, s') => (Ok a, s')
           | (Err NEVER_SETTLES, s') => (Err NEVER_SETTLES, s')
           | (Err e, s') => h e s'
           end.

(** A parameter with a default value, [(x = d) => ...]: the default is
    taken when the argument is [undefined]. *)
Definition or_default (d v : JVal) : JVal :=
  match v with
  | JUndef => d
  | _ => v
  end.

(** [notification.txHash === txHash && notification.logIndex === logIndex]:
    reading a field of an element that is [null] or [undefined] throws
    ([None]). *)
Definition is_notification (txHash : string) (logIndex : Z) (notification : JVal)
  : option bool :=
  match prop notification "txHash", prop notification "logIndex" with
  | Some t, Some i => Some (strict_eq t (JStr txHash) && strict_eq i (JNum logIndex))
  | _, _ => None
  end.

(** [_.findIndex(l, p)] for a predicate that may throw: the predicate is
    called on the elements in order, up to the first match. *)
Fixpoint findIndexT (p : JVal -> option bool) (l : list JVal) : option Z :=
  match l with
  | [] => Some (-1)
  | x :: l' =>
      match p x with
      | None => None
      | Some true => Some 0
      | Some false =>
          match findIndexT p l' with
          | None => None
          | Some i => Some (if i <? 0 then -1 else i + 1)
          end
      end
  end.

(** The fields of the body [markNotificationAsRead] writes: lines 451-454,
    the last of which is [JSON.stringify(userProfile)]. *)
Definition readProfileBody (userProfile : gmap string JVal) (notifications : list JVal)
    (notificationIndex : nat) (notification : gmap string JVal) (isRead : JVal)
  : gmap string JVal :=
  let notifications :=
    <[notificationIndex := JObj (<["read" := isRead]> notification)]> notifications in
  let userProfile := <["notifications" := JArr notifications]> userProfile in
  let userProfile := delete "_id" userProfile in
  written (delete "created_at" userProfile).

Section Ops.

Context {S : Type}.
Context (net : Request -> S -> XhrResult * S).

(** [newAuthToken]: lines 108-115. *)
Definition newAuthToken (userAddress : string) : Async (Conn S) JVal :=
  let* newTokenResponse := _makeRequest net "GET" (UriAuthToken userAddress) None in
  ret (body newTokenResponse).

(** [isTokenValid]: lines 123-138.  The body sent is [JSON.stringify({})]. *)
Definition isTokenValid (userAddress : string) (token : JVal) : Async (Conn S) bool :=
  let* _ := (if truthy token then setAuthToken token else ret tt) in
  try_await
    (let* response := _makeRequest net "POST" (UriAuthVerify userAddress) (Some (JObj ∅)) in
     ret (status response =? 201))
    (fun _ => ret false).

(** [getLastBlock]: lines 213-217.  [userProfile.lastBlock] is read without
    a check of [userProfile]. *)
Definition getLastBlock (userAddress : string) : Async (Conn S) JVal :=
  let* userProfile := getUserProfile net userAddress in
  match prop userProfile "lastBlock" with
  | None => throw TYPE_ERROR
  | Some lastBlock => ret (if truthy lastBlock then lastBlock else JNum 0)
  end.

(** [addEvidenceContract]: lines 312-339.  [submittedAt] is the reading of
    the clock, [new Date().getTime()], when the call is made; the body is the
    [JSON.stringify] of the four fields. *)
Definition addEvidenceContract (submittedAt : Z) (contractAddress userAddress : string)
    (name description url : JVal) : Async (Conn S) Response :=
  let getBodyFn :=
    ret (JObj (written
                 (<["name" := name]>
                  (<["description" := description]>
                   (<["url" := url]>
                    (<["submittedAt" := JNum submittedAt]> ∅)))))) in
  queueWriteRequest net getBodyFn "POST" (UriEvidence userAddress contractAddress).

(** [newNotification]: lines 394-421, with the defaults of its last three
    parameters. *)
Definition newNotification (userAddress txHash : string) (logIndex notificationType : JVal)
    (message data read : JVal) : Async (Conn S) Response :=
  let message := or_default (JStr "") message in
  let data := or_default (JObj ∅) data in
  let read := or_default (JBool false) read in
  let getBodyFn :=
    ret (JObj (written
                 (<["notificationType" := notificationType]>
                  (<["logIndex" := logIndex]>
                   (<["read" := read]>
                    (<["message" := message]>
                     (<["data" := data]> ∅))))))) in
  queueWriteRequest net getBodyFn "POST" (UriNotification userAddress txHash).

(** [markNotificationAsRead]: lines 431-460.  [_.findIndex] answers -1 when
    nothing matches, never [null]: the test of line 448 lets every index
    through, and line 451 then reads [notifications[-1]], which is
    [undefined], and throws on setting its [read].  The notifications of a
    profile are an array in the store; a profile without the field makes
    [undefined[-1]] throw. *)
Definition markNotificationAsRead (userAddress txHash : string) (logIndex : Z)
    (isRead : JVal) : Async (Conn S) Response :=
  let isRead := or_default (JBool true) isRead in
  let getBodyFn :=
    let* userProfile := getUserProfile net userAddress in
    match prop userProfile "notifications" with
    | None => throw TYPE_ERROR
    | Some notifications =>
        match findIndexT (is_notification txHash logIndex) (elems notifications) with
        | None => throw TYPE_ERROR
        | Some notificationIndex =>
            match notifications, index (elems notifications) notificationIndex with
            | JArr l, JObj notification =>
                ret (JObj (readProfileBody (spread userProfile) l
                             (Z.to_nat notificationIndex) notification isRead))
            | _, _ => throw TYPE_ERROR
            end
        end
    end in
  queueWriteRequest net getBodyFn "POST" (UriProfile userAddress).

End Ops.

End StoreProviderOps.

(* ================================================================== *)
(** ** src/unnamed/part_001: the token-shift handler of the older resource *)
(* ================================================================== *)

Module OlderDisputes.

Section Resource.

Context {S : Type}.
Context (net : Request -> S -> XhrResult * S).
Context (env : Disputes.Env).

(** [_tokenShiftHandler]: lines 83-110.  The profile is read with
    [getUserProfile]; [userProfile.disputes] is read without a check of
    [userProfile]. *)
Definition _tokenShiftHandler (event : Disputes.Event) (address : string)
  : Async (Conn S) unit :=
  let disputeId := Disputes._disputeID event in
  let account := Disputes._account event in
  let amountShift := Disputes._amount event in
  if String.eqb account address then
    let* userProfile := getUserProfile net address in
    let contractAddress := Arbitrator.getContractAddress (Disputes._ArbitratorInstance env) in
    match prop userProfile "disputes" with
    | None => throw TYPE_ERROR
    | Some stored =>
        let disputes := elems stored in
        let disputeIndex :=
          findIndex
            (fun dispute =>
               strict_eq (field dispute "disputeId") (JNum disputeId)
               && strict_eq (field dispute "arbitratorAddress") (JStr contractAddress))
            disputes in
        if disputeIndex <? 0 then ret tt
        else
          let dispute := index disputes disputeIndex in
          match field dispute "arbitratorAddress", field dispute "disputeId" with
          | JStr a, JNum i =>
              let* _ :=
                updateDisputeProfile net address a i
                  (<["netPNK" := Disputes.shifted (field dispute "netPNK") amountShift]> ∅) in
              ret tt
          | _, _ => throw TYPE_ERROR
          end
    end
  else ret tt.

End Resource.

End OlderDisputes.

(* ================================================================== *)
(** ** src/abstractWrappers/Disputes.js: the reads of the store *)
(* ================================================================== *)

Module AbstractDisputesStore.

(** What [this._ArbitrableContract.getData] returns, as far as the reads
    below use it. *)
Record ArbitrableData : Type := mkArbitrableData {
  partyA : string;
  partyB : string
}.

(** The arbitrable contract wrapper ([this._ArbitrableContract]). *)
Record ArbitrableWrapper : Type := mkArbitrable {
  getData : string -> Result ArbitrableData
}.

(** [_.filter(l, p)] for a predicate that may throw. *)
Fixpoint filterT (p : JVal -> option bool) (l : list JVal) : option (list JVal) :=
  match l with
  | [] => Some []
  | x :: l' =>
      match p x with
      | None => None
      | Some b =>
          match filterT p l' with
          | None => None
          | Some r => Some (if b then x :: r else r)
          end
      end
  end.

(** [dispute.hash === arbitrableContractAddress]. *)
Definition has_hash (arbitrableContractAddress : string) (dispute : JVal) : option bool :=
  match prop dispute "hash" with
  | Some h => Some (strict_eq h (JStr arbitrableContractAddress))
  | None => None
  end.

(** [contractData ? contractData.evidences : []]. *)
Definition evidencesOf (contractData : JVal) : JVal :=
  if truthy contractData then field contractData "evidences" else JArr [].

Section Store.

Context {S : Type}.
Context (net : Request -> S -> XhrResult * S).

(** [getUserDisputeFromStore]: lines 362-376. *)
Definition getUserDisputeFromStore (arbitrableContractAddress account : string)
  : Async (Conn S) JVal :=
  let* userProfile := getUserProfile net account in
  match prop userProfile "disputes" with
  | None => throw TYPE_ERROR
  | Some disputes =>
      match filterT (has_hash arbitrableContractAddress) (elems disputes) with
      | None => throw TYPE_ERROR
      | Some [] =>
          throw (UNABLE (String.append "User "
                           (String.append account " does not have store data for dispute")))
      | Some (dispute :: _) => ret dispute
      end
  end.

(** [getEvidenceForArbitrableContract]: lines 384-403.  The evidences of a
    stored contract are an array; [a.concat(b)] appends the elements of an
    array [b] and a [b] of another kind as one element, and throws when [a]
    is [undefined]. *)
Definition getEvidenceForArbitrableContract (_ArbitrableContract : option ArbitrableWrapper)
    (arbitrableContractAddress : string) : Async (Conn S) JVal :=
  match _ArbitrableContract with
  | None =>
      throw (UNABLE "No Arbitrable Contract Wrapper specified. Please call setArbitrable")
  | Some B =>
      let* arbitrableContractData := lift (getData B arbitrableContractAddress) in
      let* partyAContractData :=
        getContractByAddress net (partyA arbitrableContractData) arbitrableContractAddress in
      let* partyBContractData :=
        getContractByAddress net (partyB arbitrableContractData) arbitrableContractAddress in
      let partyAEvidence := evidencesOf partyAContractData in
      let partyBEvidence := evidencesOf partyBContractData in
      match partyAEvidence with
      | JArr la =>
          ret (JArr (la ++ match partyBEvidence with
                           | JArr lb => lb
                           | v => [v]
                           end))
      | _ => throw TYPE_ERROR
      end
  end.

End Store.

End AbstractDisputesStore.

(** The requests that address the resources of one user. *)
Definition addresses (user : string) (rq : Request) : bool :=
  match rq_uri rq with
  | UriProfile u | UriAuthToken u | UriAuthVerify u => String.eqb u user
  | UriContract u _ | UriEvidence u _ | UriNotification u _ => String.eqb u user
  | UriDisputeProfile u _ _ => String.eqb u user
  | UriDispute _ _ => false
  end.

(** The connection once [isTokenValid] has been offered a token. *)
Definition offered {S} (c : Conn S) (token : JVal) : Conn S :=
  if truthy token then mkConn token (server c) (requests c) else c.

(** From [c] to [c'] some requests were made, each of them with [P]. *)
Definition sends {S} (P : Request -> bool) (c c' : Conn S) : Prop :=
  exists rqs, requests c' = requests c ++ rqs /\ Forall (fun rq => P rq = true) rqs.

(** A store that answers every request with a status and a body. *)
Definition answering (status : Z) (body : option JVal) (rq : Request) (s : unit)
  : XhrResult * unit :=
  (XhrDone status body, s).

(** A store that keeps for user 0xN a profile with two notifications. *)
Definition firstNotice : gmap string JVal :=
  <["txHash" := JStr "0xt1"]> (<["logIndex" := JNum 0]> (<["read" := JBool false]> ∅)).

Definition secondNotice : gmap string JVal :=
  <["txHash" := JStr "0xt2"]> (<["logIndex" := JNum 3]> (<["read" := JBool false]> ∅)).

Definition noticeProfile : gmap string JVal :=
  <["_id" := JStr "p2"]>
  (<["address" := JStr "0xN"]>
   (<["notifications" := JArr [JObj firstNotice; JObj secondNotice]]> ∅)).

Definition noticeStore : KlerosStore.Store :=
  KlerosStore.mkStore (<["0xN" := JObj noticeProfile]> ∅) ∅.

(** A ledger on which the read of draw 2 of any dispute throws. *)
Definition brokenLedger : AbstractDisputes.ArbitratorWrapper :=
  AbstractDisputes.mkArbitrator
    (fun _ _ => Ok (AbstractDisputes.mkArbitratorData 3 2))
    (fun _ _ => Err CHAIN_READ_FAILED)
    (fun _ _ => Ok 3)
    (fun _ draw _ _ => if draw =? 2 then Err CHAIN_READ_FAILED else Ok true).

(** A store in which 0xA keeps the contract 0xC with two pieces of evidence
    and a dispute on it, and 0xB has a profile without the contract. *)
Definition partyAProfile : gmap string JVal :=
  <["address" := JStr "0xA"]>
  (<["contracts" :=
       JArr [JObj (<["address" := JStr "0xC"]>
                   (<["evidences" := JArr [JStr "e1"; JStr "e2"]]> ∅))]]>
   (<["disputes" :=
        JArr [JObj (<["hash" := JStr "0xD"]> ∅);
              JObj (<["hash" := JStr "0xC"]> (<["votes" := JArr [JNum 1]]> ∅))]]> ∅)).

Definition evidenceStore : KlerosStore.Store :=
  KlerosStore.mkStore
    (<["0xA" := JObj partyAProfile]> (<["0xB" := JObj (<["address" := JStr "0xB"]> ∅)]> ∅))
    ∅.

Definition parties : AbstractDisputesStore.ArbitrableWrapper :=
  AbstractDisputesStore.mkArbitrable
    (fun _ => Ok (AbstractDisputesStore.mkArbitrableData "0xA" "0xB")).

Definition strangers : AbstractDisputesStore.ArbitrableWrapper :=
  AbstractDisputesStore.mkArbitrable
    (fun _ => Ok (AbstractDisputesStore.mkArbitrableData "0xA" "0xZ")).

(* ================================================================== *)
(** * Properties *)
(* ================================================================== *)

(** ** The transport: [_makeRequest] *)

Section TransportFacts.

Context {S : Type}.
Context (net : Request -> S -> XhrResult * S).

Lemma makeRequest_refused verb uri body (c : Conn S) :
  permitted c verb = false ->
  _makeRequest net verb uri body c = (Err NO_AUTH_TOKEN, c).
Proof.
  unfold permitted, _makeRequest. intros H.
  apply orb_false_iff in H as [-> ->]. reflexivity.
Qed.

Lemma makeRequest_sent verb uri body (c : Conn S) :
  permitted c verb = true ->
  snd (_makeRequest net verb uri body c)
  = mkConn (_token c) (snd (net (requestOf c verb uri body) (server c)))
      (requests c ++ [requestOf c verb uri body]).
Proof.
  unfold permitted, _makeRequest. intros H.
  replace (negb (String.eqb verb "GET") && negb (truthy (_token c))) with false
    by (destruct (String.eqb verb "GET"), (truthy (_token c)); simpl in *; congruence).
  fold (requestOf c verb uri body).
  destruct (net (requestOf c verb uri body) (server c)) as [x s'] eqn:E. simpl.
  destruct x as [err|st text]; [reflexivity|].
  destruct (st =? 401); [|reflexivity].
  destruct (prop (default JNull text) "error"); reflexivity.
Qed.

Lemma makeRequest_outcome verb uri body (c : Conn S) :
  permitted c verb = true ->
  fst (_makeRequest net verb uri body c)
  = match fst (net (requestOf c verb uri body) (server c)) with
    | XhrThrows err => Err (REQUEST_FAILED err)
    | XhrDone st text =>
        if st =? 401 then
          match prop (default JNull text) "error" with
          | Some msg => Err (INVALID_AUTH_TOKEN msg)
          | None => Err NEVER_SETTLES
          end
        else Ok (mkResponse (default JNull text) st)
    end.
Proof.
  unfold permitted, _makeRequest. intros H.
  replace (negb (String.eqb verb "GET") && negb (truthy (_token c))) with false
    by (destruct (String.eqb verb "GET"), (truthy (_token c)); simpl in *; congruence).
  fold (requestOf c verb uri body).
  destruct (net (requestOf c verb uri body) (server c)) as [x s'] eqn:E. simpl.
  destruct x as [err|st text]; [reflexivity|].
  destruct (st =? 401); [|reflexivity].
  destruct (prop (default JNull text) "error"); reflexivity.
Qed.

Lemma makeRequest_token verb uri body (c : Conn S) :
  _token (snd (_makeRequest net verb uri body c)) = _token c.
Proof.
  destruct (permitted c verb) eqn:E.
  - rewrite makeRequest_sent by done. reflexivity.
  - rewrite makeRequest_refused by done. reflexivity.
Qed.


(** C9, as amended: a [GET] is sent whatever the token; another verb without
    a token fails with the auth error and leaves the connection as it was,
    nothing being handed to the network; a 401 response whose body carries
    an [error] field is rejected with [INVALID_AUTH_TOKEN]; a response with
    any other status, 2xx or not, resolves with its body and status; and
    [REQUEST_FAILED] is the rejection exactly when [open] or [send] throws. *)
Theorem C9_makeRequest_outcomes verb uri body (c : Conn S) :
  let out := _makeRequest net verb uri body c in
  let rq := requestOf c verb uri body in
  (verb = "GET" -> requests (snd out) = requests c ++ [rq])
  /\ (verb <> "GET" -> truthy (_token c) = false -> out = (Err NO_AUTH_TOKEN, c))
  /\ (permitted c verb = true ->
      (forall text msg,
          fst (net rq (server c)) = XhrDone 401 text ->
          prop (default JNull text) "error" = Some msg ->
          fst out = Err (INVALID_AUTH_TOKEN msg))
      /\ (forall st text,
          fst (net rq (server c)) = XhrDone st text -> st <> 401 ->
          fst out = Ok (mkResponse (default JNull text) st))
      /\ (forall err,
          fst out = Err (REQUEST_FAILED err) <-> fst (net rq (server c)) = XhrThrows err)).
Proof.
  cbv zeta. split; [|split].
  - intros ->. rewrite makeRequest_sent by reflexivity. reflexivity.
  - intros Hv Ht. apply makeRequest_refused. unfold permitted. rewrite Ht.
    destruct (String.eqb_spec verb "GET"); [contradiction|reflexivity].
  - intros Hp. rewrite (makeRequest_outcome _ _ _ _ Hp).
    split; [|split].
    + intros text msg -> ->. reflexivity.
    + intros st text -> Hst. apply Z.eqb_neq in Hst. rewrite Hst. reflexivity.
    + intros err. destruct (fst (net (requestOf c verb uri body) (server c))) as [e|st text].
      * split; congruence.
      * split; [|discriminate].
        destruct (st =? 401); [|discriminate].
        destruct (prop (default JNull text) "error"); discriminate.
Qed.

End TransportFacts.

(** C9, as stated, fails: the store answers a [GET] of a path it does not
    serve with status 404, and [_makeRequest] resolves with that status
    instead of rejecting with [REQUEST_FAILED]. *)
Lemma C9_counterexample_404_resolves :
  fst (_makeRequest KlerosStore.serve "GET" (UriContract "0xA" "0xC") None
         (anonymous emptyStore))
  = Ok (mkResponse JNull 404).
Proof. reflexivity. Qed.

(** A [POST] without a token, a [GET] without a token, and a [GET] that
    the store answers with 401 and an [error] field. *)
Lemma C9_witness :
  _makeRequest KlerosStore.serve "POST" (UriProfile "0xA") (Some (JObj ∅))
    (anonymous emptyStore)
  = (Err NO_AUTH_TOKEN, anonymous emptyStore)
  /\ requests (snd (_makeRequest KlerosStore.serve "GET" (UriProfile "0xA") None
                      (anonymous emptyStore)))
     = [mkRequest "GET" (UriProfile "0xA") [] None]
  /\ fst (_makeRequest expired "GET" (UriProfile "0xA") None (mkConn (JStr "0xold") tt []))
     = Err (INVALID_AUTH_TOKEN (JStr "expired")).
Proof.
  split; [|split].
  - apply (C9_makeRequest_outcomes KlerosStore.serve "POST" (UriProfile "0xA")
             (Some (JObj ∅)) (anonymous emptyStore)); [discriminate | reflexivity].
  - apply (C9_makeRequest_outcomes KlerosStore.serve "GET" (UriProfile "0xA")
             None (anonymous emptyStore)). reflexivity.
  - apply (proj1 (proj2 (proj2 (C9_makeRequest_outcomes expired "GET" (UriProfile "0xA")
                                  None (mkConn (JStr "0xold") tt []))) eq_refl)
             (Some (JObj (<["error" := JStr "expired"]> ∅))) (JStr "expired"));
      reflexivity.
Defined.

(** ** The store wrapper: reads *)

Section ReadFacts.

Context {S : Type}.
Context (net : Request -> S -> XhrResult * S).

(** C10: when the store holds no profile for a user (the profile read
    yields a falsy body, [null]), [getDisputes] returns the empty list, while
    [getContractByAddress] and [getDisputeDataForUser] throw
    [PROFILE_NOT_FOUND]. *)
Theorem C10_missing_profile user contract arbitrator disputeId (c : Conn S) profile :
  fst (getUserProfile net user c) = Ok profile ->
  truthy profile = false ->
  fst (getDisputes net user c) = Ok (JArr [])
  /\ fst (getContractByAddress net user contract c) = Err (PROFILE_NOT_FOUND user)
  /\ fst (getDisputeDataForUser net user arbitrator disputeId c) = Err (PROFILE_NOT_FOUND user).
Proof.
  intros Hget Hfalsy.
  unfold getDisputes, getContractByAddress, getDisputeDataForUser, bind.
  destruct (getUserProfile net user c) as [[p|e] c'] eqn:E; simpl in Hget; [|discriminate].
  injection Hget as ->. rewrite Hfalsy. simpl. auto.
Qed.

End ReadFacts.

(** The three reads for 0xA on a store that holds nothing. *)
Lemma C10_witness :
  fst (getDisputes KlerosStore.serve "0xA" (anonymous emptyStore)) = Ok (JArr [])
  /\ fst (getContractByAddress KlerosStore.serve "0xA" "0xC" (anonymous emptyStore))
     = Err (PROFILE_NOT_FOUND "0xA")
  /\ fst (getDisputeDataForUser KlerosStore.serve "0xA" "0xK" 5 (anonymous emptyStore))
     = Err (PROFILE_NOT_FOUND "0xA").
Proof.
  apply (C10_missing_profile KlerosStore.serve "0xA" "0xC" "0xK" 5
           (anonymous emptyStore) JNull); reflexivity.
Defined.

(** ** The store wrapper: updates *)

Section UpdateFacts.

Context {S : Type}.
Context (net : Request -> S -> XhrResult * S).



Lemma lookup_written (m : gmap string JVal) k :
  written m !! k
  = match m !! k with
    | Some JUndef | None => None
    | Some x => Some (stringify x)
    end.
Proof.
  unfold written. rewrite lookup_omap. destruct (m !! k) as [[]|]; reflexivity.
Qed.

Lemma get_written (m : gmap string JVal) k : get (written m) k = stringify (get m k).
Proof.
  unfold get. rewrite lookup_written. destruct (m !! k) as [[]|]; reflexivity.
Qed.










Lemma strict_eq_str v s : strict_eq v (JStr s) = true -> v = JStr s.
Proof.
  destruct v; simpl; try discriminate. intros H. apply String.eqb_eq in H. congruence.
Qed.

Lemma strict_eq_num v z : strict_eq v (JNum z) = true -> v = JNum z.
Proof.
  destruct v; simpl; try discriminate. intros H. apply Z.eqb_eq in H. congruence.
Qed.

Lemma is_dispute_fields arbitrator disputeId o :
  is_dispute arbitrator disputeId o = true ->
  field o "arbitratorAddress" = JStr arbitrator /\ field o "disputeId" = JNum disputeId.
Proof.
  unfold is_dispute. intros H. apply andb_true_iff in H as [H1 H2].
  split; [apply strict_eq_str | apply strict_eq_num]; assumption.
Qed.



End UpdateFacts.



(** ** Numbers *)

Section NumberFacts.

Lemma round_exact x : Z.abs x <= 2 ^ 53 -> Double.round x = x.
Proof.
  intros H. unfold Double.round. cbv zeta.
  destruct (Z.leb_spec (Z.abs x) (2 ^ 53)) as [_|Hgt]; [reflexivity|lia].
Qed.

Lemma number_exact x : Z.abs x <= 2 ^ 53 -> Double.number x = JNum x.
Proof.
  intros H. unfold Double.number. cbv zeta. rewrite (round_exact x H).
  destruct (Z.ltb_spec (Z.abs x) (2 ^ 1024)) as [_|Hge]; [reflexivity|].
  assert (2 ^ 53 < 2 ^ 1024) by (apply Z.pow_lt_mono_r; lia). lia.
Qed.


Lemma mul_exact x y :
  Z.abs x <= 2 ^ 53 -> Z.abs y <= 2 ^ 53 -> Z.abs (x * y) <= 2 ^ 53 ->
  Double.mul x y = JNum (x * y).
Proof.
  intros Hx Hy Hs. unfold Double.mul.
  rewrite (round_exact x Hx), (round_exact y Hy). apply number_exact. exact Hs.
Qed.

Lemma mul_0_l y : Double.mul 0 y = JNum 0.
Proof.
  unfold Double.mul. rewrite (round_exact 0) by (simpl; lia).
  rewrite Z.mul_0_l. apply number_exact. simpl. lia.
Qed.


End NumberFacts.

(** ** The merged view: [getDataForDispute] *)

Section RoundFacts.

Import Disputes.

Lemma mapM_length {A B} (f : A -> Result B) l ys :
  mapM f l = Ok ys -> length ys = length l.
Proof.
  revert ys. induction l as [|x l IH]; intros ys H; simpl in H.
  - injection H as <-. reflexivity.
  - destruct (f x) as [y|e]; [|discriminate].
    destruct (mapM f l) as [ys'|e]; [|discriminate].
    injection H as <-. simpl. f_equal. apply IH. reflexivity.
Qed.

Lemma mapM_lookup {A B} (f : A -> Result B) l ys (i : nat) x :
  mapM f l = Ok ys -> l !! i = Some x ->
  exists y, ys !! i = Some y /\ f x = Ok y.
Proof.
  revert ys i. induction l as [|a l IH]; intros ys i H Hx; [discriminate|].
  simpl in H. destruct (f a) as [y|e] eqn:Ea; [|discriminate].
  destruct (mapM f l) as [ys'|e]; [|discriminate].
  injection H as <-. destruct i as [|i]; simpl in *.
  - injection Hx as <-. eauto.
  - eapply IH; eauto.
Qed.

Lemma mapM_Forall {A B} (f : A -> Result B) (P : B -> Prop) l ys :
  mapM f l = Ok ys -> (forall x y, f x = Ok y -> P y) -> Forall P ys.
Proof.
  intros Hm HP. revert ys Hm. induction l as [|a l IH]; intros ys Hm; simpl in Hm.
  - injection Hm as <-. constructor.
  - destruct (f a) as [y|e] eqn:Ea; [|discriminate].
    destruct (mapM f l) as [ys'|e]; [|discriminate].
    injection Hm as <-. constructor; eauto.
Qed.


Lemma appeals_length n : length (appeals n) = Z.to_nat (n + 1).
Proof. unfold appeals. rewrite length_map, length_seq. reflexivity. Qed.

Lemma appeals_lookup n (r : nat) :
  Z.of_nat r <= n -> appeals n !! r = Some (Z.of_nat r).
Proof.
  intros H. unfold appeals. rewrite list_lookup_fmap.
  rewrite lookup_seq_lt by lia. reflexivity.
Qed.


Context (env : Env).
Let A := _ArbitratorInstance env.
Let K := constants env.

Lemma appealRound_spec (d : Arbitrator.DisputeRecord) period session sd disputeId account
    appeal j rho :
  appealRound env d period session sd disputeId account appeal = Ok (j, rho) ->
  let n := Arbitrator.numberOfAppeals d in
  let lastSession := Arbitrator.firstSession d + n in
  draws j = storedDraws sd appeal
  /\ fee j = Double.mul (Arbitrator.arbitrationFeePerJuror d) (Z.of_nat (length (draws j)))
  /\ createdAt j = index (sd_appealCreatedAt sd) appeal
  /\ deadline rho = index (sd_appealDeadlines sd) appeal
  /\ ruledAt rho = index (sd_appealRuledAt sd) appeal
  /\ Arbitrator.currentRulingForDispute A disputeId appeal = Ok (ruling rho)
  /\ voteCounter rho = index (Arbitrator.voteCounters d) appeal
  /\ (appeal <> n ->
      canRule j = JUndef /\ canRepartition rho = false /\ canExecute rho = false)
  /\ (appeal = n ->
      canRepartition rho
      = negb (session =? 0) && negb (period =? 0)
        && ((lastSession <=? session)
            && (period =? PERIOD_EXECUTE K)
            && (Arbitrator.state d =? STATE_OPEN K))
      /\ canExecute rho = (Arbitrator.state d =? STATE_EXECUTABLE K)
      /\ (draws j = [] -> canRule j = JUndef)
      /\ (draws j <> [] ->
          exists b, Arbitrator.canRuleDispute A disputeId (draws j) account = Ok b
                    /\ canRule j = JBool b)).
Proof.
  unfold appealRound. fold A K. fold (storedDraws sd appeal).
  destruct (Arbitrator.currentRulingForDispute A disputeId appeal) as [rl|e]; [|discriminate].
  intros H. cbv zeta.
  destruct (Z.eqb_spec (Arbitrator.firstSession d + appeal)
              (Arbitrator.firstSession d + Arbitrator.numberOfAppeals d)) as [Hl|Hl].
  - assert (appeal = Arbitrator.numberOfAppeals d) as Hn by lia.
    simpl in H.
    destruct (storedDraws sd appeal) as [|x xs] eqn:Ed; simpl in H.
    + injection H as <- <-. simpl.
      repeat split; try reflexivity; tauto.
    + destruct (Arbitrator.canRuleDispute A disputeId (x :: xs) account) as [b|e] eqn:Ec;
        [|discriminate].
      injection H as <- <-. simpl.
      repeat split; try reflexivity; try tauto; try discriminate.
      intros _. eauto.
  - assert (appeal <> Arbitrator.numberOfAppeals d) as Hn by lia.
    simpl in H. injection H as <- <-. simpl.
    repeat split; try reflexivity; tauto.
Qed.

End RoundFacts.

Section ViewFacts.

Import Disputes.

Context {S : Type}.
Context (net : Request -> S -> XhrResult * S).
Context (env : Env).
Let A := _ArbitratorInstance env.
Let B := _ArbitrableInstance env.

(** What a successful [getDataForDispute] went through. *)
Lemma getDataForDispute_inv disputeId account (c c' : Conn S) v :
  getDataForDispute net env disputeId account c = (Ok v, c') ->
  exists d period session acd ev csd c1 sd rounds,
    Arbitrator.getDispute A disputeId = Ok d
    /\ Arbitrator.getPeriod A = Ok period
    /\ Arbitrator.getSession A = Ok session
    /\ Arbitrable.getData B (Arbitrator.arbitrableContractAddress d) = Ok acd
    /\ Arbitrable.getEvidenceForArbitrableContract B (Arbitrator.arbitrableContractAddress d) = Ok ev
    /\ getContractByAddress net (Arbitrable.partyA acd) (Arbitrator.arbitrableContractAddress d) c
       = (Ok csd, c1)
    /\ storeDataFor net (Arbitrator.getContractAddress A) disputeId account c1 = (Ok sd, c')
    /\ mapM (appealRound env d period session sd disputeId account)
         (appeals (Arbitrator.numberOfAppeals d)) = Ok rounds
    /\ v = mergedView env disputeId d acd ev csd sd rounds.
Proof.
  unfold getDataForDispute, bind, lift. fold A B.
  destruct (Arbitrator.getDispute A disputeId) as [d|e] eqn:E1; [|discriminate].
  destruct (Arbitrator.getPeriod A) as [period|e] eqn:E2; [|discriminate].
  destruct (Arbitrator.getSession A) as [session|e] eqn:E3; [|discriminate].
  destruct (Arbitrable.getData B (Arbitrator.arbitrableContractAddress d)) as [acd|e] eqn:E4;
    [|discriminate].
  destruct (Arbitrable.getEvidenceForArbitrableContract B
              (Arbitrator.arbitrableContractAddress d)) as [ev|e] eqn:E5; [|discriminate].
  destruct (getContractByAddress net (Arbitrable.partyA acd)
              (Arbitrator.arbitrableContractAddress d) c) as [[csd|e] c1] eqn:E6;
    [|discriminate].
  destruct (storeDataFor net (Arbitrator.getContractAddress A) disputeId account c1)
    as [[sd|e] c2] eqn:E7; [|discriminate].
  destruct (mapM (appealRound env d period session sd disputeId account)
              (appeals (Arbitrator.numberOfAppeals d))) as [rounds|e] eqn:E8; [|discriminate].
  unfold ret. intros H. injection H as <- <-.
  exists d, period, session, acd, ev, csd, c1, sd, rounds. auto 10.
Qed.


Lemma storeDataFor_draws arbitrator disputeId account (c1 c' : Conn S) sd :
  storeDataFor net arbitrator disputeId account c1 = (Ok sd, c') ->
  sd_appealDraws sd
  = match fst (getDisputeData net arbitrator disputeId account c1) with
    | Ok userData => elems (field userData "appealDraws")
    | Err _ => []
    end.
Proof.
  unfold storeDataFor, try_catch, bind.
  destruct (getDisputeData net arbitrator disputeId account c1) as [[userData|e] c2];
    unfold ret; intros H; injection H as <- _; [|reflexivity].
  destruct userData; reflexivity.
Qed.

(** C3, as amended: the view of a dispute with [n] appeals has the two
    sequences indexed 0..n.  The draws of round [r] are those the store
    holds for [r] (none when the read of the store's data on the dispute
    fails).  A round before the last reports no [canRule] that holds,
    [canRepartition = false] and [canExecute = false].  The last round
    reports [canRepartition] true exactly when the session and the period
    are both non-zero, [lastSession <= session], the period is Execute and
    the state is Open; [canExecute] exactly when the state is Executable;
    and as [canRule] the ledger's answer for the round's stored draws when
    there are any, nothing that holds when there are none. *)
Theorem C3_appeal_rounds disputeId account (c c' : Conn S) v d period session :
  Arbitrator.getDispute A disputeId = Ok d ->
  Arbitrator.getPeriod A = Ok period ->
  Arbitrator.getSession A = Ok session ->
  getDataForDispute net env disputeId account c = (Ok v, c') ->
  let n := Arbitrator.numberOfAppeals d in
  let K := constants env in
  exists c1 sd,
    storeDataFor net (Arbitrator.getContractAddress A) disputeId account c1 = (Ok sd, c')
    /\ sd_appealDraws sd
       = match fst (getDisputeData net (Arbitrator.getContractAddress A) disputeId account c1)
         with
         | Ok userData => elems (field userData "appealDraws")
         | Err _ => []
         end
    /\ numberOfAppeals v = n
    /\ lastSession v = Arbitrator.firstSession d + n
    /\ length (appealJuror v) = Z.to_nat (n + 1)
    /\ length (appealRulings v) = Z.to_nat (n + 1)
    /\ forall r : nat, Z.of_nat r <= n ->
       exists j rho,
         appealJuror v !! r = Some j /\ appealRulings v !! r = Some rho
         /\ draws j = storedDraws sd (Z.of_nat r)
         /\ (Z.of_nat r < n ->
             truthy (canRule j) = false
             /\ canRepartition rho = false /\ canExecute rho = false)
         /\ (Z.of_nat r = n ->
             (canRepartition rho = true <->
                session <> 0 /\ period <> 0 /\ lastSession v <= session
                /\ period = PERIOD_EXECUTE K /\ Arbitrator.state d = STATE_OPEN K)
             /\ (canExecute rho = true <-> Arbitrator.state d = STATE_EXECUTABLE K)
             /\ (storedDraws sd n = [] -> truthy (canRule j) = false)
             /\ (storedDraws sd n <> [] ->
                 exists b,
                   Arbitrator.canRuleDispute A disputeId (storedDraws sd n) account = Ok b
                   /\ canRule j = JBool b)).
Proof.
  intros Hd Hp Hs Hv. cbv zeta.
  apply getDataForDispute_inv in Hv
    as (d' & p' & s' & acd & ev & csd & c1 & sd & rounds
        & Hd' & Hp' & Hs' & _ & _ & _ & Hsd & Hm & ->).
  fold A in Hd, Hp, Hs. rewrite Hd in Hd'. rewrite Hp in Hp'. rewrite Hs in Hs'.
  injection Hd' as <-. injection Hp' as <-. injection Hs' as <-.
  exists c1, sd. split; [exact Hsd|]. split; [exact (storeDataFor_draws _ _ _ _ _ _ Hsd)|].
  pose proof (mapM_length _ _ _ Hm) as Hlen. rewrite appeals_length in Hlen.
  simpl. rewrite !length_map.
  split; [reflexivity|]. split; [reflexivity|]. split; [exact Hlen|]. split; [exact Hlen|].
  intros r Hr.
  destruct (mapM_lookup _ _ _ r _ Hm (appeals_lookup _ r Hr)) as ([j rho] & Hy & Hround).
  exists j, rho. rewrite !list_lookup_fmap, Hy. simpl.
  split; [reflexivity|]. split; [reflexivity|].
  apply appealRound_spec in Hround. cbv zeta in Hround.
  destruct Hround as (Hdraws & _ & _ & _ & _ & _ & _ & Hearly & Hlast).
  split; [exact Hdraws|].
  split.
  - intros Hlt. destruct Hearly as (-> & -> & ->); [lia|]. auto.
  - intros Heq. destruct (Hlast Heq) as (Hcr & Hce & Hnone & Hsome).
    assert (storedDraws sd (Arbitrator.numberOfAppeals d) = draws j) as ->
      by (rewrite Hdraws, Heq; reflexivity).
    split; [|split; [|split]].
    + rewrite Hcr. rewrite !andb_true_iff, !negb_true_iff.
      rewrite !Z.eqb_neq, !Z.eqb_eq, Z.leb_le. tauto.
    + rewrite Hce. apply Z.eqb_eq.
    + intros Hnil. rewrite (Hnone Hnil). reflexivity.
    + exact Hsome.
Qed.


End ViewFacts.

(** ** A ledger with one dispute *)

(** C3, as stated, fails: in session 0, with the ledger in the Execute
    period and dispute 5 (first session 0, no appeal) Open, the three
    conditions of the claim hold, and the view reports
    [canRepartition = false] for the last round: line 340 computes the flag
    only when [session] and [period] are truthy. *)
Lemma C3_counterexample_session_zero :
  let K := Disputes.kleros_constants in
  let firstSession := 0 in
  let n := 0 in
  let session := 0 in
  let period := Disputes.PERIOD_EXECUTE K in
  let state := Disputes.STATE_OPEN K in
  ((firstSession + n <=? session) && (period =? Disputes.PERIOD_EXECUTE K)
   && (state =? Disputes.STATE_OPEN K) = true)
  /\ match fst (Disputes.getDataForDispute KlerosStore.serve
                  (world firstSession n state period session) 5 "0xA" (anonymous jurorStore)) with
     | Ok v => map Disputes.canRepartition (Disputes.appealRulings v) = [false]
     | Err _ => False
     end.
Proof. vm_compute. auto. Qed.

(** The scenario of the spec: dispute 5 with first session 10 and one
    appeal, read in session 11 during the Execute period while Open. *)
Lemma C3_witness :
  exists v c',
    Disputes.getDataForDispute KlerosStore.serve (world 10 1 0 4 11) 5 "0xA"
      (anonymous drawnStore) = (Ok v, c')
    /\ Disputes.lastSession v = 11
    /\ length (Disputes.appealJuror v) = 2%nat
    /\ map Disputes.draws (Disputes.appealJuror v) = [[JNum 1]; [JNum 2; JNum 3]]
    /\ map Disputes.canRepartition (Disputes.appealRulings v) = [false; true]
    /\ map Disputes.canExecute (Disputes.appealRulings v) = [false; false]
    /\ map Disputes.canRule (Disputes.appealJuror v) = [JUndef; JBool true].
Proof.
  eexists. eexists. split; [vm_compute; reflexivity|].
  split; [|split].
  - destruct (C3_appeal_rounds KlerosStore.serve (world 10 1 0 4 11) 5 "0xA"
                (anonymous drawnStore) _ _
                (Arbitrator.mkDispute "0xC" 10 1 0 (JNum 0) 2 []) 4 11
                eq_refl eq_refl eq_refl ltac:(vm_compute; reflexivity))
      as (c1 & sd & _ & _ & _ & Hlast & _).
    exact Hlast.
  - reflexivity.
  - vm_compute. auto.
Defined.


(** ** The wrapper in front of the store service *)

Section StoreFacts.

Import KlerosStore Disputes.

#[local] Abbreviation serve := KlerosStore.serve.

Lemma posts_logged_get (c : Conn Store) uri hs b :
  posts (logged c [mkRequest "GET" uri hs b]) = posts c.
Proof.
  unfold posts, logged. simpl. rewrite filter_app. simpl.
  rewrite filter_cons_False by (simpl; discriminate).
  rewrite filter_nil. apply app_nil_r.
Qed.

Lemma get_serve uri (c : Conn Store) :
  _makeRequest serve "GET" uri None c
  = (match uri with
     | UriProfile u => Ok (mkResponse (default JNull (profiles (server c) !! u)) 200)
     | UriDispute a i => Ok (mkResponse (default JNull (disputes (server c) !! (a, i))) 200)
     | _ => Ok (mkResponse JNull 404)
     end,
     logged c [mkRequest "GET" uri [] None]).
Proof. unfold _makeRequest. destruct uri; reflexivity. Qed.


Lemma getDispute_serve arbitrator disputeId (c : Conn Store) :
  Disputes.getDispute serve arbitrator disputeId c
  = (Ok (default JNull (disputes (server c) !! (arbitrator, disputeId))),
     logged c [mkRequest "GET" (UriDispute arbitrator disputeId) [] None]).
Proof. unfold Disputes.getDispute, bind. rewrite get_serve. reflexivity. Qed.

Lemma post_dispute_serve arbitrator disputeId b (c : Conn Store) :
  truthy (_token c) = true ->
  _makeRequest serve "POST" (UriDispute arbitrator disputeId) (Some b) c
  = (Ok (mkResponse b 201),
     stored c (mkStore (profiles (server c)) (<[(arbitrator, disputeId) := b]> (disputes (server c))))
       [requestOf c "POST" (UriDispute arbitrator disputeId) (Some b)]).
Proof. intros Ht. unfold _makeRequest. rewrite Ht. reflexivity. Qed.

Lemma post_refused_serve uri b (c : Conn Store) :
  truthy (_token c) = false ->
  _makeRequest serve "POST" uri b c = (Err NO_AUTH_TOKEN, c).
Proof. intros Ht. unfold _makeRequest. rewrite Ht. reflexivity. Qed.

Lemma readonly_ret {A} (a : A) : readonly (S := Store) (ret a).
Proof. intros c. auto. Qed.

Lemma readonly_throw {A} e : readonly (S := Store) (A := A) (throw e).
Proof. intros c. auto. Qed.

Lemma readonly_lift {A} (r : Result A) : readonly (S := Store) (lift r).
Proof. intros c. auto. Qed.

Lemma readonly_bind {A B} (m : Async (Conn Store) A) (k : A -> Async (Conn Store) B) :
  readonly m -> (forall a, readonly (k a)) -> readonly (bind m k).
Proof.
  intros Hm Hk c. unfold bind. specialize (Hm c).
  destruct (m c) as [[a|e] c1]; simpl in *; [|exact Hm].
  destruct (Hk a c1) as (H1 & H2 & H3). destruct Hm as (G1 & G2 & G3).
  repeat split; congruence.
Qed.

Lemma readonly_try_catch {A} (m : Async (Conn Store) A) h :
  readonly m -> (forall e, readonly (h e)) -> readonly (try_catch m h).
Proof.
  intros Hm Hh c. unfold try_catch. specialize (Hm c).
  destruct (m c) as [[a|e] c1]; simpl in *; [exact Hm|].
  destruct (Hh e c1) as (H1 & H2 & H3). destruct Hm as (G1 & G2 & G3).
  repeat split; congruence.
Qed.

Lemma readonly_get uri : readonly (_makeRequest serve "GET" uri None).
Proof.
  intros c. rewrite get_serve. simpl. repeat split. apply posts_logged_get.
Qed.

Lemma readonly_getUserProfile user : readonly (getUserProfile serve user).
Proof.
  apply readonly_bind; [apply readonly_get|]. intros; apply readonly_ret.
Qed.

Lemma readonly_getContractByAddress user contract :
  readonly (getContractByAddress serve user contract).
Proof.
  apply readonly_bind; [apply readonly_getUserProfile|].
  intros p. destruct (negb (truthy p)); [apply readonly_throw | apply readonly_ret].
Qed.


Lemma readonly_getDispute arbitrator disputeId :
  readonly (Disputes.getDispute serve arbitrator disputeId).
Proof.
  apply readonly_bind; [apply readonly_get|]. intros; apply readonly_ret.
Qed.

Lemma readonly_getDisputeData arbitrator disputeId account :
  readonly (getDisputeData serve arbitrator disputeId account).
Proof.
  apply readonly_bind; [apply readonly_getDispute|]. intros record.
  apply readonly_bind; [apply readonly_getUserProfile|]. intros p. cbv zeta.
  match goal with |- readonly (if ?b then _ else _) => destruct b end;
    [apply readonly_ret | apply readonly_throw].
Qed.

Lemma readonly_storeDataFor arbitrator disputeId account :
  readonly (storeDataFor serve arbitrator disputeId account).
Proof.
  apply readonly_try_catch.
  - apply readonly_bind; [apply readonly_getDisputeData|]. intros; apply readonly_ret.
  - intros; apply readonly_ret.
Qed.

Lemma readonly_getDataForDispute env disputeId account :
  readonly (getDataForDispute serve env disputeId account).
Proof.
  unfold getDataForDispute.
  repeat (apply readonly_bind; [first [apply readonly_lift
                                      | apply readonly_getContractByAddress
                                      | apply readonly_storeDataFor]|]; intros ?).
  apply readonly_ret.
Qed.

(** What [updateDispute] does to the store. *)
Lemma updateDispute_serve arbitrator disputeId params (c : Conn Store) :
  truthy (_token c) = true ->
  let current := default JNull (disputes (server c) !! (arbitrator, disputeId)) in
  let b := JObj (written (params ∪ spread current)) in
  exists rqs,
    updateDispute serve arbitrator disputeId params c
    = (Ok (mkResponse b 201),
       stored c (mkStore (profiles (server c))
                   (<[(arbitrator, disputeId) := b]> (disputes (server c)))) rqs)
    /\ posts (stored c (server c) rqs)
       = posts c ++ [mkRequest "POST" (UriDispute arbitrator disputeId)
                       [("Content-Type", JStr "application/json;charset=UTF-8");
                        ("Authorization", _token c)] (Some b)].
Proof.
  intros Ht. cbv zeta. unfold updateDispute, queueWriteRequest, bind.
  rewrite getDispute_serve. unfold ret.
  rewrite post_dispute_serve by exact Ht. simpl.
  eexists. split.
  - unfold stored, logged. simpl. rewrite <- app_assoc. reflexivity.
  - unfold posts, stored. simpl. rewrite !filter_app. simpl.
    rewrite filter_cons_False by (simpl; discriminate).
    rewrite filter_cons_True by reflexivity. rewrite filter_nil. reflexivity.
Qed.

Lemma updateDispute_refused arbitrator disputeId params (c : Conn Store) :
  truthy (_token c) = false ->
  exists e c', updateDispute serve arbitrator disputeId params c = (Err e, c')
               /\ server c' = server c /\ posts c' = posts c /\ _token c' = _token c.
Proof.
  intros Ht. unfold updateDispute, queueWriteRequest, bind.
  rewrite getDispute_serve. unfold ret.
  rewrite post_refused_serve by exact Ht.
  eexists _, _. split; [reflexivity|]. simpl. repeat split. apply posts_logged_get.
Qed.

End StoreFacts.

(** ** The dispute-created handler *)

Section CreationFacts.

Import KlerosStore Disputes.

#[local] Abbreviation serve := KlerosStore.serve.

Context (env : Env).
Let A := _ArbitratorInstance env.

Lemma storeNewDispute_existing event account (c : Conn Store) :
  recordOf env event c <> JNull ->
  _storeNewDisputeHandler serve env event account c
  = (Ok tt,
     logged c [mkRequest "GET"
                 (UriDispute (Arbitrator.getContractAddress A) (_disputeID event)) [] None]).
Proof.
  unfold recordOf, disputeRecord. fold A. intros Hr. unfold _storeNewDisputeHandler, bind. fold A.
  rewrite getDispute_serve.
  destruct (default JNull (disputes (server c) !! (Arbitrator.getContractAddress A, _disputeID event)));
    try reflexivity.
  contradiction.
Qed.

Lemma storeNewDispute_absent event account (c c1 : Conn Store) :
  recordOf env event c = JNull ->
  _storeNewDisputeHandler serve env event account c = (Ok tt, c1) ->
  exists b,
    disputes (server c1)
    = <[(Arbitrator.getContractAddress A, _disputeID event) := JObj b]> (disputes (server c))
    /\ profiles (server c1) = profiles (server c)
    /\ posts c1
       = posts c ++ [mkRequest "POST"
                       (UriDispute (Arbitrator.getContractAddress A) (_disputeID event))
                       [("Content-Type", JStr "application/json;charset=UTF-8");
                        ("Authorization", _token c)] (Some (JObj b))].
Proof.
  unfold recordOf, disputeRecord. fold A. intros Hr. unfold _storeNewDisputeHandler, bind. fold A.
  rewrite getDispute_serve. rewrite Hr.
  set (c0 := logged c _).
  pose proof (readonly_getDataForDispute env (_disputeID event) account c0) as (R1 & R2 & R3).
  destruct (getDataForDispute serve env (_disputeID event) account c0) as [[v|e] cv];
    [|discriminate].
  simpl in R1, R2, R3. unfold lift.
  destruct (Arbitrable.getData (_ArbitrableInstance env) (arbitrableContractAddress v))
    as [acd|e]; [|discriminate].
  destruct (Arbitrator.getBlock A (blockNumber event)) as [ts|e]; [|discriminate].
  match goal with
  | |- context [updateDispute serve ?a ?i ?p cv] =>
      set (params := p);
      destruct (truthy (_token cv)) eqn:Ht;
      [ destruct (updateDispute_serve a i params cv Ht) as (rqs & -> & Hposts)
      | destruct (updateDispute_refused a i params cv Ht) as (e & c' & -> & _);
        discriminate ]
  end.
  unfold ret. intros H. injection H as <-.
  assert (server cv = server c) as R1' by (rewrite R1; reflexivity).
  assert (_token cv = _token c) as R2' by (rewrite R2; reflexivity).
  assert (posts cv = posts c) as R3' by (rewrite R3; apply posts_logged_get).
  unfold posts, stored in *. simpl in *. rewrite Hposts, R1', R2', R3'.
  eexists. split; [reflexivity|]. split; reflexivity.
Qed.

(** C1: when a delivery of a creation event has gone through, the store
    holds a record for [(arbitratorAddress, disputeId)], and a second
    delivery of the event reads that record and writes nothing: the store
    and the list of writes stay as the first delivery left them.  The first
    delivery itself wrote nothing when the record was already there, and
    made exactly one write, of the record of that key, when it was not. *)
Theorem C1_creation_idempotent event account (c c1 : Conn Store) :
  _storeNewDisputeHandler serve env event account c = (Ok tt, c1) ->
  let key := (Arbitrator.getContractAddress A, _disputeID event) in
  recordOf env event c1 <> JNull
  /\ (exists c2,
        _storeNewDisputeHandler serve env event account c1 = (Ok tt, c2)
        /\ server c2 = server c1 /\ posts c2 = posts c1)
  /\ (recordOf env event c <> JNull -> server c1 = server c /\ posts c1 = posts c)
  /\ (recordOf env event c = JNull ->
      exists b rq,
        posts c1 = posts c ++ [rq]
        /\ rq_uri rq = UriDispute (fst key) (snd key) /\ rq_body rq = Some (JObj b)
        /\ disputes (server c1) = <[key := JObj b]> (disputes (server c))
        /\ profiles (server c1) = profiles (server c)).
Proof.
  intros H. cbv zeta.
  assert (recordOf env event c1 <> JNull
          /\ (recordOf env event c <> JNull -> server c1 = server c /\ posts c1 = posts c)) as [Hex Hno].
  { assert (recordOf env event c = JNull \/ recordOf env event c <> JNull) as [Hr|Hr]
      by (destruct (recordOf env event c); auto; right; discriminate).
    - destruct (storeNewDispute_absent event account c c1 Hr H) as (b & Hd & _ & _).
      split; [|contradiction].
      unfold recordOf, disputeRecord. fold A. rewrite Hd, lookup_insert_eq. discriminate.
    - rewrite (storeNewDispute_existing event account c Hr) in H. injection H as <-.
      split; [exact Hr|]. intros _. split; [reflexivity|]. apply posts_logged_get. }
  split; [exact Hex|]. split; [|split; [exact Hno|]].
  - eexists. split; [apply storeNewDispute_existing; exact Hex|].
    split; [reflexivity|]. apply posts_logged_get.
  - intros Hr. destruct (storeNewDispute_absent event account c c1 Hr H) as (b & Hd & Hp & Hposts).
    eexists b, _. split; [exact Hposts|]. simpl. auto.
Qed.

End CreationFacts.

(** The creation of dispute 5 (first session 10, no appeal) in block 42,
    delivered twice to the handler bound to 0xA. *)
Lemma C1_witness :
  let env := world 10 0 0 2 10 in
  let event := Disputes.mkEvent 5 "0xA" 0 42 in
  let c1 := snd (Disputes._storeNewDisputeHandler KlerosStore.serve env event "0xA"
                   (signedIn jurorStore)) in
  recordOf env event (signedIn jurorStore) = JNull
  /\ field (recordOf env event c1) "appealCreatedAt" = JArr [JNum 420000]
  /\ length (posts c1) = 1%nat
  /\ exists c2,
       Disputes._storeNewDisputeHandler KlerosStore.serve env event "0xA" c1 = (Ok tt, c2)
       /\ server c2 = server c1 /\ posts c2 = posts c1.
Proof.
  cbv zeta. split; [reflexivity|]. split; [vm_compute; reflexivity|].
  split; [vm_compute; reflexivity|].
  apply (C1_creation_idempotent (world 10 0 0 2 10) (Disputes.mkEvent 5 "0xA" 0 42) "0xA"
           (signedIn jurorStore)).
  vm_compute. reflexivity.
Defined.

(** ** The token-shift handler *)

Section ListFacts.





End ListFacts.

Section TokenShiftFacts.

Import KlerosStore Disputes.

#[local] Abbreviation serve := KlerosStore.serve.









Section Handler.

Context (env : Env).
Let A := _ArbitratorInstance env.




End Handler.

End TokenShiftFacts.

Section TokenShift.

Import KlerosStore Disputes.

#[local] Abbreviation serve := KlerosStore.serve.


End TokenShift.


(** Sums of JavaScript numbers: exact up to 2^53, rounded to the nearest
    double beyond. *)
Lemma shifted_examples :
  Disputes.shifted (JNum 12) (-3) = JNum 9
  /\ Disputes.shifted JUndef 5 = JNum 5
  /\ Disputes.shifted (JNum (2 ^ 53)) 1 = JNum (2 ^ 53)
  /\ Disputes.shifted (JNum (2 ^ 53)) 3 = JNum (2 ^ 53 + 4)
  /\ Double.mul (2 ^ 52 + 1) 3 = JNum (3 * 2 ^ 52 + 4).
Proof. vm_compute. auto. Qed.


(** ** The period handlers and the appeal arrays *)

Section ArrayFacts.

Lemma index_nil i : index [] i = JUndef.
Proof. unfold index. destruct (i <? 0); reflexivity. Qed.




End ArrayFacts.

Section PeriodFacts.

Import Disputes.

Context {S : Type}.
Context (net : Request -> S -> XhrResult * S).
Context (env : Env).
Let A := _ArbitratorInstance env.
Let K := constants env.

(** A [Promise.all] over bodies that all throw at once: nothing is done,
    and the outcome is the rejection as soon as there is one body. *)
Lemma forEach_throwing {St X} (f : X -> Async St unit) e (l : list X) (s : St) :
  (forall x s', f x s' = (Err e, s')) ->
  forEach f l s = (match l with [] => Ok tt | _ :: _ => Err e end, s).
Proof.
  intros Hf. induction l as [|x l IH]; [reflexivity|].
  cbn [forEach]. rewrite Hf, IH. destruct l; reflexivity.
Qed.

(** C6, the deadline handler: in the Vote period, once the list of the
    user's disputes is read and the session has an open dispute,
    [_storeAppealDeadline] is rejected with a TypeError and has made no
    request but that read: no deadline is ever written.  Its parameter [_]
    hides lodash, so the test [_.findIndex(...)] of line 223 throws for
    every open dispute, whether the user tracks it or not.  The claim holds
    of the ruled-at handler, whose first parameter is named [event]. *)
Theorem C6_deadline_handler_rejects event account (c c1 : Conn S) tracking open :
  Arbitrator.getPeriod A = Ok (PERIOD_VOTE K) ->
  getDisputesForUser net account c = (Ok tracking, c1) ->
  Arbitrator.getOpenDisputesForSession A = Ok open ->
  open <> [] ->
  _storeAppealDeadline net env event account c = (Err TYPE_ERROR, c1).
Proof.
  intros Hp Hd Ho Hne. unfold _storeAppealDeadline, bind, lift. fold A K.
  rewrite Hp, Z.eqb_refl, Hd, Ho.
  rewrite (forEach_throwing _ TYPE_ERROR) by reflexivity.
  destruct open; [contradiction|reflexivity].
Qed.

End PeriodFacts.

(** Dispute 5, which 0xA tracks, is open when the ledger enters the Vote
    period of round 0 (deadline 1000): the deadline handler is rejected,
    having made its one read, and the record of the dispute is still
    absent from the store.  The ruled-at handler, delivered the same event
    in the Appeal period of rounds 0, 1 and 2, stores one timestamp per
    round and keeps those of the rounds before. *)
Lemma C6_witness :
  let event := Disputes.mkEvent 5 "0xA" 0 42 in
  let c0 := signedIn jurorStore in
  let ruled n c :=
    snd (Disputes._storeDisputeRuledAtTimestamp KlerosStore.serve (world 10 n 0 3 (10 + n))
           (Disputes.mkEvent 5 "0xA" 0 (42 + n)) "0xA" c) in
  Disputes._storeAppealDeadline KlerosStore.serve (world 10 0 0 2 10) event "0xA" c0
  = (Err TYPE_ERROR, logged c0 [mkRequest "GET" (UriProfile "0xA") [] None])
  /\ disputeRecord "0xK" 5
       (snd (Disputes._storeAppealDeadline KlerosStore.serve (world 10 0 0 2 10) event
               "0xA" c0)) = JNull
  /\ field (disputeRecord "0xK" 5 (ruled 0 c0)) "appealRuledAt" = JArr [JNum 420000]
  /\ field (disputeRecord "0xK" 5 (ruled 2 (ruled 1 (ruled 0 c0)))) "appealRuledAt"
     = JArr [JNum 420000; JNum 430000; JNum 440000].
Proof.
  cbv zeta. split; [|split; [|split]].
  - apply (C6_deadline_handler_rejects KlerosStore.serve (world 10 0 0 2 10)
             (Disputes.mkEvent 5 "0xA" 0 42) "0xA" (signedIn jurorStore) _
             (JArr [JObj trackedDispute]) [5]);
      [reflexivity | reflexivity | reflexivity | discriminate].
  - reflexivity.
  - vm_compute. reflexivity.
  - vm_compute. reflexivity.
Defined.

(** ** The juror scan *)

Section DrawFacts.

Import AbstractDisputes.

Context (A : ArbitratorWrapper) (disputeId : Z) (arbitrator account : string).

Lemma votesLoop_ok draws acc votes :
  votesLoop A disputeId arbitrator account draws acc = Ok votes ->
  votes = acc ++ List.filter (drawn A disputeId arbitrator account) draws
  /\ Forall (fun draw =>
               is_ok (isJurorDrawnForDispute A disputeId draw arbitrator account) = true)
       draws.
Proof.
  revert acc. induction draws as [|draw draws IH]; intros acc H; simpl in H.
  - injection H as <-. rewrite app_nil_r. split; [reflexivity|constructor].
  - destruct (isJurorDrawnForDispute A disputeId draw arbitrator account) as [b|e] eqn:Eb;
      [|discriminate].
    assert (drawn A disputeId arbitrator account draw = b) as Hd
      by (unfold drawn; rewrite Eb; destruct b; reflexivity).
    destruct (IH _ H) as [-> Hall]. split.
    + cbn [List.filter]. rewrite Hd. destruct b; [rewrite <- app_assoc|]; reflexivity.
    + constructor; [rewrite Eb; reflexivity|exact Hall].
Qed.

Lemma votesLoop_all_ok draws acc :
  Forall (fun draw =>
            is_ok (isJurorDrawnForDispute A disputeId draw arbitrator account) = true)
    draws ->
  exists votes, votesLoop A disputeId arbitrator account draws acc = Ok votes.
Proof.
  intros H. revert acc. induction H as [|draw draws Hd _ IH]; intros acc; simpl; [eauto|].
  destruct (isJurorDrawnForDispute A disputeId draw arbitrator account); [|discriminate].
  apply IH.
Qed.

Lemma drawsUpTo_In n draw : In draw (drawsUpTo n) <-> 1 <= draw <= n.
Proof.
  unfold drawsUpTo. rewrite in_map_iff. split.
  - intros (i & <- & Hi). apply in_seq in Hi. lia.
  - intros H. exists (Z.to_nat draw). split; [lia|]. apply in_seq. lia.
Qed.

Lemma existsb_filter {X} (p : X -> bool) l :
  (0 <? length (List.filter p l))%nat = existsb p l.
Proof.
  induction l as [|x l IH]; simpl; [reflexivity|].
  destruct (p x); simpl; [reflexivity|exact IH].
Qed.

Lemma votesLoop_readable draws acc :
  is_ok (votesLoop A disputeId arbitrator account draws acc)
  = forallb (fun draw => is_ok (isJurorDrawnForDispute A disputeId draw arbitrator account))
      draws.
Proof.
  revert acc. induction draws as [|draw draws IH]; intros acc; simpl; [reflexivity|].
  destruct (isJurorDrawnForDispute A disputeId draw arbitrator account); simpl;
    [apply IH|reflexivity].
Qed.

(** [getVotesForJuror] answers exactly when the ledger's reads do. *)
Lemma getVotesForJuror_readable :
  is_ok (getVotesForJuror A disputeId arbitrator account)
  = drawsReadable A arbitrator account disputeId.
Proof.
  unfold getVotesForJuror, drawsReadable.
  destruct (getAmountOfJurorsForDispute A arbitrator disputeId) as [n|e]; [|reflexivity].
  apply votesLoop_readable.
Qed.

(** The votes it returns are non-empty exactly when the account holds a
    draw. *)
Lemma getVotesForJuror_holds votes :
  getVotesForJuror A disputeId arbitrator account = Ok votes ->
  (0 <? length votes)%nat = holdsDraw A arbitrator account disputeId.
Proof.
  unfold getVotesForJuror, holdsDraw.
  destruct (getAmountOfJurorsForDispute A arbitrator disputeId) as [n|e]; [|discriminate].
  fold (drawsUpTo n). intros H. apply votesLoop_ok in H as [-> _]. simpl.
  apply existsb_filter.
Qed.

Lemma holdsDraw_spec :
  holdsDraw A arbitrator account disputeId = true
  <-> exists n draw,
        getAmountOfJurorsForDispute A arbitrator disputeId = Ok n
        /\ 1 <= draw <= n
        /\ isJurorDrawnForDispute A disputeId draw arbitrator account = Ok true.
Proof.
  unfold holdsDraw.
  destruct (getAmountOfJurorsForDispute A arbitrator disputeId) as [n|e].
  - rewrite existsb_exists. split.
    + intros (draw & Hin & Hd). exists n, draw. split; [reflexivity|].
      split; [apply drawsUpTo_In; exact Hin|].
      unfold drawn in Hd.
      destruct (isJurorDrawnForDispute A disputeId draw arbitrator account) as [[|]|];
        first [reflexivity|discriminate].
    + intros (n' & draw & Hn & Hr & Hd). injection Hn as <-. exists draw.
      split; [apply drawsUpTo_In; exact Hr|]. unfold drawn. rewrite Hd. reflexivity.
  - split; [discriminate|]. intros (n & draw & Hn & _). discriminate.
Qed.

End DrawFacts.

Section ScanFacts.

Import AbstractDisputes.

Context (A : ArbitratorWrapper) (null arbitrator account : string) (currentSession : Z).

Lemma stops_false i :
  stops A null arbitrator account currentSession i = false ->
  exists d,
    getDispute A arbitrator i = Ok d
    /\ String.eqb (arbitratedContract d) null = false
    /\ ((firstSession d + numberOfAppeals d =? currentSession) = false
        \/ (firstSession d + numberOfAppeals d =? currentSession) = true
           /\ exists votes, getVotesForJuror A i arbitrator account = Ok votes).
Proof.
  unfold stops. destruct (getDispute A arbitrator i) as [d|e]; [|discriminate].
  intros H. apply orb_false_iff in H as [Hn H]. exists d. split; [reflexivity|].
  split; [exact Hn|].
  destruct (firstSession d + numberOfAppeals d =? currentSession); [|auto].
  right. split; [reflexivity|].
  rewrite <- getVotesForJuror_readable in H.
  destruct (getVotesForJuror A i arbitrator account) as [votes|e]; [eauto|discriminate].
Qed.

(** The loop, started at index [i] with at least [m + 1] turns of fuel,
    ends at the first stopping index [i + m] and has collected the matches
    of the indices in between. *)
Lemma scanLoop_spec (N m i fuel : nat) acc :
  (i + m = N)%nat ->
  (forall j, (j < N)%nat -> stops A null arbitrator account currentSession (Z.of_nat j) = false) ->
  stops A null arbitrator account currentSession (Z.of_nat N) = true ->
  (m < fuel)%nat ->
  scanLoop fuel A null arbitrator account currentSession (Z.of_nat i) acc
  = Some (acc ++ concat (map (fun j => contribution A arbitrator account currentSession
                                         (Z.of_nat j)) (seq i m))).
Proof.
  intros HN Hgo Hstop. revert i fuel acc HN.
  induction m as [|m IH]; intros i fuel acc HN Hfuel.
  - assert (i = N) as -> by lia. simpl. rewrite app_nil_r.
    destruct fuel as [|fuel]; [lia|]. simpl.
    unfold stops in Hstop.
    destruct (getDispute A arbitrator (Z.of_nat N)) as [d|e]; [|reflexivity].
    destruct (String.eqb (arbitratedContract d) null); [reflexivity|].
    simpl in Hstop. apply andb_true_iff in Hstop as [Hs Hv]. rewrite Hs. simpl.
    rewrite <- getVotesForJuror_readable in Hv.
    destruct (getVotesForJuror A (Z.of_nat N) arbitrator account); [discriminate|reflexivity].
  - destruct fuel as [|fuel]; [lia|].
    assert (i < N)%nat as Hi by lia.
    destruct (stops_false _ (Hgo i Hi)) as (d & Hd & Hnull & Hcase).
    cbn [scanLoop seq map concat]. rewrite Hd, Hnull.
    replace (Z.of_nat i + 1) with (Z.of_nat (Datatypes.S i)) by lia.
    unfold contribution at 1. rewrite Hd.
    destruct Hcase as [Hs | (Hs & votes & Hv)]; rewrite Hs; simpl.
    + destruct (getDispute A arbitrator (Z.of_nat (Datatypes.S i))) as [d'|e] eqn:Hnext.
      * apply IH; lia.
      * assert (Datatypes.S i = N) as HSN.
        { destruct (Nat.eq_dec (Datatypes.S i) N) as [|Hne]; [assumption|].
          assert (Datatypes.S i < N)%nat as Hlt by lia.
          specialize (Hgo _ Hlt). unfold stops in Hgo. rewrite Hnext in Hgo. discriminate. }
        assert (m = 0)%nat as -> by lia. simpl. rewrite app_nil_r. reflexivity.
    + rewrite Hv. rewrite (IH (Datatypes.S i) fuel) by lia.
      rewrite (getVotesForJuror_holds _ _ _ _ _ Hv).
      destruct (holdsDraw A arbitrator account (Z.of_nat i)); simpl; [|reflexivity].
      rewrite <- app_assoc. reflexivity.
Qed.

(** The matches below [N], read off the ledger. *)
Lemma matchesBelow_In (N : nat) x :
  In x (matchesBelow A arbitrator account currentSession N)
  <-> exists (j : nat) d n draw,
        (j < N)%nat
        /\ getDispute A arbitrator (Z.of_nat j) = Ok d
        /\ arbitratedContract d = x
        /\ firstSession d + numberOfAppeals d = currentSession
        /\ getAmountOfJurorsForDispute A arbitrator (Z.of_nat j) = Ok n
        /\ 1 <= draw <= n
        /\ isJurorDrawnForDispute A (Z.of_nat j) draw arbitrator account = Ok true.
Proof.
  unfold matchesBelow. rewrite in_concat. split.
  - intros (l & Hl & Hx). apply in_map_iff in Hl as (j & <- & Hj). apply in_seq in Hj.
    unfold contribution in Hx.
    destruct (getDispute A arbitrator (Z.of_nat j)) as [d|e] eqn:Ed; [|destruct Hx].
    destruct (Z.eqb_spec (firstSession d + numberOfAppeals d) currentSession) as [Hs|Hs];
      [|destruct Hx].
    destruct (holdsDraw A arbitrator account (Z.of_nat j)) eqn:Eh; [|destruct Hx].
    destruct Hx as [<-|[]].
    apply holdsDraw_spec in Eh as (n & draw & Hn & Hr & Hdr).
    exists j, d, n, draw. repeat split; try assumption; try reflexivity; lia.
  - intros (j & d & n & draw & Hj & Hd & <- & Hs & Hn & Hr & Hdr).
    exists [arbitratedContract d]. split; [|left; reflexivity].
    apply in_map_iff. exists j. split; [|apply in_seq; lia].
    unfold contribution. rewrite Hd.
    apply Z.eqb_eq in Hs. rewrite Hs.
    assert (holdsDraw A arbitrator account (Z.of_nat j) = true) as ->
      by (apply holdsDraw_spec; exists n, draw; auto).
    reflexivity.
Qed.

End ScanFacts.

(** C7: when the arbitrator's data can be read and the ledger has a first
    index [N] at which the scan ends (the read of the dispute throws, the
    record holds the null address, or a read of the ledger about the
    account's draws in a dispute of the session throws),
    [getDisputeContractsForJuror] returns normally after [N + 1] turns of
    its loop, whatever fuel it has beyond that.  The result lists, in order
    of index, the arbitrated contracts of the disputes below [N] whose
    [firstSession + numberOfAppeals] is the current session and in which
    the account holds a draw: an address is in the result exactly when it is
    the contract of such a dispute, one of whose draws 1..n the ledger says
    is the account's. *)
Theorem C7_scan_terminates (this : AbstractDisputes.Wrapper) A arbitrator account data
    (N fuel : nat) :
  AbstractDisputes._Arbitrator this = Some A ->
  AbstractDisputes.getData A arbitrator account = Ok data ->
  (forall j, (j < N)%nat ->
     AbstractDisputes.stops A (AbstractDisputes.NULL_ADDRESS this) arbitrator account
       (AbstractDisputes.session data) (Z.of_nat j) = false) ->
  AbstractDisputes.stops A (AbstractDisputes.NULL_ADDRESS this) arbitrator account
    (AbstractDisputes.session data) (Z.of_nat N) = true ->
  (N < fuel)%nat ->
  AbstractDisputes.getDisputeContractsForJuror fuel this arbitrator account
  = Some (Ok (AbstractDisputes.matchesBelow A arbitrator account
                (AbstractDisputes.session data) N))
  /\ forall x,
       In x (AbstractDisputes.matchesBelow A arbitrator account
               (AbstractDisputes.session data) N)
       <-> exists (j : nat) d n draw,
             (j < N)%nat
             /\ AbstractDisputes.getDispute A arbitrator (Z.of_nat j) = Ok d
             /\ AbstractDisputes.arbitratedContract d = x
             /\ AbstractDisputes.firstSession d + AbstractDisputes.numberOfAppeals d
                = AbstractDisputes.session data
             /\ AbstractDisputes.getAmountOfJurorsForDispute A arbitrator (Z.of_nat j) = Ok n
             /\ 1 <= draw <= n
             /\ AbstractDisputes.isJurorDrawnForDispute A (Z.of_nat j) draw arbitrator account
                = Ok true.
Proof.
  intros HA Hdata Hgo Hstop Hfuel. split; [|apply matchesBelow_In].
  unfold AbstractDisputes.getDisputeContractsForJuror. rewrite HA, Hdata.
  pose proof (scanLoop_spec A _ arbitrator account _ N N 0 fuel [] eq_refl Hgo Hstop Hfuel)
    as Hscan.
  change (Z.of_nat 0) with 0 in Hscan. rewrite Hscan. reflexivity.
Qed.

(** The scan of [scannedLedger] for 0xJ in session 3: dispute 0 is collected,
    dispute 1 is of another session, dispute 2 is of the session but 0xJ
    holds no draw in it, and the null address at index 3 ends the scan. *)
Lemma C7_witness :
  AbstractDisputes.getDisputeContractsForJuror 4
    (AbstractDisputes.mkWrapper (Some scannedLedger) "0x") "0xK" "0xJ"
  = Some (Ok ["0xC0"])
  /\ AbstractDisputes.getVotesForJuror scannedLedger 2 "0xK" "0xJ" = Ok []
  /\ AbstractDisputes.getVotesForJuror scannedLedger 1 "0xK" "0xJ" = Ok [1].
Proof.
  split; [|split; reflexivity].
  apply (C7_scan_terminates (AbstractDisputes.mkWrapper (Some scannedLedger) "0x")
           scannedLedger "0xK" "0xJ" (AbstractDisputes.mkArbitratorData 3 2) 3 4
           eq_refl eq_refl).
  - intros [|[|[|j]]] Hj; [reflexivity | reflexivity | reflexivity | lia].
  - reflexivity.
  - lia.
Defined.

(** ** The write queue *)

Section QueueFacts.

Import PromiseQueue.

Context {S : Type}.
Context (net : Request -> S -> XhrResult * S).

Lemma settled_inv p : settled p = true -> exists r, p = Settled r.
Proof. destruct p; try discriminate. eauto. Qed.

Lemma phases_lookup (q : QState S) k :
  phases q !! k = snd <$> tasks q !! k.
Proof. unfold phases. apply list_lookup_fmap. Qed.

Lemma phases_setPhase (q : QState S) c k p :
  phases (setPhase q c k p) = alter (fun _ => p) k (phases q).
Proof.
  unfold phases, setPhase. simpl. apply list_fmap_alter.
  apply Forall_forall. intros; reflexivity.
Qed.

Lemma take_settled ps k p :
  ps !! k = Some p -> forallb settled (take k ps) = true ->
  forall j, (j < k)%nat -> exists r, ps !! j = Some (Settled r).
Proof.
  intros Hk Hall j Hj.
  assert (j < length ps)%nat as Hlen by (apply lookup_lt_Some in Hk; lia).
  destruct (lookup_lt_is_Some_2 ps j Hlen) as [pj Hpj].
  rewrite forallb_forall in Hall.
  destruct (settled_inv pj) as [r ->]; [|eauto].
  apply Hall. apply list_elem_of_In. apply list_elem_of_lookup. exists j.
  rewrite lookup_take_lt by exact Hj. exact Hpj.
Qed.

Lemma ordered_before ps k p :
  ordered ps -> ps !! k = Some p -> queued p = false ->
  forall j, (j < k)%nat -> exists r, ps !! j = Some (Settled r).
Proof. intros Ho Hk Hq j Hj. exact (Ho j k p Hj Hk Hq). Qed.

Lemma ordered_alter ps k p0 p :
  ordered ps -> ps !! k = Some p0 -> settled p0 = false ->
  (forall j, (j < k)%nat -> exists r, ps !! j = Some (Settled r)) ->
  ordered (alter (fun _ => p) k ps).
Proof.
  intros Ho Hk Hns Hpre j k' p' Hlt Hlook Hq.
  destruct (Nat.eq_dec k' k) as [->|Hne].
  - rewrite list_lookup_alter_ne by lia. apply Hpre. exact Hlt.
  - rewrite list_lookup_alter_ne in Hlook by congruence.
    destruct (Ho j k' p' Hlt Hlook Hq) as [r Hr].
    destruct (Nat.eq_dec j k) as [->|Hne'].
    + rewrite Hk in Hr. injection Hr as ->. discriminate.
    + rewrite list_lookup_alter_ne by congruence. eauto.
Qed.

Lemma ordered_snoc ps : ordered ps -> ordered (ps ++ [Queued]).
Proof.
  intros Ho j k p Hlt Hlook Hq.
  apply lookup_snoc_Some in Hlook as [[Hk Hlook] | [_ <-]]; [|discriminate].
  destruct (Ho j k p Hlt Hlook Hq) as [r Hr]. exists r.
  rewrite lookup_app_l by lia. exact Hr.
Qed.

Lemma committed_alter (tr : list (Event S)) ps k p0 p :
  committed tr ps -> ps !! k = Some p0 -> settled p0 = false ->
  committed tr (alter (fun _ => p) k ps).
Proof.
  intros Hc Hk Hns j Hj. destruct (Hc j Hj) as [r Hr].
  destruct (Nat.eq_dec j k) as [->|Hne].
  - rewrite Hk in Hr. injection Hr as ->. discriminate.
  - exists r. rewrite list_lookup_alter_ne by congruence. exact Hr.
Qed.

Lemma commits_app (tr1 tr2 : list (Event S)) :
  commits (tr1 ++ tr2) = commits tr1 ++ commits tr2.
Proof.
  induction tr1 as [|e tr1 IH]; [reflexivity|].
  destruct e; simpl; rewrite IH; reflexivity.
Qed.

Lemma exec_app (q : QState S) tr1 tr2 :
  exec net q (tr1 ++ tr2)
  = match exec net q tr1 with
    | Some q1 => exec net q1 tr2
    | None => None
    end.
Proof.
  revert q. induction tr1 as [|e tr1 IH]; intros q; simpl; [reflexivity|].
  destruct (step net q e); [apply IH | reflexivity].
Qed.

Lemma sorted_snoc (l : list nat) k :
  StronglySorted lt l -> Forall (fun j => j < k)%nat l -> StronglySorted lt (l ++ [k]).
Proof.
  intros Hs Hall. induction Hs as [|a l Hs IH Ha]; simpl.
  - repeat constructor.
  - apply Forall_cons in Hall as [Hak Hall]. constructor; [apply IH; exact Hall|].
    apply Forall_app. split; [exact Ha|]. repeat constructor. exact Hak.
Qed.

(** What a step does to the phases of the tasks. *)
Lemma step_phases (q q' : QState S) e :
  step net q e = Some q' ->
  match e with
  | Enqueue _ => phases q' = phases q ++ [Queued]
  | Outside _ => phases q' = phases q
  | Start k =>
      phases q !! k = Some Queued
      /\ forallb settled (take k (phases q)) = true
      /\ phases q' = alter (fun _ => Reading) k (phases q)
  | ReadDone k =>
      phases q !! k = Some Reading
      /\ exists p, queued p = false /\ phases q' = alter (fun _ => p) k (phases q)
  | WriteDone k =>
      exists body r,
        phases q !! k = Some (Writing body)
        /\ phases q' = alter (fun _ => Settled r) k (phases q)
  end.
Proof.
  destruct e as [t|k|k|k|f]; simpl; intros H.
  - injection H as <-. unfold phases. simpl. rewrite map_app. reflexivity.
  - rewrite phases_lookup.
    destruct (tasks q !! k) as [[t []]|]; try discriminate.
    destruct (forallb settled (take k (phases q))) eqn:Hall; [|discriminate].
    injection H as <-. rewrite phases_setPhase. auto.
  - rewrite phases_lookup.
    destruct (tasks q !! k) as [[t []]|]; try discriminate.
    split; [reflexivity|].
    destruct (getBodyFn t (conn q)) as [[result|e] c]; injection H as <-;
      rewrite phases_setPhase; eexists; split; try reflexivity; reflexivity.
  - rewrite phases_lookup.
    destruct (tasks q !! k) as [[t [| |b|r0]]|]; try discriminate.
    destruct (_makeRequest net (verb t) (uri t) (Some b) (conn q)) as [r c].
    injection H as <-. rewrite phases_setPhase. eauto.
  - injection H as <-. reflexivity.
Qed.

Lemma committed_snoc (tr : list (Event S)) e ps :
  committed tr ps ->
  (forall k, e = WriteDone k -> exists r, ps !! k = Some (Settled r)) ->
  committed (tr ++ [e]) ps.
Proof.
  intros Hc He k Hk. unfold committed in Hc. rewrite commits_app in Hk.
  apply in_app_or in Hk as [Hk|Hk]; [apply Hc; exact Hk|].
  destruct e; simpl in Hk; try contradiction.
  destruct Hk as [<-|[]]. apply He. reflexivity.
Qed.

Lemma queueInv_step (tr : list (Event S)) (q q' : QState S) e :
  queueInv tr q -> step net q e = Some q' -> queueInv (tr ++ [e]) q'.
Proof.
  intros (Ho & Hc & Hs) Hstep. apply step_phases in Hstep.
  unfold queueInv. rewrite commits_app.
  destruct e as [t|k|k|k|f]; simpl; rewrite ?app_nil_r.
  - rewrite Hstep. split; [apply ordered_snoc; exact Ho|]. split; [|exact Hs].
    apply committed_snoc; [|discriminate].
    intros k Hk. destruct (Hc k Hk) as [r Hr]. exists r.
    rewrite lookup_app_l by (apply lookup_lt_Some in Hr; exact Hr). exact Hr.
  - destruct Hstep as (Hk & Hall & ->).
    split; [|split; [|exact Hs]].
    + eapply ordered_alter; eauto; eapply take_settled; eauto.
    + apply committed_snoc; [|discriminate]. eapply committed_alter; eauto.
  - destruct Hstep as (Hk & p & Hp & ->).
    split; [|split; [|exact Hs]].
    + eapply ordered_alter; eauto; eapply ordered_before; eauto.
    + apply committed_snoc; [|discriminate]. eapply committed_alter; eauto.
  - destruct Hstep as (b & r & Hk & ->).
    split; [|split].
    + eapply ordered_alter; eauto; eapply ordered_before; eauto.
    + apply committed_snoc; [eapply committed_alter; eauto|].
      intros j Hj. injection Hj as <-.
      exists r. rewrite list_lookup_alter_eq, Hk. reflexivity.
    + apply sorted_snoc; [exact Hs|].
      apply Forall_forall. intros j Hj. apply list_elem_of_In in Hj.
      destruct (Hc j Hj) as [rj Hrj].
      destruct (Nat.lt_trichotomy j k) as [Hlt | [-> | Hgt]]; [exact Hlt | congruence |].
      destruct (Ho k j (Settled rj) Hgt Hrj eq_refl) as [r' Hr']. congruence.
  - rewrite Hstep. split; [exact Ho|]. split; [|exact Hs].
    apply committed_snoc; [exact Hc|discriminate].
Qed.

Lemma queueInv_exec (tr0 : list (Event S)) (q0 q : QState S) tr :
  queueInv tr0 q0 -> exec net q0 tr = Some q -> queueInv (tr0 ++ tr) q.
Proof.
  revert tr0 q0. induction tr as [|e tr IH]; intros tr0 q0 Hinv Hexec; simpl in Hexec.
  - injection Hexec as <-. rewrite app_nil_r. exact Hinv.
  - destruct (step net q0 e) as [q1|] eqn:Hstep; [|discriminate].
    replace (tr0 ++ e :: tr) with ((tr0 ++ [e]) ++ tr) by (rewrite <- app_assoc; reflexivity).
    eapply IH; [|exact Hexec]. eapply queueInv_step; eauto.
Qed.

Lemma queueInv_init (c : Conn S) : queueInv [] (init c).
Proof.
  split; [|split].
  - intros j k p _ Hk. discriminate.
  - intros k [].
  - constructor.
Qed.

Lemma ordered_one_executing ps j k pj pk :
  ordered ps ->
  ps !! j = Some pj -> executing pj = true ->
  ps !! k = Some pk -> executing pk = true -> j = k.
Proof.
  intros Ho Hj Hej Hk Hek.
  destruct (Nat.lt_trichotomy j k) as [Hlt | [-> | Hgt]]; [|reflexivity|].
  - destruct (Ho j k pk Hlt Hk) as [r Hr]; [destruct pk; try discriminate; reflexivity|].
    rewrite Hj in Hr. injection Hr as ->. discriminate.
  - destruct (Ho k j pj Hgt Hj) as [r Hr]; [destruct pj; try discriminate; reflexivity|].
    rewrite Hk in Hr. injection Hr as ->. discriminate.
Qed.

(** C2: along every run of the queue, whatever the order in which tasks are
    submitted, started and completed and whatever happens outside the
    queue: no two tasks are executing at the same time; the requests of the
    tasks are made in the order of their submission; and while a task is
    between its read phase and its request, no other task can be started
    and no other task can complete a read or make its request. *)
Theorem C2_queue_serialises (c : Conn S) tr (q : QState S) :
  exec net (init c) tr = Some q ->
  (forall j k pj pk,
      phases q !! j = Some pj -> executing pj = true ->
      phases q !! k = Some pk -> executing pk = true -> j = k)
  /\ StronglySorted lt (commits tr)
  /\ (forall k body,
        phases q !! k = Some (Writing body) ->
        forall j,
          step net q (Start j) = None
          /\ (j <> k -> step net q (ReadDone j) = None /\ step net q (WriteDone j) = None)).
Proof.
  intros Hexec.
  destruct (queueInv_exec [] (init c) q tr (queueInv_init c) Hexec) as (Ho & _ & Hs).
  split; [|split; [exact Hs|]].
  - intros j k pj pk. apply ordered_one_executing. exact Ho.
  - intros k body Hk j.
    assert (forall p, phases q !! j = Some p -> executing p = true -> j = k) as Hone.
    { intros p Hj Hp. eapply ordered_one_executing; eauto. }
    split.
    + destruct (step net q (Start j)) as [q'|] eqn:Hstep; [|reflexivity].
      apply step_phases in Hstep as (Hj & Hall & _).
      destruct (Nat.lt_trichotomy j k) as [Hlt | [-> | Hgt]].
      * destruct (Ho j k _ Hlt Hk eq_refl) as [r Hr]. congruence.
      * congruence.
      * destruct (take_settled _ _ _ Hj Hall k Hgt) as [r Hr]. congruence.
    + intros Hne. split.
      * destruct (step net q (ReadDone j)) as [q'|] eqn:Hstep; [|reflexivity].
        apply step_phases in Hstep as (Hj & _). elim Hne. eapply Hone; eauto.
      * destruct (step net q (WriteDone j)) as [q'|] eqn:Hstep; [|reflexivity].
        apply step_phases in Hstep as (b & r & Hj & _). elim Hne. eapply Hone; eauto.
Qed.

(** A task alone on the queue runs as [queueWriteRequest] does. *)
Lemma queue_runs_queueWriteRequest (c : Conn S) (t : Task S) :
  exists r,
    exec net (init c) [Enqueue t; Start 0; ReadDone 0; WriteDone 0]
    = Some (mkQ (snd (queueWriteRequest net (getBodyFn t) (verb t) (uri t) c))
              [(t, Settled r)])
    \/ (exec net (init c) [Enqueue t; Start 0; ReadDone 0]
        = Some (mkQ (snd (queueWriteRequest net (getBodyFn t) (verb t) (uri t) c))
                  [(t, Settled r)])
        /\ is_ok (fst (getBodyFn t c)) = false).
Proof.
  unfold queueWriteRequest, bind. simpl. unfold setPhase. simpl.
  destruct (getBodyFn t c) as [[result|e] c1]; simpl.
  - destruct (_makeRequest net (verb t) (uri t) (Some result) c1) as [r c2]. simpl.
    exists r. left. reflexivity.
  - exists (Err e). right. split; reflexivity.
Qed.

End QueueFacts.

Lemma some_default {A} (o : option A) d :
  match o with Some _ => true | None => false end = true -> o = Some (default d o).
Proof. destruct o; [reflexivity | discriminate]. Defined.

Lemma C2_witness :
  let final :=
    default (PromiseQueue.init (signedIn jurorStore))
      (PromiseQueue.exec KlerosStore.serve (PromiseQueue.init (signedIn jurorStore))
         twoUpdates) in
  PromiseQueue.commits twoUpdates = [0; 1]%nat
  /\ StronglySorted lt (PromiseQueue.commits twoUpdates)
  /\ field (profileOf "0xA" (PromiseQueue.conn final)) "session" = JNum 4
  /\ field (profileOf "0xA" (PromiseQueue.conn final)) "lastBlock" = JNum 9
  /\ PromiseQueue.exec KlerosStore.serve (PromiseQueue.init (signedIn jurorStore))
       [PromiseQueue.Enqueue (profileTask "0xA" ∅);
        PromiseQueue.Enqueue (profileTask "0xA" ∅);
        PromiseQueue.Start 0; PromiseQueue.Start 1] = None.
Proof.
  cbv zeta. split; [reflexivity|]. split; [|vm_compute; auto].
  apply (C2_queue_serialises KlerosStore.serve (signedIn jurorStore) twoUpdates
           (default (PromiseQueue.init (signedIn jurorStore))
              (PromiseQueue.exec KlerosStore.serve (PromiseQueue.init (signedIn jurorStore))
                 twoUpdates))).
  apply some_default. vm_compute. reflexivity.
Defined.

(* ================================================================== *)
(** * Further properties of the code *)
(* ================================================================== *)

(** ** The store wrapper: tokens *)

Section TokenFacts.

Import StoreProviderOps.

Context {S : Type}.
Context (net : Request -> S -> XhrResult * S).

Lemma makeRequest_requests verb uri body (c : Conn S) :
  requests (snd (_makeRequest net verb uri body c))
  = requests c ++ (if permitted c verb then [requestOf c verb uri body] else []).
Proof.
  destruct (permitted c verb) eqn:E.
  - rewrite makeRequest_sent by done. reflexivity.
  - rewrite makeRequest_refused by done. simpl. rewrite app_nil_r. reflexivity.
Qed.

Lemma makeRequest_pair verb uri body (c : Conn S) :
  _makeRequest net verb uri body c
  = (fst (_makeRequest net verb uri body c), snd (_makeRequest net verb uri body c)).
Proof. destruct (_makeRequest net verb uri body c). reflexivity. Qed.

(** X1: [isTokenValid] never rejects with an auth or a request error.  It
    answers [true] exactly when a token is set (the one offered, or the one
    set before) and the store answers the verification with status 201;
    every thrown or rejected request is answered [false].  The one call that
    does not return is a 401 whose body has no [error] field to read, on
    which the request's promise never settles. *)
Theorem isTokenValid_outcome user token (c : Conn S) :
  let c0 := offered c token in
  let rq := requestOf c0 "POST" (UriAuthVerify user) (Some (JObj ∅)) in
  match fst (isTokenValid net user token c) with
  | Ok valid =>
      valid = true
      <-> truthy (_token c0) = true
          /\ exists text, fst (net rq (server c0)) = XhrDone 201 text
  | Err e =>
      e = NEVER_SETTLES
      /\ truthy (_token c0) = true
      /\ exists text, fst (net rq (server c0)) = XhrDone 401 text
                      /\ prop (default JNull text) "error" = None
  end.
Proof.
  cbv zeta.
  assert (isTokenValid net user token c
          = try_await
              (let* response :=
                 _makeRequest net "POST" (UriAuthVerify user) (Some (JObj ∅)) in
               ret (status response =? 201))
              (fun _ => ret false) (offered c token)) as ->.
  { unfold isTokenValid, offered, bind at 1.
    destruct (truthy token); reflexivity. }
  set (c0 := offered c token).
  unfold try_await, bind.
  rewrite (makeRequest_pair "POST").
  destruct (truthy (_token c0)) eqn:Ht.
  - rewrite makeRequest_outcome by (unfold permitted; rewrite Ht; reflexivity).
    destruct (fst (net (requestOf c0 "POST" (UriAuthVerify user) (Some (JObj ∅)))
                     (server c0))) as [err|st text] eqn:En; simpl.
    + split; [discriminate|]. intros [_ [text Hx]]. discriminate.
    + destruct (Z.eqb_spec st 401) as [->|Hst].
      * destruct (prop (default JNull text) "error") eqn:Ep; simpl.
        -- split; [discriminate|]. intros [_ [text' Hx]]. discriminate.
        -- split; [reflexivity|]. split; [reflexivity|]. eauto.
      * simpl. split.
        -- intros H. apply Z.eqb_eq in H as ->. eauto.
        -- intros [_ [text' Hx]]. injection Hx as -> _. reflexivity.
  - rewrite makeRequest_refused by (unfold permitted; rewrite Ht; reflexivity).
    simpl. split; [discriminate|]. intros [H _]. discriminate.
Qed.

(** X2: whatever the verdict, a token that was offered to [isTokenValid]
    stays installed as the wrapper's token; and the verification is the one
    request made, not even that one when there is no token at all. *)
Theorem isTokenValid_installs_token user token (c : Conn S) :
  let out := snd (isTokenValid net user token c) in
  _token out = (if truthy token then token else _token c)
  /\ requests out
     = requests c
       ++ (if truthy (_token out)
           then [requestOf (offered c token) "POST" (UriAuthVerify user) (Some (JObj ∅))]
           else []).
Proof.
  cbv zeta.
  assert (isTokenValid net user token c
          = try_await
              (let* response :=
                 _makeRequest net "POST" (UriAuthVerify user) (Some (JObj ∅)) in
               ret (status response =? 201))
              (fun _ => ret false) (offered c token)) as ->.
  { unfold isTokenValid, offered, bind at 1.
    destruct (truthy token); reflexivity. }
  assert (_token (offered c token) = (if truthy token then token else _token c)) as Ht.
  { unfold offered. destruct (truthy token); reflexivity. }
  assert (requests (offered c token) = requests c) as Hr.
  { unfold offered. destruct (truthy token); reflexivity. }
  set (c0 := offered c token) in *.
  pose proof (makeRequest_token net "POST" (UriAuthVerify user) (Some (JObj ∅)) c0) as Hk.
  pose proof (makeRequest_requests "POST" (UriAuthVerify user) (Some (JObj ∅)) c0) as Hq.
  unfold permitted in Hq. simpl in Hq.
  assert (snd (try_await
                 (let* response :=
                    _makeRequest net "POST" (UriAuthVerify user) (Some (JObj ∅)) in
                  ret (status response =? 201))
                 (fun _ => ret false) c0)
          = snd (_makeRequest net "POST" (UriAuthVerify user) (Some (JObj ∅)) c0)) as ->.
  { unfold try_await, bind.
    destruct (_makeRequest net "POST" (UriAuthVerify user) (Some (JObj ∅)) c0)
      as [[r|e] c1]; [reflexivity|].
    destruct e; reflexivity. }
  rewrite Hk, Hq, Hr, Ht. split; reflexivity.
Qed.

(** X3: [getLastBlock] reads [lastBlock] off the profile without checking
    that there is a profile: for a user the store has no profile of, the
    call throws instead of answering 0.  When it answers, the answer is the
    stored block or the number 0, never [undefined] or [null]; a profile
    without the field gives 0. *)
Theorem getLastBlock_edges user (c c1 : Conn S) p :
  getUserProfile net user c = (Ok p, c1) ->
  (p = JNull -> getLastBlock net user c = (Err TYPE_ERROR, c1))
  /\ (forall v, fst (getLastBlock net user c) = Ok v -> truthy v = true \/ v = JNum 0)
  /\ (forall o, p = JObj o -> o !! "lastBlock" = None ->
      getLastBlock net user c = (Ok (JNum 0), c1)).
Proof.
  intros Hp. unfold getLastBlock, bind. rewrite Hp.
  split; [|split].
  - intros ->. reflexivity.
  - intros v. destruct (prop p "lastBlock") as [b|]; [|discriminate].
    unfold ret. simpl. destruct (truthy b) eqn:Eb; intros H; injection H as <-; auto.
  - intros o -> Ho. simpl. unfold get. rewrite Ho. reflexivity.
Qed.

End TokenFacts.

(** The verdicts of [isTokenValid] on a store that answers 201, on one that
    answers 403, on one that answers 401 with an [error] field, and on one
    that answers 401 with nothing to read. *)
Lemma isTokenValid_examples :
  let c := mkConn JUndef tt [] in
  fst (StoreProviderOps.isTokenValid (answering 201 None) "0xA" (JStr "0xsigned") c)
  = Ok true
  /\ fst (StoreProviderOps.isTokenValid (answering 403 None) "0xA" (JStr "0xsigned") c)
     = Ok false
  /\ fst (StoreProviderOps.isTokenValid expired "0xA" (JStr "0xsigned") c) = Ok false
  /\ StoreProviderOps.isTokenValid (answering 201 None) "0xA" JUndef c = (Ok false, c)
  /\ fst (StoreProviderOps.isTokenValid (answering 401 None) "0xA" (JStr "0xsigned") c)
     = Err NEVER_SETTLES.
Proof. repeat split. Qed.

(** A user without a profile, and one whose profile has no [lastBlock]. *)
Lemma getLastBlock_witness :
  StoreProviderOps.getLastBlock KlerosStore.serve "0xZ" (anonymous jurorStore)
  = (Err TYPE_ERROR,
     logged (anonymous jurorStore) [mkRequest "GET" (UriProfile "0xZ") [] None])
  /\ StoreProviderOps.getLastBlock KlerosStore.serve "0xA" (anonymous jurorStore)
     = (Ok (JNum 0),
        logged (anonymous jurorStore) [mkRequest "GET" (UriProfile "0xA") [] None]).
Proof.
  split.
  - apply (getLastBlock_edges KlerosStore.serve "0xZ" (anonymous jurorStore) _ JNull);
      reflexivity.
  - apply (proj2 (proj2 (getLastBlock_edges KlerosStore.serve "0xA" (anonymous jurorStore)
                           _ (JObj jurorProfile) eq_refl)) jurorProfile);
      reflexivity.
Defined.

(** ** The store wrapper: notifications *)

Section NotificationFacts.

Import StoreProviderOps.

Lemma findIndexT_no_match (p : JVal -> option bool) l :
  Forall (fun x => p x = Some false) l -> findIndexT p l = Some (-1).
Proof.
  induction 1 as [|x l Hx _ IH]; simpl; [reflexivity|].
  rewrite Hx, IH. reflexivity.
Qed.

Lemma findIndexT_first_match (p : JVal -> option bool) l1 x l2 :
  Forall (fun y => p y = Some false) l1 -> p x = Some true ->
  findIndexT p (l1 ++ x :: l2) = Some (Z.of_nat (length l1)).
Proof.
  intros H Hx. induction H as [|y l1 Hy _ IH]; simpl.
  - rewrite Hx. reflexivity.
  - rewrite Hy, IH.
    replace (Z.of_nat (length l1) <? 0) with false by (symmetry; apply Z.ltb_ge; lia).
    f_equal. lia.
Qed.

Context {S : Type}.
Context (net : Request -> S -> XhrResult * S).

(** X4: the not-found branch of [markNotificationAsRead] is dead.  When no
    notification of the profile has the transaction hash and log index asked
    for, [_.findIndex] gives -1 (not [null]), the test of line 448 passes,
    and setting [read] on [notifications[-1]] throws a TypeError: the call
    fails with that error, having made its read and no write. *)
Theorem markNotificationAsRead_no_match user txHash logIndex isRead (c c1 : Conn S) o l :
  getUserProfile net user c = (Ok (JObj o), c1) ->
  get o "notifications" = JArr l ->
  Forall (fun n => is_notification txHash logIndex n = Some false) l ->
  markNotificationAsRead net user txHash logIndex isRead c = (Err TYPE_ERROR, c1).
Proof.
  intros Hp Hn Hl.
  unfold markNotificationAsRead, queueWriteRequest, bind. rewrite Hp.
  cbn [prop]. rewrite Hn. cbn [elems].
  rewrite (findIndexT_no_match _ _ Hl). reflexivity.
Qed.

(** X5: when a notification matches, [markNotificationAsRead] posts, as
    JSON, the profile it read with [_id] and [created_at] deleted and with
    [read] set on the first matching notification alone: the notifications
    before and after it, its other fields and the other fields of the
    profile are written as they were read.  [isRead] is [true] when it is
    not given. *)
Theorem markNotificationAsRead_first_match user txHash logIndex isRead (c c1 : Conn S)
    o l1 n l2 :
  getUserProfile net user c = (Ok (JObj o), c1) ->
  get o "notifications" = JArr (l1 ++ JObj n :: l2) ->
  Forall (fun x => is_notification txHash logIndex x = Some false) l1 ->
  is_notification txHash logIndex (JObj n) = Some true ->
  markNotificationAsRead net user txHash logIndex isRead c
  = _makeRequest net "POST" (UriProfile user)
      (Some (stringify
               (JObj (delete "created_at"
                        (delete "_id"
                           (<["notifications" :=
                                JArr (l1
                                      ++ JObj (<["read" := or_default (JBool true) isRead]> n)
                                      :: l2)]> o))))))
      c1.
Proof.
  intros Hp Hn Hl Hx.
  unfold markNotificationAsRead, queueWriteRequest, bind. rewrite Hp.
  cbn [prop]. rewrite Hn. cbn [elems].
  rewrite (findIndexT_first_match _ _ _ _ Hl Hx).
  unfold index.
  replace (Z.of_nat (length l1) <? 0) with false by (symmetry; apply Z.ltb_ge; lia).
  rewrite Nat2Z.id.
  rewrite list_lookup_middle by reflexivity. cbn [from_option id].
  unfold ret, readProfileBody. simpl spread.
  rewrite (insert_app_r_alt l1 (JObj n :: l2) (length l1)) by reflexivity.
  rewrite Nat.sub_diag. reflexivity.
Qed.

End NotificationFacts.

(** In the profile of 0xN, marking the notification (0xt9, 0) fails; marking
    (0xt2, 3) writes the profile with the second notification read. *)
Lemma markNotificationAsRead_no_match_witness :
  StoreProviderOps.markNotificationAsRead KlerosStore.serve "0xN" "0xt9" 0 JUndef
    (signedIn noticeStore)
  = (Err TYPE_ERROR,
     logged (signedIn noticeStore) [mkRequest "GET" (UriProfile "0xN") [] None]).
Proof.
  apply (markNotificationAsRead_no_match KlerosStore.serve "0xN" "0xt9" 0 JUndef
           (signedIn noticeStore) _ noticeProfile [JObj firstNotice; JObj secondNotice]).
  - reflexivity.
  - reflexivity.
  - repeat constructor.
Defined.

Lemma markNotificationAsRead_first_match_witness :
  writtenBody
    (snd (StoreProviderOps.markNotificationAsRead KlerosStore.serve "0xN" "0xt2" 3 JUndef
            (signedIn noticeStore)))
  = Some (JObj (<["address" := JStr "0xN"]>
                (<["notifications" :=
                     JArr [JObj firstNotice;
                           JObj (<["read" := JBool true]> secondNotice)]]> ∅))).
Proof.
  rewrite (markNotificationAsRead_first_match KlerosStore.serve "0xN" "0xt2" 3 JUndef
             (signedIn noticeStore)
             (logged (signedIn noticeStore) [mkRequest "GET" (UriProfile "0xN") [] None])
             noticeProfile [JObj firstNotice] secondNotice []).
  - vm_compute. reflexivity.
  - reflexivity.
  - reflexivity.
  - repeat constructor.
  - reflexivity.
Defined.

(** ** The store wrapper: writes on a missing record *)

Section WriteFacts.

Import StoreProviderOps.

Context {S : Type}.
Context (net : Request -> S -> XhrResult * S).

(** X6: the two profile updates differ on a user the store has no profile
    of.  [updateUserProfile] takes the missing profile as empty and posts,
    as JSON, the supplied fields with the address; [updateDisputeProfile] reads
    [disputes] off the missing profile and throws a TypeError, after its
    read and before any write. *)
Theorem update_without_profile user arbitrator disputeId params (c c1 : Conn S) :
  getUserProfile net user c = (Ok JNull, c1) ->
  updateDisputeProfile net user arbitrator disputeId params c = (Err TYPE_ERROR, c1)
  /\ updateUserProfile net user params c
     = _makeRequest net "POST" (UriProfile user)
         (Some (stringify (JObj (<["address" := JStr user]> params)))) c1.
Proof.
  intros Hp. split.
  - unfold updateDisputeProfile, queueWriteRequest, bind. rewrite Hp. reflexivity.
  - unfold updateUserProfile, queueWriteRequest, bind. rewrite Hp.
    unfold ret, userProfileBody. simpl spread.
    rewrite !delete_empty. rewrite (right_id_L ∅ (∪)). reflexivity.
Qed.

(** X7: [updateContract] on a user the store has no profile of fails with
    [PROFILE_NOT_FOUND] while it builds the body: nothing is written and no
    contract is created. *)
Theorem updateContract_without_profile user contract params (c c1 : Conn S) p :
  getUserProfile net user c = (Ok p, c1) ->
  truthy p = false ->
  updateContract net user contract params c = (Err (PROFILE_NOT_FOUND user), c1).
Proof.
  intros Hp Ht.
  unfold updateContract, queueWriteRequest, getContractByAddress, bind.
  rewrite Hp, Ht. reflexivity.
Qed.

(** X8: [updateContract] is the one write that checks the status of the
    response.  When the store answers the write with a status other than
    201 (and other than 401, which [_makeRequest] rejects), the call fails
    with [REQUEST_FAILED]; the write has been made all the same, and the
    store is in whatever state the request left it. *)
Theorem updateContract_checks_status user contract params (c c1 : Conn S) cur st text :
  getContractByAddress net user contract c = (Ok cur, c1) ->
  truthy (_token c1) = true ->
  let rq :=
    requestOf c1 "POST" (UriContract user contract)
      (Some (stringify
               (JObj (<["address" := JStr contract]> params ∪ delete "_id" (spread cur))))) in
  fst (net rq (server c1)) = XhrDone st text ->
  st <> 201 -> st <> 401 ->
  updateContract net user contract params c
  = (Err (REQUEST_FAILED JUndef),
     mkConn (_token c1) (snd (net rq (server c1))) (requests c1 ++ [rq])).
Proof.
  intros Hc Ht rq Hn H201 H401.
  unfold updateContract, queueWriteRequest, bind.
  rewrite Hc. unfold ret at 1. cbv beta iota.
  change (JObj (written (<["address" := JStr contract]> params
                         ∪ delete "_id" (spread cur))))
    with (stringify (JObj (<["address" := JStr contract]> params
                           ∪ delete "_id" (spread cur)))).
  set (b := stringify (JObj (<["address" := JStr contract]> params
                             ∪ delete "_id" (spread cur)))) in *.
  assert (permitted c1 "POST" = true) as Hperm by (unfold permitted; rewrite Ht; reflexivity).
  pose proof (makeRequest_outcome net "POST" (UriContract user contract) (Some b) c1 Hperm)
    as Ho.
  pose proof (makeRequest_sent net "POST" (UriContract user contract) (Some b) c1 Hperm)
    as Hs.
  fold rq in Ho, Hs. rewrite Hn in Ho.
  replace (st =? 401) with false in Ho by (symmetry; apply Z.eqb_neq; assumption).
  destruct (_makeRequest net "POST" (UriContract user contract) (Some b) c1) as [r c2].
  simpl in Ho, Hs. subst r c2. simpl.
  replace (st =? 201) with false by (symmetry; apply Z.eqb_neq; assumption).
  reflexivity.
Qed.

(** X9: [setUpUserProfile] returns the profile it read when there is one,
    after that one read.  When there is none, what it returns after the
    update is the response of its queued read, an object with the fields
    [body] and [status], not the profile: the profile's own fields, such as
    [address] and [disputes], read as [undefined] on it. *)
Theorem setUpUserProfile_result user (c c1 : Conn S) p :
  getUserProfile net user c = (Ok p, c1) ->
  (is_set p = true \/ p = JUndef -> setUpUserProfile net user c = (Ok p, c1))
  /\ (p = JNull ->
      forall v, fst (setUpUserProfile net user c) = Ok v ->
        exists r,
          fst (queueReadRequest net (UriProfile user)
                 (snd (updateUserProfile net user ∅ c1))) = Ok r
          /\ v = JObj (<["body" := body r]> (<["status" := JNum (status r)]> ∅))
          /\ field v "address" = JUndef
          /\ field v "disputes" = JUndef).
Proof.
  intros Hp. unfold setUpUserProfile, bind at 1. rewrite Hp. split.
  - intros [H| ->]; [|reflexivity]. destruct p; try discriminate; reflexivity.
  - intros -> v. unfold bind, detached. rewrite Hp. cbv beta iota.
    destruct (queueReadRequest net (UriProfile user)
                (snd (updateUserProfile net user ∅ c1))) as [[r|e] c2];
      [|simpl; discriminate].
    unfold ret. simpl. intros H. injection H as <-.
    exists r. repeat split; reflexivity.
Qed.

(** X10: [addEvidenceContract] and [newNotification] build their body
    without reading the store.  With a token set each makes exactly one
    request, the POST; with no token set each fails with the auth error and
    nothing at all reaches the store. *)
Theorem blind_writes submittedAt contract user name description url
    txHash logIndex kind message data read (c : Conn S) :
  let e := addEvidenceContract net submittedAt contract user name description url c in
  let n := newNotification net user txHash logIndex kind message data read c in
  (truthy (_token c) = false ->
   e = (Err NO_AUTH_TOKEN, c) /\ n = (Err NO_AUTH_TOKEN, c))
  /\ (truthy (_token c) = true ->
      (exists b, requests (snd e)
                 = requests c ++ [requestOf c "POST" (UriEvidence user contract) (Some b)]
                 /\ field b "submittedAt" = JNum submittedAt
                 /\ field b "name" = stringify name)
      /\ (exists b, requests (snd n)
                    = requests c ++ [requestOf c "POST" (UriNotification user txHash) (Some b)]
                    /\ field b "read" = stringify (or_default (JBool false) read))).
Proof.
  cbv zeta. unfold addEvidenceContract, newNotification, queueWriteRequest, bind, ret.
  split.
  - intros Ht. split; apply makeRequest_refused; unfold permitted; rewrite Ht; reflexivity.
  - intros Ht.
    assert (permitted c "POST" = true) as Hperm by (unfold permitted; rewrite Ht; reflexivity).
    split; eexists; (split; [rewrite makeRequest_sent by exact Hperm; reflexivity|]).
    + split; cbn [field]; rewrite get_written; reflexivity.
    + cbn [field]. rewrite get_written. reflexivity.
Qed.

End WriteFacts.

(** User 0xZ has no profile in [jurorStore]. *)
Lemma update_without_profile_witness :
  fst (updateDisputeProfile KlerosStore.serve "0xZ" "0xK" 5 (<["netPNK" := JNum 1]> ∅)
         (signedIn jurorStore)) = Err TYPE_ERROR
  /\ writtenBody (snd (updateUserProfile KlerosStore.serve "0xZ" (<["session" := JNum 1]> ∅)
                         (signedIn jurorStore)))
     = Some (JObj (<["address" := JStr "0xZ"]> (<["session" := JNum 1]> ∅))).
Proof.
  destruct (update_without_profile KlerosStore.serve "0xZ" "0xK" 5 (<["netPNK" := JNum 1]> ∅)
              (signedIn jurorStore)
              (logged (signedIn jurorStore) [mkRequest "GET" (UriProfile "0xZ") [] None])
              eq_refl) as [H1 _].
  destruct (update_without_profile KlerosStore.serve "0xZ" "0xK" 5 (<["session" := JNum 1]> ∅)
              (signedIn jurorStore)
              (logged (signedIn jurorStore) [mkRequest "GET" (UriProfile "0xZ") [] None])
              eq_refl) as [_ H2].
  rewrite H1, H2. split; reflexivity.
Defined.

Lemma updateContract_without_profile_witness :
  updateContract KlerosStore.serve "0xZ" "0xC" ∅ (signedIn jurorStore)
  = (Err (PROFILE_NOT_FOUND "0xZ"),
     logged (signedIn jurorStore) [mkRequest "GET" (UriProfile "0xZ") [] None]).
Proof.
  apply (updateContract_without_profile KlerosStore.serve "0xZ" "0xC" ∅
           (signedIn jurorStore) _ JNull); reflexivity.
Defined.

(** The store service answers a write to a contract with 404. *)
Lemma updateContract_checks_status_witness :
  fst (updateContract KlerosStore.serve "0xA" "0xC" ∅ (signedIn jurorStore))
  = Err (REQUEST_FAILED JUndef).
Proof.
  rewrite (updateContract_checks_status KlerosStore.serve "0xA" "0xC" ∅
             (signedIn jurorStore)
             (logged (signedIn jurorStore) [mkRequest "GET" (UriProfile "0xA") [] None])
             JUndef 404 None); [reflexivity| reflexivity | reflexivity | reflexivity | lia | lia].
Defined.

Lemma setUpUserProfile_result_witness :
  setUpUserProfile KlerosStore.serve "0xA" (anonymous jurorStore)
  = (Ok (JObj jurorProfile),
     logged (anonymous jurorStore) [mkRequest "GET" (UriProfile "0xA") [] None])
  /\ exists r,
       fst (queueReadRequest KlerosStore.serve (UriProfile "0xZ")
              (snd (updateUserProfile KlerosStore.serve "0xZ" ∅
                      (logged (signedIn jurorStore)
                         [mkRequest "GET" (UriProfile "0xZ") [] None])))) = Ok r
       /\ JObj (<["body" := JObj (<["address" := JStr "0xZ"]> ∅)]>
                  (<["status" := JNum 200]> ∅))
          = JObj (<["body" := body r]> (<["status" := JNum (status r)]> ∅))
       /\ field (JObj (<["body" := JObj (<["address" := JStr "0xZ"]> ∅)]>
                         (<["status" := JNum 200]> ∅))) "address" = JUndef
       /\ field (JObj (<["body" := JObj (<["address" := JStr "0xZ"]> ∅)]>
                         (<["status" := JNum 200]> ∅))) "disputes" = JUndef.
Proof.
  split.
  - apply (setUpUserProfile_result KlerosStore.serve "0xA" (anonymous jurorStore) _
             (JObj jurorProfile) eq_refl). left. reflexivity.
  - apply (proj2 (setUpUserProfile_result KlerosStore.serve "0xZ" (signedIn jurorStore)
                    (logged (signedIn jurorStore)
                       [mkRequest "GET" (UriProfile "0xZ") [] None])
                    JNull eq_refl) eq_refl).
    reflexivity.
Defined.

Lemma blind_writes_witness :
  StoreProviderOps.addEvidenceContract KlerosStore.serve 1700 "0xC" "0xA"
    (JStr "photo") (JStr "the goods") (JStr "https://e/1") (anonymous jurorStore)
  = (Err NO_AUTH_TOKEN, anonymous jurorStore)
  /\ exists b,
       requests (snd (StoreProviderOps.newNotification KlerosStore.serve "0xA" "0xt1"
                        (JNum 0) (JNum 2) JUndef JUndef JUndef (signedIn jurorStore)))
       = [requestOf (signedIn jurorStore) "POST" (UriNotification "0xA" "0xt1") (Some b)]
       /\ field b "read" = JBool false.
Proof.
  split.
  - apply (blind_writes KlerosStore.serve 1700 "0xC" "0xA" (JStr "photo") (JStr "the goods")
             (JStr "https://e/1") "0xt1" (JNum 0) (JNum 2) JUndef JUndef JUndef
             (anonymous jurorStore)). reflexivity.
  - apply (proj2 (blind_writes KlerosStore.serve 1700 "0xC" "0xA" (JStr "photo")
                    (JStr "the goods") (JStr "https://e/1") "0xt1" (JNum 0) (JNum 2)
                    JUndef JUndef JUndef (signedIn jurorStore)) eq_refl).
Defined.

(** ** The merged view: failures and the ledger's fields *)

Section ViewEdges.

Import Disputes.

Context {S : Type}.
Context (net : Request -> S -> XhrResult * S).
Context (env : Env).
Let A := _ArbitratorInstance env.
Let B := _ArbitrableInstance env.

(** X11: [getDataForDispute] reads the ledger before it turns to the store.
    When the read of the dispute, of the period or of the session fails,
    the call fails and no request at all has been made to the store. *)
Theorem getDataForDispute_ledger_failure disputeId account (c : Conn S) :
  is_ok (Arbitrator.getDispute A disputeId)
  && is_ok (Arbitrator.getPeriod A)
  && is_ok (Arbitrator.getSession A) = false ->
  exists e, getDataForDispute net env disputeId account c = (Err e, c).
Proof.
  unfold getDataForDispute, bind, lift. fold A B.
  destruct (Arbitrator.getDispute A disputeId) as [d|e]; [|eauto].
  destruct (Arbitrator.getPeriod A) as [period|e]; [|eauto].
  destruct (Arbitrator.getSession A) as [session|e]; [|eauto].
  discriminate.
Qed.

(** X12: the description and the e-mail of the view are optional, but the
    profile of party A is not: when the store has no profile of party A,
    [getDataForDispute] fails with [PROFILE_NOT_FOUND] for that party,
    whoever the account asking is.  That read is made outside the [try] that
    guards the read of the dispute's own data. *)
Theorem getDataForDispute_party_without_profile disputeId account (c c1 : Conn S)
    d period session acd ev p :
  Arbitrator.getDispute A disputeId = Ok d ->
  Arbitrator.getPeriod A = Ok period ->
  Arbitrator.getSession A = Ok session ->
  Arbitrable.getData B (Arbitrator.arbitrableContractAddress d) = Ok acd ->
  Arbitrable.getEvidenceForArbitrableContract B (Arbitrator.arbitrableContractAddress d)
  = Ok ev ->
  getUserProfile net (Arbitrable.partyA acd) c = (Ok p, c1) ->
  truthy p = false ->
  getDataForDispute net env disputeId account c
  = (Err (PROFILE_NOT_FOUND (Arbitrable.partyA acd)), c1).
Proof.
  intros H1 H2 H3 H4 H5 Hp Ht.
  unfold getDataForDispute, getContractByAddress, bind, lift. fold A B.
  rewrite H1, H2, H3, H4, H5, Hp, Ht. reflexivity.
Qed.

(** X13: in the view the ledger's word is final.  The state, the status and
    the first session of the dispute, the parties and the status of the
    arbitrated contract are those the ledger and the contract report,
    whatever the store holds; and every round [r] of the view carries the
    ledger's ruling and vote counter for [r], the draws the store holds for
    the account in [r], and as fee the product, in JavaScript's numbers, of
    the arbitration fee per juror and the number of those draws: the exact
    product when the fee and the product are within 2^53. *)
Theorem getDataForDispute_ledger_fields disputeId account (c c' : Conn S) v :
  getDataForDispute net env disputeId account c = (Ok v, c') ->
  exists d acd c1 sd,
    Arbitrator.getDispute A disputeId = Ok d
    /\ Arbitrable.getData B (Arbitrator.arbitrableContractAddress d) = Ok acd
    /\ storeDataFor net (Arbitrator.getContractAddress A) disputeId account c1 = (Ok sd, c')
    /\ sd_appealDraws sd
       = match fst (getDisputeData net (Arbitrator.getContractAddress A) disputeId account c1)
         with
         | Ok userData => elems (field userData "appealDraws")
         | Err _ => []
         end
    /\ disputeState v = Arbitrator.state d
    /\ disputeStatus v = Arbitrator.status d
    /\ firstSession v = Arbitrator.firstSession d
    /\ arbitrableContractAddress v = Arbitrator.arbitrableContractAddress d
    /\ arbitratorAddress v = Arbitrator.getContractAddress A
    /\ partyA v = Arbitrable.partyA acd
    /\ partyB v = Arbitrable.partyB acd
    /\ arbitrableContractStatus v = Arbitrable.status acd
    /\ forall (r : nat) j rho,
         appealJuror v !! r = Some j -> appealRulings v !! r = Some rho ->
         let count := Z.of_nat (length (storedDraws sd (Z.of_nat r))) in
         Z.of_nat r <= Arbitrator.numberOfAppeals d
         /\ draws j = storedDraws sd (Z.of_nat r)
         /\ fee j = Double.mul (Arbitrator.arbitrationFeePerJuror d) count
         /\ (Z.abs (Arbitrator.arbitrationFeePerJuror d) <= 2 ^ 53 ->
             Z.abs (Arbitrator.arbitrationFeePerJuror d * count) <= 2 ^ 53 ->
             fee j = JNum (Arbitrator.arbitrationFeePerJuror d * count))
         /\ Arbitrator.currentRulingForDispute A disputeId (Z.of_nat r) = Ok (ruling rho)
         /\ voteCounter rho = index (Arbitrator.voteCounters d) (Z.of_nat r).
Proof.
  intros H.
  destruct (getDataForDispute_inv net env _ _ _ _ _ H)
    as (d & period & session & acd & ev & csd & c1 & sd & rounds
        & H1 & H2 & H3 & H4 & H5 & H6 & H7 & H8 & ->).
  fold A B in H1, H4. fold A in H7. exists d, acd, c1, sd.
  split; [exact H1|]. split; [exact H4|]. split; [exact H7|].
  split; [exact (storeDataFor_draws _ _ _ _ _ _ _ H7)|].
  repeat (split; [first [assumption | reflexivity]|]).
  intros r j rho Hj Hrho. unfold mergedView in Hj, Hrho.
  cbn [appealJuror appealRulings] in Hj, Hrho.
  rewrite list_lookup_fmap in Hj. rewrite list_lookup_fmap in Hrho.
  destruct (rounds !! r) as [[j' rho']|] eqn:Er; [|discriminate].
  simpl in Hj, Hrho. injection Hj as <-. injection Hrho as <-.
  assert (r < length (appeals (Arbitrator.numberOfAppeals d)))%nat as Hlen.
  { rewrite <- (mapM_length _ _ _ H8). eapply lookup_lt_Some; eassumption. }
  rewrite appeals_length in Hlen.
  assert (Z.of_nat r <= Arbitrator.numberOfAppeals d) as Hr by lia.
  destruct (mapM_lookup _ _ _ r _ H8 (appeals_lookup _ _ Hr)) as (y & Hy & Hround).
  rewrite Er in Hy. injection Hy as <-.
  pose proof (appealRound_spec env _ _ _ _ _ _ _ _ _ Hround) as Hspec.
  cbv zeta in Hspec.
  destruct Hspec as (Hdraws & Hfee & _ & _ & _ & Hrule & Hvc & _).
  rewrite Hdraws in Hfee.
  split; [exact Hr|]. split; [exact Hdraws|]. split; [exact Hfee|].
  split; [|split; [exact Hrule|exact Hvc]].
  intros Hf Hprod. rewrite Hfee.
  destruct (Z.eq_dec (Arbitrator.arbitrationFeePerJuror d) 0) as [H0|H0].
  - rewrite H0, Z.mul_0_l. apply mul_0_l.
  - apply mul_exact; [exact Hf| |exact Hprod].
    rewrite Z.abs_mul in Hprod.
    rewrite (Z.abs_eq (Z.of_nat _)) in * by lia. nia.
Qed.

End ViewEdges.

(** The ledger has no dispute 7. *)
Lemma getDataForDispute_ledger_failure_witness :
  exists e,
    Disputes.getDataForDispute KlerosStore.serve (world 10 1 0 4 11) 7 "0xA"
      (anonymous jurorStore)
    = (Err e, anonymous jurorStore).
Proof.
  apply (getDataForDispute_ledger_failure KlerosStore.serve (world 10 1 0 4 11) 7 "0xA"
           (anonymous jurorStore)).
  reflexivity.
Defined.

(** Dispute 5, whose state on the ledger is 0 and whose fee per juror is 2,
    read for 0xA, who holds one draw in round 0 and two in round 1. *)
Lemma getDataForDispute_ledger_fields_witness :
  exists v c',
    Disputes.getDataForDispute KlerosStore.serve (world 10 1 0 4 11) 5 "0xA"
      (anonymous drawnStore) = (Ok v, c')
    /\ Disputes.disputeState v = 0
    /\ map Disputes.fee (Disputes.appealJuror v) = [JNum 2; JNum 4]
    /\ map Disputes.draws (Disputes.appealJuror v) = [[JNum 1]; [JNum 2; JNum 3]].
Proof.
  eexists. eexists. split; [vm_compute; reflexivity|].
  split; [|split; reflexivity].
  match goal with
  | |- Disputes.disputeState ?v = _ =>
      destruct (getDataForDispute_ledger_fields KlerosStore.serve (world 10 1 0 4 11)
                  5 "0xA" (anonymous drawnStore) _ v ltac:(vm_compute; reflexivity))
        as (d & acd & c1 & sd & Hd & _ & _ & _ & Hs & _)
  end.
  vm_compute in Hd. injection Hd as <-. exact Hs.
Defined.

(** In the empty store party A of the contract, 0xA, has no profile. *)
Lemma getDataForDispute_party_without_profile_witness :
  Disputes.getDataForDispute KlerosStore.serve (world 10 1 0 4 11) 5 "0xB"
    (anonymous emptyStore)
  = (Err (PROFILE_NOT_FOUND "0xA"),
     logged (anonymous emptyStore) [mkRequest "GET" (UriProfile "0xA") [] None]).
Proof.
  apply (getDataForDispute_party_without_profile KlerosStore.serve (world 10 1 0 4 11)
           5 "0xB" (anonymous emptyStore) _
           (Arbitrator.mkDispute "0xC" 10 1 0 (JNum 0) 2 []) 4 11
           (Arbitrable.mkData "0xA" "0xB" (JNum 0)) (JArr []) JNull);
    reflexivity.
Defined.

(** ** The period handlers outside their period *)

Section PeriodEdges.

Import Disputes.

Context {S : Type}.
Context (net : Request -> S -> XhrResult * S).
Context (env : Env).
Let A := _ArbitratorInstance env.
Let K := constants env.

(** X14: each of the two handlers of a period change acts in one period
    only.  Outside the Appeal period [_storeDisputeRuledAtTimestamp] makes
    no request at all, and outside the Vote period neither does
    [_storeAppealDeadline]; so, the two periods being different, at most one
    of the two handlers touches the store on a given event. *)
Theorem period_handlers_outside_period event account (c : Conn S) :
  (forall p, Arbitrator.getPeriod A = Ok p -> p <> PERIOD_APPEAL K ->
     _storeDisputeRuledAtTimestamp net env event account c = (Ok tt, c))
  /\ (forall p, Arbitrator.getPeriod A = Ok p -> p <> PERIOD_VOTE K ->
        _storeAppealDeadline net env event account c = (Ok tt, c))
  /\ (PERIOD_VOTE K <> PERIOD_APPEAL K ->
      snd (_storeDisputeRuledAtTimestamp net env event account c) = c
      \/ snd (_storeAppealDeadline net env event account c) = c).
Proof.
  unfold _storeDisputeRuledAtTimestamp, _storeAppealDeadline, bind, lift. fold A K.
  split; [|split].
  - intros p -> Hp. apply Z.eqb_neq in Hp. rewrite Hp. reflexivity.
  - intros p -> Hp. apply Z.eqb_neq in Hp. rewrite Hp. reflexivity.
  - intros Hd. destruct (Arbitrator.getPeriod A) as [p|e]; [|left; reflexivity].
    destruct (Z.eqb_spec p (PERIOD_APPEAL K)) as [->|Hp]; [|left; reflexivity].
    right. destruct (Z.eqb_spec (PERIOD_APPEAL K) (PERIOD_VOTE K)) as [Heq|_];
      [congruence|reflexivity].
Qed.

End PeriodEdges.

(** In the Execute period (4) neither handler does anything. *)
Lemma period_handlers_outside_period_witness :
  Disputes._storeDisputeRuledAtTimestamp KlerosStore.serve (world 10 1 0 4 11)
    (Disputes.mkEvent 5 "0xA" 0 7) "0xA" (signedIn jurorStore)
  = (Ok tt, signedIn jurorStore)
  /\ Disputes._storeAppealDeadline KlerosStore.serve (world 10 1 0 4 11)
       (Disputes.mkEvent 5 "0xA" 0 7) "0xA" (signedIn jurorStore)
     = (Ok tt, signedIn jurorStore).
Proof.
  pose proof (period_handlers_outside_period KlerosStore.serve (world 10 1 0 4 11)
                (Disputes.mkEvent 5 "0xA" 0 7) "0xA" (signedIn jurorStore)) as [H1 [H2 _]].
  split.
  - apply (H1 4); [reflexivity|discriminate].
  - apply (H2 4); [reflexivity|discriminate].
Defined.

(** ** The ruled-at handler in the Appeal period *)

Section RuledAtFacts.

Import KlerosStore Disputes.

#[local] Abbreviation serve := KlerosStore.serve.

Context (env : Env).
Let A := _ArbitratorInstance env.
Let K := constants env.








End RuledAtFacts.


(** ** The token-shift handler: whose records it touches *)

Section HandlerReach.

Import Disputes.

Context {S : Type}.
Context (net : Request -> S -> XhrResult * S).

Lemma sends_refl (P : Request -> bool) (c : Conn S) : sends P c c.
Proof. exists []. rewrite app_nil_r. split; [reflexivity|constructor]. Qed.

Lemma sends_trans (P : Request -> bool) (c1 c2 c3 : Conn S) :
  sends P c1 c2 -> sends P c2 c3 -> sends P c1 c3.
Proof.
  intros (l1 & E1 & F1) (l2 & E2 & F2). exists (l1 ++ l2).
  rewrite E2, E1, app_assoc. split; [reflexivity|]. apply Forall_app; auto.
Qed.

Lemma sends_makeRequest (P : Request -> bool) verb uri body (c : Conn S) :
  (forall headers, P (mkRequest verb uri headers body) = true) ->
  sends P c (snd (_makeRequest net verb uri body c)).
Proof.
  intros HP. destruct (permitted c verb) eqn:E.
  - rewrite makeRequest_sent by exact E. exists [requestOf c verb uri body].
    split; [reflexivity|]. constructor; [apply HP|constructor].
  - rewrite makeRequest_refused by exact E. apply sends_refl.
Qed.

Lemma sends_getUserProfile user (c : Conn S) :
  sends (addresses user) c (snd (getUserProfile net user c)).
Proof.
  unfold getUserProfile, bind.
  pose proof (sends_makeRequest (addresses user) "GET" (UriProfile user) None c) as H.
  destruct (_makeRequest net "GET" (UriProfile user) None c) as [[r|e] c1];
    apply H; intros; unfold addresses; simpl; apply String.eqb_refl.
Qed.

Lemma sends_queueWriteRequest (P : Request -> bool) getBodyFn verb uri (c : Conn S) :
  sends P c (snd (getBodyFn c)) ->
  (forall headers body, P (mkRequest verb uri headers body) = true) ->
  sends P c (snd (queueWriteRequest net getBodyFn verb uri c)).
Proof.
  intros Hb HP. unfold queueWriteRequest, bind.
  destruct (getBodyFn c) as [[b|e] c1]; [|exact Hb].
  eapply sends_trans; [exact Hb|]. apply sends_makeRequest. intros. apply HP.
Qed.

Lemma sends_updateUserProfile user params (c : Conn S) :
  sends (addresses user) c (snd (updateUserProfile net user params c)).
Proof.
  unfold updateUserProfile. apply sends_queueWriteRequest.
  - pose proof (sends_getUserProfile user c) as H. unfold bind.
    destruct (getUserProfile net user c) as [[p|e] c1]; exact H.
  - intros. unfold addresses. simpl. apply String.eqb_refl.
Qed.

Lemma sends_updateDisputeProfile user arbitrator disputeId params (c : Conn S) :
  sends (addresses user) c
    (snd (updateDisputeProfile net user arbitrator disputeId params c)).
Proof.
  unfold updateDisputeProfile. apply sends_queueWriteRequest.
  - pose proof (sends_getUserProfile user c) as H. unfold bind.
    destruct (getUserProfile net user c) as [[p|e] c1]; [|exact H].
    destruct (prop p "disputes"); exact H.
  - intros. unfold addresses. simpl. apply String.eqb_refl.
Qed.

Lemma sends_setUpUserProfile user (c : Conn S) :
  sends (addresses user) c (snd (setUpUserProfile net user c)).
Proof.
  unfold setUpUserProfile, bind at 1.
  pose proof (sends_getUserProfile user c) as H.
  destruct (getUserProfile net user c) as [[p|e] c1]; [|exact H].
  destruct p; try exact H.
  eapply sends_trans; [exact H|].
  unfold bind, detached. cbv beta iota.
  pose proof (sends_updateUserProfile user ∅ c1) as H1.
  set (c2 := snd (updateUserProfile net user ∅ c1)) in *.
  eapply sends_trans; [exact H1|].
  unfold queueReadRequest.
  pose proof (sends_makeRequest (addresses user) "GET" (UriProfile user) None c2) as H2.
  destruct (_makeRequest net "GET" (UriProfile user) None c2) as [[r|e] c3];
    apply H2; intros; unfold addresses; simpl; apply String.eqb_refl.
Qed.

Context (env : Env).

(** X15: the token-shift handler stays within the records of the account it
    is bound to.  An event about another account is ignored without a single
    request; for an event about the bound account, every request the
    handler makes, read or write, addresses a resource of that account. *)
Theorem tokensMoved_reach event account (c : Conn S) :
  sends (addresses account) c (snd (_storeTokensMovedForJuror net env event account c))
  /\ (_account event <> account ->
      _storeTokensMovedForJuror net env event account c = (Ok tt, c)).
Proof.
  unfold _storeTokensMovedForJuror. split.
  - destruct (String.eqb (_account event) account); [|apply sends_refl].
    unfold bind at 1.
    pose proof (sends_setUpUserProfile account c) as H.
    destruct (setUpUserProfile net account c) as [[p|e] c1]; [|exact H].
    simpl snd in H. cbv zeta.
    match goal with
    | |- context [if ?b then _ else _] => destruct b
    end; [exact H|].
    match goal with
    | |- context [index ?l ?i] => generalize (index l i); intros dispute
    end.
    destruct (field dispute "arbitratorAddress"); try exact H.
    destruct (field dispute "disputeId"); try exact H.
    eapply sends_trans; [exact H|].
    unfold bind.
    match goal with
    | |- context [updateDisputeProfile net account ?a ?i ?ps c1] =>
        pose proof (sends_updateDisputeProfile account a i ps c1) as H1;
        destruct (updateDisputeProfile net account a i ps c1) as [[r|e] c2]; exact H1
    end.
  - intros Hne. apply String.eqb_neq in Hne. rewrite Hne. reflexivity.
Qed.

(** X16: once the user has a profile, the handler of the older resource
    ([_tokenShiftHandler], which reads the profile with [getUserProfile])
    and the newer one (which goes through [setUpUserProfile]) do the same.
    They part on a user without a profile: the older handler throws a
    TypeError on reading [disputes] off [null], after its one read. *)
Theorem tokenShiftHandler_older_newer event account (c c1 : Conn S) p :
  getUserProfile net account c = (Ok p, c1) ->
  (is_set p = true ->
   OlderDisputes._tokenShiftHandler net env event account c
   = _storeTokensMovedForJuror net env event account c)
  /\ (p = JNull -> _account event = account ->
      OlderDisputes._tokenShiftHandler net env event account c = (Err TYPE_ERROR, c1)).
Proof.
  intros Hp. unfold OlderDisputes._tokenShiftHandler, _storeTokensMovedForJuror. split.
  - intros Hs. destruct (String.eqb (_account event) account); [|reflexivity].
    unfold setUpUserProfile, bind. rewrite Hp.
    destruct p; try discriminate; reflexivity.
  - intros -> ->. rewrite String.eqb_refl. unfold bind. rewrite Hp. reflexivity.
Qed.

End HandlerReach.

(** An event about 0xB reaches the handler bound to 0xA. *)
Lemma tokensMoved_reach_witness :
  Disputes._storeTokensMovedForJuror KlerosStore.serve (world 10 1 0 4 11)
    (Disputes.mkEvent 5 "0xB" 10 7) "0xA" (signedIn jurorStore)
  = (Ok tt, signedIn jurorStore).
Proof.
  apply (tokensMoved_reach KlerosStore.serve (world 10 1 0 4 11)
           (Disputes.mkEvent 5 "0xB" 10 7) "0xA" (signedIn jurorStore)).
  discriminate.
Defined.

(** User 0xA has a profile in [jurorStore]; user 0xZ has none. *)
Lemma tokenShiftHandler_older_newer_witness :
  OlderDisputes._tokenShiftHandler KlerosStore.serve (world 10 1 0 4 11)
    (Disputes.mkEvent 5 "0xA" 10 7) "0xA" (signedIn jurorStore)
  = Disputes._storeTokensMovedForJuror KlerosStore.serve (world 10 1 0 4 11)
      (Disputes.mkEvent 5 "0xA" 10 7) "0xA" (signedIn jurorStore)
  /\ OlderDisputes._tokenShiftHandler KlerosStore.serve (world 10 1 0 4 11)
       (Disputes.mkEvent 5 "0xZ" 10 7) "0xZ" (signedIn jurorStore)
     = (Err TYPE_ERROR,
        logged (signedIn jurorStore) [mkRequest "GET" (UriProfile "0xZ") [] None]).
Proof.
  split.
  - apply (tokenShiftHandler_older_newer KlerosStore.serve (world 10 1 0 4 11)
             (Disputes.mkEvent 5 "0xA" 10 7) "0xA" (signedIn jurorStore) _
             (JObj jurorProfile) eq_refl). reflexivity.
  - apply (proj2 (tokenShiftHandler_older_newer KlerosStore.serve (world 10 1 0 4 11)
                    (Disputes.mkEvent 5 "0xZ" 10 7) "0xZ" (signedIn jurorStore) _
                    JNull eq_refl)); reflexivity.
Defined.

(** ** The votes of a juror *)

Section VoteFacts.

Import AbstractDisputes.

Context (A : ArbitratorWrapper) (disputeId : Z) (arbitrator account : string).

Lemma drawsUpTo_sorted n : StronglySorted Z.lt (drawsUpTo n).
Proof.
  unfold drawsUpTo. generalize (Z.to_nat n) as m. generalize 1%nat as s.
  intros s m. revert s. induction m as [|m IH]; intros s; simpl; constructor.
  - apply IH.
  - apply List.Forall_forall. intros x Hx.
    apply in_map_iff in Hx as (i & <- & Hi). apply in_seq in Hi. lia.
Qed.

Lemma filter_sorted (p : Z -> bool) l :
  StronglySorted Z.lt l -> StronglySorted Z.lt (List.filter p l).
Proof.
  induction 1 as [|x l Hs IH Hx]; simpl; [constructor|].
  destruct (p x); [|exact IH]. constructor; [exact IH|].
  apply List.Forall_forall. intros y Hy. apply filter_In in Hy as [Hy _].
  rewrite List.Forall_forall in Hx. apply Hx. exact Hy.
Qed.

(** X17: the votes [getVotesForJuror] returns are the draws of the account:
    exactly the slots between 1 and the number of jurors of the dispute on
    which the ledger says the account is drawn, each once and in increasing
    order. *)
Theorem getVotesForJuror_draws votes :
  getVotesForJuror A disputeId arbitrator account = Ok votes ->
  exists n,
    getAmountOfJurorsForDispute A arbitrator disputeId = Ok n
    /\ (forall draw,
          In draw votes
          <-> 1 <= draw <= n
              /\ isJurorDrawnForDispute A disputeId draw arbitrator account = Ok true)
    /\ StronglySorted Z.lt votes.
Proof.
  unfold getVotesForJuror.
  destruct (getAmountOfJurorsForDispute A arbitrator disputeId) as [n|e]; [|discriminate].
  fold (drawsUpTo n). intros H. apply votesLoop_ok in H as [-> _]. simpl.
  exists n. split; [reflexivity|]. split.
  - intros draw. rewrite filter_In, drawsUpTo_In. unfold drawn.
    destruct (isJurorDrawnForDispute A disputeId draw arbitrator account) as [[|]|e];
      intuition congruence.
  - apply filter_sorted, drawsUpTo_sorted.
Qed.

(** X18: [getVotesForJuror] answers exactly when all its reads of the
    ledger do: the number of jurors and the draw of every slot from 1 to
    that number.  A dispute without jurors gives the empty list without a
    single read of a draw, and a failing read of a slot beyond the number of
    jurors does no harm. *)
Theorem getVotesForJuror_answers n :
  getAmountOfJurorsForDispute A arbitrator disputeId = Ok n ->
  (is_ok (getVotesForJuror A disputeId arbitrator account) = true
   <-> forall draw, 1 <= draw <= n ->
         is_ok (isJurorDrawnForDispute A disputeId draw arbitrator account) = true)
  /\ (n <= 0 -> getVotesForJuror A disputeId arbitrator account = Ok []).
Proof.
  intros Hn. unfold getVotesForJuror. rewrite Hn. fold (drawsUpTo n). split.
  - split.
    + intros H draw Hd.
      destruct (votesLoop A disputeId arbitrator account (drawsUpTo n) []) as [votes|e] eqn:E;
        [|discriminate].
      apply votesLoop_ok in E as [_ Hall]. rewrite List.Forall_forall in Hall.
      apply Hall. apply drawsUpTo_In. exact Hd.
    + intros H.
      destruct (votesLoop_all_ok A disputeId arbitrator account (drawsUpTo n) [])
        as [votes ->]; [|reflexivity].
      apply List.Forall_forall. intros draw Hd. apply H.
      apply drawsUpTo_In. exact Hd.
  - intros Hle. unfold drawsUpTo. replace (Z.to_nat n) with 0%nat by lia. reflexivity.
Qed.

End VoteFacts.

(** In dispute 0 of [scannedLedger], of three jurors, 0xJ holds draw 2. *)
Lemma getVotesForJuror_draws_witness :
  exists n,
    AbstractDisputes.getAmountOfJurorsForDispute scannedLedger "0xK" 0 = Ok n
    /\ (forall draw,
          In draw [2]
          <-> 1 <= draw <= n
              /\ AbstractDisputes.isJurorDrawnForDispute scannedLedger 0 draw "0xK" "0xJ"
                 = Ok true)
    /\ StronglySorted Z.lt [2].
Proof.
  apply (getVotesForJuror_draws scannedLedger 0 "0xK" "0xJ" [2]). reflexivity.
Defined.

(** On [brokenLedger] the read of draw 2 throws, and the dispute has three
    jurors. *)
Lemma getVotesForJuror_answers_witness :
  is_ok (AbstractDisputes.getVotesForJuror scannedLedger 0 "0xK" "0xJ") = true
  /\ AbstractDisputes.getVotesForJuror brokenLedger 0 "0xK" "0xJ" = Err CHAIN_READ_FAILED.
Proof.
  split.
  - apply (proj1 (getVotesForJuror_answers scannedLedger 0 "0xK" "0xJ" 3 eq_refl)).
    intros draw _. reflexivity.
  - reflexivity.
Defined.

(** ** The juror scan: what it collects *)

Section ScanResults.

Import AbstractDisputes.

Context (A : ArbitratorWrapper) (null arbitrator account : string) (currentSession : Z).

(** A contract the scan may collect: the arbitrated contract of a dispute
    of the current session in which the account holds a draw, that is, of
    one of whose draws 1..n the ledger says that it is the account's. *)
Let collectable (x : string) : Prop :=
  String.eqb x null = false
  /\ exists disputeId d n draw,
       0 <= disputeId
       /\ getDispute A arbitrator disputeId = Ok d
       /\ arbitratedContract d = x
       /\ firstSession d + numberOfAppeals d = currentSession
       /\ getAmountOfJurorsForDispute A arbitrator disputeId = Ok n
       /\ 1 <= draw <= n
       /\ isJurorDrawnForDispute A disputeId draw arbitrator account = Ok true.

Lemma scanLoop_collects fuel disputeId acc r :
  0 <= disputeId ->
  Forall collectable acc ->
  scanLoop fuel A null arbitrator account currentSession disputeId acc = Some r ->
  Forall collectable r.
Proof.
  revert disputeId acc. induction fuel as [|fuel IH]; intros disputeId acc Hid Hacc H;
    simpl in H; [discriminate|].
  destruct (getDispute A arbitrator disputeId) as [d|e] eqn:Ed;
    [|injection H as <-; exact Hacc].
  destruct (String.eqb (arbitratedContract d) null) eqn:En; [injection H as <-; exact Hacc|].
  destruct (Z.eqb_spec (firstSession d + numberOfAppeals d) currentSession) as [Hs|Hs];
    simpl in H.
  - destruct (getVotesForJuror A disputeId arbitrator account) as [votes|e] eqn:Ev;
      [|injection H as <-; exact Hacc].
    apply (IH (disputeId + 1) _ ltac:(lia)) in H; [exact H|].
    pose proof (getVotesForJuror_holds _ _ _ _ _ Ev) as Hh.
    destruct votes as [|v votes]; simpl; [exact Hacc|].
    apply Forall_app. split; [exact Hacc|]. constructor; [|constructor].
    split; [exact En|].
    symmetry in Hh. apply holdsDraw_spec in Hh as (n & draw & Hn & Hr & Hdr).
    exists disputeId, d, n, draw. auto 10.
  - destruct (getDispute A arbitrator (disputeId + 1)); [|injection H as <-; exact Hacc].
    apply (IH (disputeId + 1) _ ltac:(lia)) in H; assumption.
Qed.

End ScanResults.

(** X19: whatever [getDisputeContractsForJuror] returns, it never holds the
    null address, and each address in it is the arbitrated contract of a
    dispute of the current session in which the account holds at least one
    draw: the ledger gives the dispute [n] jurors and says of one of the
    draws 1..n that it is the account's. *)
Theorem scan_collects fuel this arbitrator account r x :
  AbstractDisputes.getDisputeContractsForJuror fuel this arbitrator account = Some (Ok r) ->
  In x r ->
  exists A data disputeId d n draw,
    AbstractDisputes._Arbitrator this = Some A
    /\ AbstractDisputes.getData A arbitrator account = Ok data
    /\ String.eqb x (AbstractDisputes.NULL_ADDRESS this) = false
    /\ 0 <= disputeId
    /\ AbstractDisputes.getDispute A arbitrator disputeId = Ok d
    /\ AbstractDisputes.arbitratedContract d = x
    /\ AbstractDisputes.firstSession d + AbstractDisputes.numberOfAppeals d
       = AbstractDisputes.session data
    /\ AbstractDisputes.getAmountOfJurorsForDispute A arbitrator disputeId = Ok n
    /\ 1 <= draw <= n
    /\ AbstractDisputes.isJurorDrawnForDispute A disputeId draw arbitrator account = Ok true.
Proof.
  unfold AbstractDisputes.getDisputeContractsForJuror.
  destruct (AbstractDisputes._Arbitrator this) as [A|]; [|discriminate].
  destruct (AbstractDisputes.getData A arbitrator account) as [data|e] eqn:Ed; [|discriminate].
  destruct (AbstractDisputes.scanLoop fuel A (AbstractDisputes.NULL_ADDRESS this) arbitrator
              account (AbstractDisputes.session data) 0 []) as [r'|] eqn:Es; [|discriminate].
  intros H Hx. injection H as <-.
  apply scanLoop_collects in Es; [|lia|constructor].
  rewrite List.Forall_forall in Es. apply Es in Hx.
  destruct Hx as (Hn & disputeId & d & n & draw & H0 & H1 & H2 & H3 & H4 & H5 & H6).
  exists A, data, disputeId, d, n, draw. auto 12.
Qed.

(** The scan of [scannedLedger] for 0xJ collects 0xC0, the contract of
    dispute 0, in which 0xJ holds a draw. *)
Lemma scan_collects_witness :
  exists A data disputeId d n draw,
    AbstractDisputes._Arbitrator (AbstractDisputes.mkWrapper (Some scannedLedger) "0x")
    = Some A
    /\ AbstractDisputes.getData A "0xK" "0xJ" = Ok data
    /\ String.eqb "0xC0" "0x" = false
    /\ 0 <= disputeId
    /\ AbstractDisputes.getDispute A "0xK" disputeId = Ok d
    /\ AbstractDisputes.arbitratedContract d = "0xC0"
    /\ AbstractDisputes.firstSession d + AbstractDisputes.numberOfAppeals d
       = AbstractDisputes.session data
    /\ AbstractDisputes.getAmountOfJurorsForDispute A "0xK" disputeId = Ok n
    /\ 1 <= draw <= n
    /\ AbstractDisputes.isJurorDrawnForDispute A disputeId draw "0xK" "0xJ" = Ok true.
Proof.
  apply (scan_collects 5 (AbstractDisputes.mkWrapper (Some scannedLedger) "0x") "0xK" "0xJ"
           ["0xC0"] "0xC0").
  - reflexivity.
  - left. reflexivity.
Defined.

(** ** The older wrapper's reads of the store *)

Section AbstractStoreFacts.

Import AbstractDisputesStore.

Lemma filterT_head (p : JVal -> option bool) l x r :
  filterT p l = Some (x :: r) -> p x = Some true /\ In x l.
Proof.
  revert x r. induction l as [|y l IH]; intros x r H; simpl in H; [discriminate|].
  destruct (p y) as [b|] eqn:Ey; [|discriminate].
  destruct (filterT p l) as [r'|]; [|discriminate].
  destruct b.
  - injection H as <- _. split; [exact Ey|left; reflexivity].
  - injection H as ->. destruct (IH _ _ eq_refl) as [Hx Hin]. split; [exact Hx|right; exact Hin].
Qed.

Lemma filterT_none (p : JVal -> option bool) l :
  Forall (fun x => p x = Some false) l -> filterT p l = Some [].
Proof.
  induction 1 as [|x l Hx _ IH]; simpl; [reflexivity|]. rewrite Hx, IH. reflexivity.
Qed.

Context {S : Type}.
Context (net : Request -> S -> XhrResult * S).

(** X20: the dispute [getUserDisputeFromStore] returns is one of the
    account's stored disputes and carries the hash asked for; when none of
    the stored disputes carries it the call throws, naming the account; and
    for an account the store has no profile of it throws a TypeError. *)
Theorem getUserDisputeFromStore_result contract account (c c1 : Conn S) p :
  getUserProfile net account c = (Ok p, c1) ->
  (forall v, fst (getUserDisputeFromStore net contract account c) = Ok v ->
     In v (elems (field p "disputes")) /\ field v "hash" = JStr contract)
  /\ (forall o, p = JObj o ->
        Forall (fun d => has_hash contract d = Some false) (elems (get o "disputes")) ->
        getUserDisputeFromStore net contract account c
        = (Err (UNABLE (String.append "User "
                          (String.append account " does not have store data for dispute"))),
           c1))
  /\ (p = JNull -> getUserDisputeFromStore net contract account c = (Err TYPE_ERROR, c1)).
Proof.
  intros Hp. unfold getUserDisputeFromStore, bind. rewrite Hp. split; [|split].
  - intros v.
    destruct p; try (simpl; discriminate).
    cbn [prop field elems].
    destruct (filterT (has_hash contract) (elems (get m "disputes"))) as [[|x r]|] eqn:Ef;
      try (simpl; discriminate).
    unfold ret. simpl. intros H. injection H as <-.
    apply filterT_head in Ef as [Hh Hin]. split; [exact Hin|].
    unfold has_hash in Hh.
    destruct x; cbn [prop strict_eq] in Hh; try discriminate.
    injection Hh as Hh. cbn [field]. apply strict_eq_str. exact Hh.
  - intros o -> Hall. cbn [prop]. rewrite (filterT_none _ _ Hall). reflexivity.
  - intros ->. reflexivity.
Qed.

(** X21: [getEvidenceForArbitrableContract] of the older wrapper returns
    the evidence party A keeps on the contract followed by the evidence
    party B keeps on it, a party that does not keep the contract adding
    nothing.  Both profiles are needed: when the store has no profile of
    party B the call fails with [PROFILE_NOT_FOUND], whatever party A
    keeps. *)
Theorem getEvidence_both_parties B contract (c c1 : Conn S) d a :
  getData B contract = Ok d ->
  getContractByAddress net (partyA d) contract c = (Ok a, c1) ->
  (forall p c2,
     getUserProfile net (partyB d) c1 = (Ok p, c2) -> truthy p = false ->
     getEvidenceForArbitrableContract net (Some B) contract c
     = (Err (PROFILE_NOT_FOUND (partyB d)), c2))
  /\ (forall b c2 la lb,
        getContractByAddress net (partyB d) contract c1 = (Ok b, c2) ->
        evidencesOf a = JArr la -> evidencesOf b = JArr lb ->
        getEvidenceForArbitrableContract net (Some B) contract c = (Ok (JArr (la ++ lb)), c2)
        /\ (a = JUndef -> la = [])
        /\ (b = JUndef -> lb = [])).
Proof.
  intros Hd Ha. unfold getEvidenceForArbitrableContract, bind, lift.
  rewrite Hd, Ha. split.
  - intros p c2 Hp Ht. unfold getContractByAddress, bind.
    rewrite Hp, Ht. reflexivity.
  - intros b c2 la lb Hb Hla Hlb. rewrite Hb, Hla, Hlb.
    split; [reflexivity|]. split; intros ->; unfold evidencesOf in *; simpl in *; congruence.
Qed.

End AbstractStoreFacts.

Lemma getUserDisputeFromStore_result_witness :
  AbstractDisputesStore.getUserDisputeFromStore KlerosStore.serve "0xC" "0xZ"
    (anonymous evidenceStore)
  = (Err TYPE_ERROR,
     logged (anonymous evidenceStore) [mkRequest "GET" (UriProfile "0xZ") [] None])
  /\ In (JObj (<["hash" := JStr "0xC"]> (<["votes" := JArr [JNum 1]]> ∅)))
       (elems (field (JObj partyAProfile) "disputes"))
  /\ field (JObj (<["hash" := JStr "0xC"]> (<["votes" := JArr [JNum 1]]> ∅))) "hash"
     = JStr "0xC".
Proof.
  split.
  - apply (getUserDisputeFromStore_result KlerosStore.serve "0xC" "0xZ"
             (anonymous evidenceStore) _ JNull eq_refl). reflexivity.
  - apply (proj1 (getUserDisputeFromStore_result KlerosStore.serve "0xC" "0xA"
                    (anonymous evidenceStore) _ (JObj partyAProfile) eq_refl)).
    reflexivity.
Defined.

(** Between 0xA and 0xB the evidence is that of 0xA; between 0xA and 0xZ,
    who has no profile, the call fails. *)
Lemma getEvidence_both_parties_witness :
  fst (AbstractDisputesStore.getEvidenceForArbitrableContract KlerosStore.serve
         (Some parties) "0xC" (anonymous evidenceStore))
  = Ok (JArr [JStr "e1"; JStr "e2"])
  /\ fst (AbstractDisputesStore.getEvidenceForArbitrableContract KlerosStore.serve
            (Some strangers) "0xC" (anonymous evidenceStore))
     = Err (PROFILE_NOT_FOUND "0xZ").
Proof.
  split.
  - destruct (proj2 (getEvidence_both_parties KlerosStore.serve parties "0xC"
                       (anonymous evidenceStore) _
                       (AbstractDisputesStore.mkArbitrableData "0xA" "0xB") _
                       eq_refl eq_refl)
                JUndef _ [JStr "e1"; JStr "e2"] [] eq_refl eq_refl eq_refl) as [-> _].
    reflexivity.
  - rewrite (proj1 (getEvidence_both_parties KlerosStore.serve strangers "0xC"
                      (anonymous evidenceStore) _
                      (AbstractDisputesStore.mkArbitrableData "0xA" "0xZ") _
                      eq_refl eq_refl)
               JNull _ eq_refl eq_refl).
    reflexivity.
Defined.

(** ** The store wrapper: what the keyed reads return *)

Section KeyedReads.

Context {S : Type}.
Context (net : Request -> S -> XhrResult * S).

Lemma first_match_cases (p : JVal -> bool) l :
  first_match p l = JUndef \/ (p (first_match p l) = true /\ In (first_match p l) l).
Proof.
  unfold first_match. destruct (List.find p l) as [x|] eqn:E; [|left; reflexivity].
  right. apply find_some in E as [Hin Hp]. split; assumption.
Qed.

(** X22: what the keyed reads return carries the key asked for.
    [getContractByAddress] returns [undefined] or a contract of the user's
    profile whose address is the one asked for, and
    [getDisputeDataForUser] returns [undefined] or a dispute profile of the
    user with the arbitrator address and the dispute id asked for; neither
    makes any request but the read of the profile. *)
Theorem keyed_reads user contract arbitrator disputeId (c : Conn S) :
  (forall v, fst (getContractByAddress net user contract c) = Ok v ->
     v = JUndef \/ field v "address" = JStr contract)
  /\ (forall v, fst (getDisputeDataForUser net user arbitrator disputeId c) = Ok v ->
        v = JUndef
        \/ (field v "arbitratorAddress" = JStr arbitrator
            /\ field v "disputeId" = JNum disputeId))
  /\ snd (getContractByAddress net user contract c) = snd (getUserProfile net user c)
  /\ snd (getDisputeDataForUser net user arbitrator disputeId c)
     = snd (getUserProfile net user c).
Proof.
  unfold getContractByAddress, getDisputeDataForUser, bind.
  destruct (getUserProfile net user c) as [[p|e] c1]; simpl;
    [|repeat split; intros; discriminate].
  destruct (truthy p); simpl; (split; [|split; [|split; reflexivity]]);
    try (intros; discriminate).
  - intros v H. injection H as <-.
    match goal with
    | |- first_match ?p ?l = _ \/ _ => destruct (first_match_cases p l) as [H|[H _]]
    end; [left; exact H|right].
    destruct (field _ "address"); try discriminate.
    apply String.eqb_eq in H as ->. reflexivity.
  - intros v H. injection H as <-.
    destruct (first_match_cases (is_dispute arbitrator disputeId)
                (elems (field p "disputes"))) as [H|[H _]]; [left; exact H|right].
    apply is_dispute_fields in H. exact H.
Qed.

End KeyedReads.
